(** * dartomatic-scorer: camera lifecycle and capture orchestration

    A shallow embedding of the calibration wizard's orchestration layer:

    - [Js]         JavaScript numbers-or-undefined and array cells, as the
                   per-camera counters of [pages/Index.tsx] use them;
    - [Index]      the wizard page state and its two updaters
                   ([handleCameraSwitch], [handleCapture]);
    - [Http]       outcomes of a [fetch] followed by [response.json()];
    - [Service]    [services/CalibrationService.ts]: configuration, marker
                   detection, calibration start and progress polling;
    - [Media]      [MediaDeviceInfo];
    - [Intrinsic]  [components/IntrinsicCalibration.tsx]: the capture button
                   and [captureAndDetect];
    - [IntrinsicStep] how [components/steps/IntrinsicCalibrationStep.tsx]
                   wires a slot's component to the page;
    - [Extrinsic]  the ExtrinsicCalibration component: [captureImage];
    - [Registry]   [hooks/useCameras.ts]: the permission probe and
                   [getCameras];
    - [CameraView] [components/CameraView.tsx]: the stream life cycle of one
                   camera slot as an event-driven transition system;
    - [Sample]     concrete devices, responses and event sequences.

    Asynchronous code runs on a single event loop; every handler body
    between two suspension points is one atomic transition, and what the
    platform and the backend do is an input: an outcome handed to a
    function, or an event handed to a step function.  Integers that the
    code keeps in JavaScript numbers stay far below 2^53 and are modelled
    in [Z] or [nat]. *)

From Stdlib Require Import ZArith QArith Lia.
From stdpp Require Import base list strings pretty gmap.

Open Scope Z_scope.

(* ================================================================== *)
(** * Part I: the model *)
(* ================================================================== *)

(** ** Toast notifications ([@/components/ui/use-toast]) *)

Inductive ToastVariant := Default | Destructive.

Record Toast := mkToast {
  title : string;
  description : string;
  variant : ToastVariant
}.

(** ** JavaScript array cells *)

Module Js.

(** A cell of a [number[]]: a number, [NaN], or [undefined] (what reading a
    hole or reading past the end gives). *)
Inductive val := Num (z : Z) | NaN | Undef.

#[global] Instance val_eq_dec : EqDecision val.
Proof. solve_decision. Defined.

(** [a[i]] *)
Definition get (a : list val) (i : nat) : val := default Undef (a !! i).

(** [a[i] = v]: in range the cell is replaced; past the end the array is
    extended, the cells in between being holes. *)
Definition set (a : list val) (i : nat) (v : val) : list val :=
  if decide (i < length a)%nat then <[i:=v]> a
  else a ++ replicate (i - length a) Undef ++ [v].

(** [v + 1]: [undefined + 1] and [NaN + 1] are [NaN]. *)
Definition add1 (v : val) : val :=
  match v with Num z => Num (z + 1) | _ => NaN end.

(** [Math.min(v, k)] for a numeric literal [k]. *)
Definition min (v : val) (k : Z) : val :=
  match v with Num z => Num (Z.min z k) | _ => NaN end.

(** [v >= k]: comparisons with [NaN] or [undefined] are false. *)
Definition geb (v : val) (k : Z) : bool :=
  match v with Num z => k <=? z | _ => false end.

(** [v <= k] as a proposition on numeric cells. *)
Definition le (v : val) (k : Z) : Prop :=
  match v with Num z => z <= k | _ => False end.

End Js.

(** ** The wizard page ([pages/Index.tsx]) *)

Module Index.

Record State := mkState {
  currentStep : nat;
  currentCamera : nat;
  captureCounts : list Js.val;
  isCapturing : bool
}.

(** [useState] initial values. *)
Definition initial : State :=
  {| currentStep := 0; currentCamera := 0;
     captureCounts := [Js.Num 0; Js.Num 0; Js.Num 0];
     isCapturing := false |}.

Definition count (st : State) (i : nat) : Js.val := Js.get (captureCounts st) i.

(** [handleCameraSwitch(index)]: [setCurrentCamera(index)] and
    [newCounts[index] = 0] on a copy of the counters. *)
Definition handleCameraSwitch (index : nat) (st : State) : State :=
  {| currentStep := currentStep st;
     currentCamera := index;
     captureCounts := Js.set (captureCounts st) index (Js.Num 0);
     isCapturing := isCapturing st |}.

(** [handleCapture(cameraIndex)]:
    [newCounts[cameraIndex] = Math.min(newCounts[cameraIndex] + 1, 15)],
    then [setIsCapturing(false)]. *)
Definition handleCapture (cameraIndex : nat) (st : State) : State :=
  {| currentStep := currentStep st;
     currentCamera := currentCamera st;
     captureCounts :=
       Js.set (captureCounts st) cameraIndex
              (Js.min (Js.add1 (Js.get (captureCounts st) cameraIndex)) 15);
     isCapturing := false |}.

(** The wizard's steps. *)
Definition STEPS : list string :=
  ["Camera Setup"; "Intrinsic Calibration"; "Extrinsic Calibration";
   "Board Registration"; "Verification"].

Definition set_currentStep (n : Z) (st : State) : State :=
  {| currentStep := Z.to_nat n;
     currentCamera := currentCamera st;
     captureCounts := captureCounts st;
     isCapturing := isCapturing st |}.

(** [onPrevious]: [setCurrentStep(Math.max(0, currentStep - 1))] *)
Definition onPrevious (st : State) : State :=
  set_currentStep (Z.max 0 (Z.of_nat (currentStep st) - 1)) st.

(** [onNext]: [setCurrentStep(Math.min(STEPS.length - 1, currentStep + 1))] *)
Definition onNext (st : State) : State :=
  set_currentStep (Z.min (Z.of_nat (length STEPS) - 1)
                         (Z.of_nat (currentStep st) + 1)) st.

(** The [disabled] attributes of the navigation buttons, which the page
    renders with [totalSteps = STEPS.length]. *)
Definition previous_disabled (st : State) : bool :=
  bool_decide (currentStep st = 0%nat).

Definition next_disabled (st : State) : bool :=
  bool_decide (Z.of_nat (currentStep st) = Z.of_nat (length STEPS) - 1).

(** What the user can do to the page: click a navigation button, and, through
    the intrinsic step, switch to a slot or have a capture of a slot
    confirmed. *)
Inductive Action :=
| ClickPrevious
| ClickNext
| Switch (index : nat)
| Confirmed (cameraIndex : nat).

Definition act (a : Action) (st : State) : State :=
  match a with
  | ClickPrevious => if previous_disabled st then st else onPrevious st
  | ClickNext => if next_disabled st then st else onNext st
  | Switch index => handleCameraSwitch index st
  | Confirmed cameraIndex => handleCapture cameraIndex st
  end.

Definition acts (l : list Action) (st : State) : State :=
  foldl (fun s a => act a s) st l.

(** The slot an action names, if it names one. *)
Definition slot_of (a : Action) : option nat :=
  match a with
  | Switch i => Some i
  | Confirmed i => Some i
  | _ => None
  end.

(** The action names no slot outside the three of the rig. *)
Definition on_rig (a : Action) : Prop :=
  match slot_of a with Some i => (i < 3)%nat | None => True end.

(** Every counter is a number between 0 and 15 and there are three. *)
Definition counters_ok (st : State) : Prop :=
  length (captureCounts st) = 3%nat /\
  forall i, (i < 3)%nat -> exists z, count st i = Js.Num z /\ 0 <= z <= 15.

End Index.

(** ** HTTP exchanges *)

Module Http.

(** A value thrown in JavaScript: an [Error] with its message, or something
    that is not an [Error] instance. *)
Inductive Thrown := Err (message : string) | NotAnError.

(** [error instanceof Error ? error.message : fallback] *)
Definition message_or (e : Thrown) (fallback : string) : string :=
  match e with Err m => m | NotAnError => fallback end.

(** [m || fallback] on an optional string: [undefined] and the empty string
    are falsy. *)
Definition str_or (m : option string) (fallback : string) : string :=
  match m with
  | Some s => if decide (s = EmptyString) then fallback else s
  | None => fallback
  end.

(** [new Error(m).message]: an [undefined] argument gives the empty message. *)
Definition error_of (m : option string) : Thrown := Err (default EmptyString m).

(** What [await fetch(...)] and [await response.json()] can do: the fetch
    rejects; or it resolves with an HTTP status and the body either fails to
    parse or parses. *)
Inductive Outcome (B : Type) :=
| FetchRejects (e : Thrown)
| JsonRejects (status : nat) (e : Thrown)
| Response (status : nat) (body : B).
Arguments FetchRejects {B} e.
Arguments JsonRejects {B} status e.
Arguments Response {B} status body.

(** [response.ok]: the status is in the range 200-299. *)
Definition ok (status : nat) : bool :=
  (200 <=? status)%nat && (status <? 300)%nat.

End Http.

(** ** The calibration service ([services/CalibrationService.ts]) *)

Module Service.

Record CalibrationConfig := mkConfig {
  numCameras : Z;
  resolution : Z * Z;
  markerSize : Q;
  minMarkersDetected : Z;
  maxReprojError : Q
}.

(** The [private readonly config] of the service. *)
Definition config : CalibrationConfig :=
  {| numCameras := 3;
     resolution := (1280, 720);
     markerSize := (5 # 100)%Q;
     minMarkersDetected := 4;
     maxReprojError := (1 # 1)%Q |}.

Record Markers := mkMarkers {
  corners : option (list (list (list Z)));
  ids : option (list Z)
}.

(** The fields of a [/detect_markers] response body that the code reads. *)
Record DetectBody := mkDetectBody {
  body_success : bool;
  body_detected : bool;
  body_message : option string;
  body_markers : option Markers
}.

(** The fields of a [/calibration_progress] response body. *)
Record ProgressBody := mkProgressBody {
  is_running : bool;
  body_progress : Js.val;
  progress_message : option string
}.

(** The body of [/start_calibration] and [/stop] responses. *)
Record AckBody := mkAckBody {
  ack_success : bool;
  ack_message : option string
}.

Record CalibrationResult := mkResult {
  success : bool;
  message : option string;
  detected : option bool;
  markers : option Markers
}.

Record CalibrationProgress := mkProgress {
  status : string;
  progress : Js.val;
  message' : option string
}.

(** A request as it leaves [fetch]: the URL and the JSON body. *)
Inductive Request :=
| PostDetectMarkers (url : string) (image : string) (camera_index : nat)
                    (cfg : option CalibrationConfig)
| PostStartCalibration (url : string) (camera_indices : list nat)
                       (cfg : option CalibrationConfig)
| GetCalibrationProgress (url : string)
| PostStop (url : string).

(** The configuration a request carries in its body, if any. *)
Definition request_config (r : Request) : option CalibrationConfig :=
  match r with
  | PostDetectMarkers _ _ _ c => c
  | PostStartCalibration _ _ c => c
  | GetCalibrationProgress _ => None
  | PostStop _ => None
  end.

Definition is_detect (r : Request) : bool :=
  match r with PostDetectMarkers _ _ _ _ => true | _ => false end.

Definition is_start (r : Request) : bool :=
  match r with PostStartCalibration _ _ _ => true | _ => false end.

Definition is_progress (r : Request) : bool :=
  match r with GetCalibrationProgress _ => true | _ => false end.

(** Where the base URL comes from. *)
Record UrlEnv := mkUrlEnv {
  window_env_url : option string;
  process_env_url : option string
}.

(** [getCalibrationApiUrl()] *)
Definition getCalibrationApiUrl (e : UrlEnv) : string :=
  match window_env_url e with
  | Some u => if decide (u = EmptyString) then
                Http.str_or (process_env_url e) "http://127.0.0.1:8000"
              else u
  | None => Http.str_or (process_env_url e) "http://127.0.0.1:8000"
  end.

(** [result.markers?.ids?.length || 0] *)
Definition ids_length (b : DetectBody) : Z :=
  match body_markers b with
  | Some m => match ids m with Some l => Z.of_nat (length l) | None => 0 end
  | None => 0
  end.

(** The environment of one [detectMarkers] call: whether the scratch canvas
    yields a 2d context, the JPEG data URL of the frame, and what the
    backend answers. *)
Record DetectEnv := mkDetectEnv {
  canvas_context : bool;
  data_url : string;
  detect_outcome : Http.Outcome DetectBody
}.

Definition detect_failure (e : Http.Thrown) : CalibrationResult :=
  {| success := false;
     message := Some (Http.message_or e "Failed to detect markers");
     detected := Some false;
     markers := None |}.

(** [detectMarkers(imageData, cameraIndex)]: the result and the requests
    sent.  Every failure is caught and turned into a result. *)
Definition detectMarkers (u : UrlEnv) (e : DetectEnv) (cameraIndex : nat)
  : CalibrationResult * list Request :=
  if negb (canvas_context e) then
    (detect_failure (Http.Err "Failed to get canvas context"), [])
  else
    let req := PostDetectMarkers (getCalibrationApiUrl u +:+ "/detect_markers")
                                 (data_url e) cameraIndex (Some config) in
    match detect_outcome e with
    | Http.FetchRejects err => (detect_failure err, [req])
    | Http.JsonRejects _ err => (detect_failure err, [req])
    | Http.Response s b =>
        if negb (Http.ok s) then
          (detect_failure
             (Http.Err (Http.str_or (body_message b) "Detection failed")),
           [req])
        else
        ({| success := true;
            detected := Some (minMarkersDetected config <=? ids_length b);
            message := Some ("Detected " +:+ pretty (ids_length b)
                             +:+ " markers for Camera "
                             +:+ pretty (cameraIndex + 1)%nat);
            markers := body_markers b |},
         [req])
    end.

(** The service object: its two private fields, the interval timers it has
    running (handle and period in milliseconds), the number of
    [getProgress] calls awaiting their response, and the requests sent so
    far (most recent last). *)
Record State := mkState {
  isCalibrating : bool;
  progressInterval : option nat;
  intervals : list (nat * Z);
  nextHandle : nat;
  polls : nat;
  sent : list Request
}.

Definition initial : State :=
  {| isCalibrating := false; progressInterval := None; intervals := [];
     nextHandle := 0; polls := 0; sent := [] |}.

(** [clearInterval(h)] *)
Definition clearInterval (h : nat) (ivs : list (nat * Z)) : list (nat * Z) :=
  filter (fun iv => iv.1 <> h) ivs.

(** [startProgressPolling()]: clear the interval held, then [setInterval]
    with a period of 1000 ms. *)
Definition startProgressPolling (st : State) : State :=
  let ivs := match progressInterval st with
             | Some h => clearInterval h (intervals st)
             | None => intervals st
             end in
  {| isCalibrating := isCalibrating st;
     progressInterval := Some (nextHandle st);
     intervals := ivs ++ [(nextHandle st, 1000)];
     nextHandle := S (nextHandle st);
     polls := polls st;
     sent := sent st |}.

(** [stopProgressPolling()] *)
Definition stopProgressPolling (st : State) : State :=
  {| isCalibrating := false;
     progressInterval := None;
     intervals := match progressInterval st with
                  | Some h => clearInterval h (intervals st)
                  | None => intervals st
                  end;
     nextHandle := nextHandle st;
     polls := polls st;
     sent := sent st |}.

Definition send (r : Request) (st : State) : State :=
  {| isCalibrating := isCalibrating st;
     progressInterval := progressInterval st;
     intervals := intervals st;
     nextHandle := nextHandle st;
     polls := polls st;
     sent := sent st ++ [r] |}.

Definition start_failure (e : Http.Thrown) : CalibrationResult :=
  {| success := false;
     message := Some (Http.message_or e "Extrinsic calibration failed to start");
     detected := None;
     markers := None |}.

(** [startCalibration(cameraIndices)]: the request is sent; only an ok
    response sets [isCalibrating] and starts polling.  Every failure is
    caught and turned into a result. *)
Definition startCalibration (u : UrlEnv) (cameraIndices : list nat)
    (o : Http.Outcome AckBody) (st : State) : CalibrationResult * State :=
  let st1 := send (PostStartCalibration
                     (getCalibrationApiUrl u +:+ "/start_calibration")
                     cameraIndices (Some config)) st in
  match o with
  | Http.FetchRejects err => (start_failure err, st1)
  | Http.JsonRejects _ err => (start_failure err, st1)
  | Http.Response s b =>
      if negb (Http.ok s) then
        (start_failure (Http.error_of (ack_message b)), st1)
      else
      let st2 := startProgressPolling
                   {| isCalibrating := true;
                      progressInterval := progressInterval st1;
                      intervals := intervals st1;
                      nextHandle := nextHandle st1;
                      polls := polls st1;
                      sent := sent st1 |} in
      ({| success := true;
          message := Some ("Extrinsic calibration started with "
                           +:+ pretty (length cameraIndices)
                           +:+ " cameras at " +:+ pretty (resolution config).1
                           +:+ "x" +:+ pretty (resolution config).2);
          detected := None;
          markers := None |},
       st2)
  end.

(** [getProgress()]: the progress record, or the error it rethrows. *)
Definition getProgress (o : Http.Outcome ProgressBody)
  : CalibrationProgress + Http.Thrown :=
  match o with
  | Http.FetchRejects err => inr err
  | Http.JsonRejects _ err => inr err
  | Http.Response s b =>
      if negb (Http.ok s) then inr (Http.error_of (progress_message b))
      else
      inl {| status := if is_running b then "running" else "stopped";
             progress := body_progress b;
             message' := progress_message b |}
  end.

(** The interval callback after [await this.getProgress()] has settled. *)
Definition poll_settled (o : Http.Outcome ProgressBody) (st : State) : State :=
  match getProgress o with
  | inl p =>
      if negb (isCalibrating st) || Js.geb (progress p) 100
      then stopProgressPolling st else st
  | inr _ => stopProgressPolling st
  end.

Definition stop_failure (e : Http.Thrown) : CalibrationResult :=
  {| success := false;
     message := Some (Http.message_or e "Failed to stop extrinsic calibration");
     detected := None;
     markers := None |}.

(** [stopCalibration()] *)
Definition stopCalibration (u : UrlEnv) (o : Http.Outcome AckBody) (st : State)
  : CalibrationResult * State :=
  let st1 := send (PostStop (getCalibrationApiUrl u +:+ "/stop")) st in
  match o with
  | Http.FetchRejects err => (stop_failure err, st1)
  | Http.JsonRejects _ err => (stop_failure err, st1)
  | Http.Response s b =>
      if negb (Http.ok s) then
        (stop_failure (Http.error_of (ack_message b)), st1)
      else
      ({| success := true;
          message := Some "Extrinsic calibration stopped successfully";
          detected := None;
          markers := None |},
       stopProgressPolling st1)
  end.

(** What can happen to the service on the event loop. *)
Inductive Event :=
| CallStart (cameraIndices : list nat) (o : Http.Outcome AckBody)
| CallStop (o : Http.Outcome AckBody)
| Tick (h : nat)
| PollSettles (o : Http.Outcome ProgressBody).

(** One turn of the event loop.  A tick of a cleared interval does not
    occur; a tick of a live one runs the callback up to its [await], which
    sends the progress request. *)
Definition step (u : UrlEnv) (ev : Event) (st : State) : State :=
  match ev with
  | CallStart ci o => (startCalibration u ci o st).2
  | CallStop o => (stopCalibration u o st).2
  | Tick h =>
      if bool_decide (h ∈ (intervals st).*1) then
        let st1 := send (GetCalibrationProgress
                           (getCalibrationApiUrl u +:+ "/calibration_progress")) st in
        {| isCalibrating := isCalibrating st1;
           progressInterval := progressInterval st1;
           intervals := intervals st1;
           nextHandle := nextHandle st1;
           polls := S (polls st1);
           sent := sent st1 |}
      else st
  | PollSettles o =>
      match polls st with
      | O => st
      | S n =>
          poll_settled o
            {| isCalibrating := isCalibrating st;
               progressInterval := progressInterval st;
               intervals := intervals st;
               nextHandle := nextHandle st;
               polls := n;
               sent := sent st |}
      end
  end.

Definition run (u : UrlEnv) (evs : list Event) (st : State) : State :=
  foldl (fun s ev => step u ev s) st evs.

(** A new job is started by a [startCalibration] call whose response is ok. *)
Definition starts_job (ev : Event) : bool :=
  match ev with
  | CallStart _ (Http.Response s _) => Http.ok s
  | _ => false
  end.

(** The number of progress requests sent so far. *)
Definition progress_requests (st : State) : nat :=
  length (filter (fun r => is_progress r = true) (sent st)).

(** A poll result that ends polling: an error, or a progress of 100 or more. *)
Definition poll_terminal (o : Http.Outcome ProgressBody) : Prop :=
  match getProgress o with
  | inl p => Js.geb (progress p) 100 = true
  | inr _ => True
  end.

(** The interval the service holds is the only one running. *)
Definition consistent (st : State) : Prop :=
  match progressInterval st with
  | Some h => intervals st = [(h, 1000)]
  | None => intervals st = []
  end.

(** The body of an answer with an ok status, if that is what came back. *)
Definition answered_ok {B} (o : Http.Outcome B) : option B :=
  match o with
  | Http.Response s b => if Http.ok s then Some b else None
  | _ => None
  end.

(** An event during which polling goes on for the interval [h]: a tick of
    [h], or a poll that settles with an ok answer whose progress is not a
    number of 100 or more. *)
Definition goes_on (h : nat) (ev : Event) : Prop :=
  match ev with
  | Tick h' => h' = h
  | PollSettles o =>
      exists b, answered_ok o = Some b /\ Js.geb (body_progress b) 100 = false
  | _ => False
  end.

Definition is_tick (ev : Event) : bool :=
  match ev with Tick _ => true | _ => false end.

End Service.

(** ** Media devices *)

Module Media.

(** A [MediaDeviceInfo]. *)
Record Device := mkDevice {
  deviceId : string;
  kind : string;
  label : string
}.

End Media.

(** ** The intrinsic capture component ([components/IntrinsicCalibration.tsx]) *)

Module Intrinsic.

Definition totalRequiredImages : Z := 15.

(** The props the component reads; [onCapture] acts on the parent's state. *)
Record Props := mkProps {
  cameraDevices : list Media.Device;
  cameraIndex : nat;
  captureCount : Js.val;
  onCapture : Index.State -> Index.State
}.

(** The component's own [useState] cells that the capture path reads. *)
Record Local := mkLocal {
  isCapturing : bool;
  streamReady : bool
}.

(** What the page outside the component provides during one capture. *)
Record Env := mkEnv {
  video : bool;
  canvas : bool;
  context : bool;
  data_url : string;
  outcome : Http.Outcome Service.DetectBody
}.

Inductive Effect :=
| Fetch (r : Service.Request)
| Notify (t : Toast)
| Captured.

Record Run := mkRun {
  local : Local;
  parent : Index.State;
  effects : list Effect
}.

(** The [disabled] attribute of the capture button. *)
Definition button_disabled (p : Props) (l : Local) : bool :=
  negb (streamReady l)
  || Js.geb (captureCount p) totalRequiredImages
  || isCapturing l.

(** Drawing the detected markers: every marker is read at its corners 0 to
    3, so a marker with fewer than four corners makes the loop throw. *)
Definition draw_throws (b : Service.DetectBody) : bool :=
  match Service.body_markers b with
  | Some m =>
      match Service.corners m with
      | Some cs => negb (forallb (fun mc => (4 <=? length mc)%nat) cs)
      | None => false
      end
  | None => false
  end.

Definition show (v : Js.val) : string :=
  match v with
  | Js.Num z => pretty z
  | Js.NaN => "NaN"
  | Js.Undef => "undefined"
  end.

(** The [catch] block: one destructive toast. *)
Definition capture_error (e : Http.Thrown) : Effect :=
  Notify {| title := "Capture Error";
            description :=
              Http.message_or e
                "Failed to process image. Check backend connection or permissions.";
            variant := Destructive |}.

(** The [finally] block: [setIsCapturing(false)]. *)
Definition settled (l : Local) : Local :=
  {| isCapturing := false; streamReady := streamReady l |}.

(** [captureAndDetect()] *)
Definition captureAndDetect (p : Props) (l : Local) (e : Env) (st : Index.State)
  : Run :=
  if isCapturing l || negb (streamReady l)
     || negb (bool_decide (is_Some (cameraDevices p !! cameraIndex p)))
  then {| local := l; parent := st; effects := [] |}
  else if negb (video e) || negb (canvas e) then
    {| local := settled l; parent := st;
       effects :=
         [Notify {| title := "Error";
                    description :=
                      "Camera " +:+ pretty (cameraIndex p + 1)%nat
                      +:+ " or canvas not ready. Please try again or check permissions.";
                    variant := Destructive |}] |}
  else if negb (context e) then
    {| local := settled l; parent := st;
       effects :=
         [Notify {| title := "Error";
                    description := "Could not get canvas context.";
                    variant := Destructive |}] |}
  else
    let req := Fetch (Service.PostDetectMarkers
                        "http://127.0.0.1:8000/detect_markers"
                        (data_url e) (cameraIndex p) None) in
    let failed err :=
      {| local := settled l; parent := st;
         effects := [req; capture_error err] |} in
    match outcome e with
    | Http.FetchRejects err => failed err
    | Http.JsonRejects s err =>
        if negb (Http.ok s)
        then failed (Http.Err ("HTTP error! status: " +:+ pretty s))
        else failed err
    | Http.Response s b =>
        if negb (Http.ok s)
        then failed (Http.Err ("HTTP error! status: " +:+ pretty s))
        else if Service.body_success b && Service.body_detected b then
          if draw_throws b
          then failed (Http.Err "Cannot read properties of undefined (reading '0')")
          else
            {| local := settled l;
               parent := onCapture p st;
               effects :=
                 [req; Captured;
                  Notify {| title := "Success";
                            description :=
                              "Captured image "
                              +:+ show (Js.min (Js.add1 (captureCount p))
                                               totalRequiredImages)
                              +:+ " of " +:+ pretty totalRequiredImages
                              +:+ " for Camera "
                              +:+ pretty (cameraIndex p + 1)%nat;
                            variant := Default |}] |}
        else
          failed (Http.Err (Http.str_or (Service.body_message b)
                                        "Failed to detect markers"))
    end.

(** A click on the capture button: nothing when the component renders
    nothing ([cameraIndex >= cameraDevices.length]) or the button is
    disabled. *)
Definition click (p : Props) (l : Local) (e : Env) (st : Index.State) : Run :=
  if bool_decide (length (cameraDevices p) <= cameraIndex p)%nat
     || button_disabled p l
  then {| local := l; parent := st; effects := [] |}
  else captureAndDetect p l e st.

(** The backend confirmed the detection: an ok response whose body reports
    [success] and [detected]. *)
Definition confirmed (e : Env) : bool :=
  match outcome e with
  | Http.Response s b =>
      Http.ok s && Service.body_success b && Service.body_detected b
  | _ => false
  end.

(** The run gets as far as sending the frame: the guard lets it through and
    the video element, the canvas and its 2d context are there. *)
Definition sends (p : Props) (l : Local) (e : Env) : bool :=
  negb (isCapturing l) && streamReady l
  && bool_decide (is_Some (cameraDevices p !! cameraIndex p))
  && video e && canvas e && context e.

(** The answer is one that makes the capture count: an ok status, a body
    reporting [success] and [detected], and markers that can all be drawn. *)
Definition counts (e : Env) : bool :=
  match outcome e with
  | Http.Response s b =>
      Http.ok s && Service.body_success b && Service.body_detected b
      && negb (draw_throws b)
  | _ => false
  end.

Definition toasts (effs : list Effect) : list Toast :=
  omap (fun x => match x with Notify t => Some t | _ => None end) effs.

Definition fetches (effs : list Effect) : list Service.Request :=
  omap (fun x => match x with Fetch r => Some r | _ => None end) effs.

(** What the component shows under the video: the number of captures,
    [Math.min(captureCount, totalRequiredImages)], and the number remaining,
    [totalRequiredImages] minus that. *)
Definition shown_captures (c : Js.val) : Js.val := Js.min c totalRequiredImages.

Definition shown_remaining (c : Js.val) : Js.val :=
  match shown_captures c with
  | Js.Num z => Js.Num (totalRequiredImages - z)
  | _ => Js.NaN
  end.

End Intrinsic.

(** ** The intrinsic step ([components/steps/IntrinsicCalibrationStep.tsx])
    as [pages/Index.tsx] renders it *)

Module IntrinsicStep.

(** The props slot [index] receives: [captureCount={captureCounts[index]}]
    and [onCapture={() => onCapture(index)}], where the page passes
    [handleCapture]. *)
Definition props (devices : list Media.Device) (index : nat) (st : Index.State)
  : Intrinsic.Props :=
  {| Intrinsic.cameraDevices := devices;
     Intrinsic.cameraIndex := index;
     Intrinsic.captureCount := Index.count st index;
     Intrinsic.onCapture := Index.handleCapture index |}.

(** A capture attempt on slot [index] that reaches [captureAndDetect]. *)
Definition capture (devices : list Media.Device) (index : nat)
    (l : Intrinsic.Local) (e : Intrinsic.Env) (st : Index.State) : Intrinsic.Run :=
  Intrinsic.captureAndDetect (props devices index st) l e st.

(** A click on the capture button of slot [index]. *)
Definition click (devices : list Media.Device) (index : nat)
    (l : Intrinsic.Local) (e : Intrinsic.Env) (st : Index.State) : Intrinsic.Run :=
  Intrinsic.click (props devices index st) l e st.

End IntrinsicStep.

(** ** The extrinsic capture component (ExtrinsicCalibration) *)

Module Extrinsic.

Inductive CalibrationStatus := idle | detecting | calibrating | complete | error.

#[global] Instance status_eq_dec : EqDecision CalibrationStatus.
Proof. solve_decision. Defined.

Record Progress := mkProgress {
  status : CalibrationStatus;
  progress : Z;
  message : string
}.

Record State := mkState {
  isCalibrating : bool;
  calibrationProgress : Progress
}.

Definition initial : State :=
  {| isCalibrating := false;
     calibrationProgress := {| status := idle; progress := 0; message := EmptyString |} |}.

Definition selectedCameras : list nat := [0; 1; 2]%nat.

(** Grabbing the frame of one camera, before the service is called. *)
Inductive Grab := NoVideo | NoContext | Frame.

Record Env := mkEnv {
  grab : nat -> Grab;
  detection : nat -> Service.DetectEnv;
  start_outcome : Http.Outcome Service.AckBody
}.

(** One callback of [selectedCameras.map(async ...)]: it throws before the
    service is called, or settles with the service's result. *)
Definition detect_one (u : Service.UrlEnv) (e : Env) (cameraIndex : nat)
  : (Service.CalibrationResult * list Service.Request) + Http.Thrown :=
  match grab e cameraIndex with
  | NoVideo =>
      inr (Http.Err ("Camera " +:+ pretty (cameraIndex + 1)%nat +:+ " not available"))
  | NoContext => inr (Http.Err "Could not get canvas context")
  | Frame => inl (Service.detectMarkers u (detection e cameraIndex) cameraIndex)
  end.

Definition detections (u : Service.UrlEnv) (e : Env)
  : list ((Service.CalibrationResult * list Service.Request) + Http.Thrown) :=
  map (detect_one u e) selectedCameras.

(** The requests the callbacks send; each runs up to its [fetch] before the
    next one starts, so they leave in camera order. *)
Definition detect_requests (u : Service.UrlEnv) (e : Env) : list Service.Request :=
  concat (map (fun d => match d with inl (_, rs) => rs | inr _ => [] end)
              (detections u e)).

(** [await Promise.all(detectionPromises)]: all the results, or the first
    rejection. *)
Fixpoint promise_all {A} (ds : list (A + Http.Thrown)) : list A + Http.Thrown :=
  match ds with
  | [] => inl []
  | inr err :: _ => inr err
  | inl a :: rest =>
      match promise_all rest with
      | inl l => inl (a :: l)
      | inr err =>  inr err
      end
  end.

(** [result.success && result.detected] *)
Definition detected_ok (r : Service.CalibrationResult) : bool :=
  Service.success r && default false (Service.detected r).

Record Run := mkRun {
  state : State;
  (** the successive arguments of [setCalibrationProgress] *)
  shown : list Progress;
  service : Service.State;
  toasts : list Toast;
  (** the timer of the [finally] block: its delay, and whether its callback
      will call [setIsCalibrating(false)] *)
  timer : Z * bool
}.

Definition record_sent (rs : list Service.Request) (sv : Service.State)
  : Service.State :=
  foldl (fun s r => Service.send r s) sv rs.

Definition progress_detecting : Progress :=
  {| status := detecting; progress := 0;
     message := "Detecting markers across all cameras..." |}.

Definition progress_calibrating : Progress :=
  {| status := calibrating; progress := 50;
     message := "Starting calibration for all cameras..." |}.

Definition progress_complete : Progress :=
  {| status := complete; progress := 100;
     message := "Extrinsic calibration completed successfully for all cameras" |}.

Definition progress_error (err : Http.Thrown) : Progress :=
  {| status := error; progress := 0;
     message := Http.message_or err "Failed to capture image for calibration" |}.

(** The [catch] block, entered after [before] has been shown. *)
Definition failed (err : Http.Thrown) (st : State) (sv : Service.State)
    (before : list Progress) : Run :=
  {| state :=
       {| isCalibrating := true;
          calibrationProgress := progress_error err |};
     shown := before ++ [progress_error err];
     service := sv;
     toasts :=
       [{| title := "Error";
           description := Http.message_or err
                            "Failed to capture image for calibration";
           variant := Destructive |}];
     timer := (2000, negb (bool_decide
                             (status (calibrationProgress st) = error))) |}.

(** [captureImage()], up to the end of its [finally] block.  The timer
    callback of [finally] reads the status the component had when the
    callback was created. *)
Definition captureImage (u : Service.UrlEnv) (e : Env) (st : State)
    (sv : Service.State) : Run :=
  let sv1 := record_sent (detect_requests u e) sv in
  match promise_all (detections u e) with
  | inr err => failed err st sv1 [progress_detecting]
  | inl results =>
      if forallb (fun r => detected_ok r.1) results then
        let '(_, sv2) :=
          Service.startCalibration u selectedCameras (start_outcome e) sv1 in
        {| state :=
             {| isCalibrating := true;
                calibrationProgress := progress_complete |};
           shown := [progress_detecting; progress_calibrating; progress_complete];
           service := sv2;
           toasts :=
             [{| title := "Success";
                 description := "Markers detected and extrinsic calibration completed for all cameras";
                 variant := Default |}];
           timer := (2000, negb (bool_decide
                                   (status (calibrationProgress st) = error))) |}
      else
        failed (Http.Err "Failed to detect markers in all camera views") st sv1
               [progress_detecting]
  end.

(** The requests a run sent: what it appended to the service's log. *)
Definition requests (sv : Service.State) (r : Run) : list Service.Request :=
  drop (length (Service.sent sv)) (Service.sent (service r)).

(** The capture button is disabled while calibrating or with fewer than
    three devices. *)
Definition button_disabled (devices : list Media.Device) (st : State) : bool :=
  isCalibrating st || bool_decide (length devices < 3)%nat.

(** The result camera [i]'s detection call reported, if the call was made. *)
Definition reported (u : Service.UrlEnv) (e : Env) (i : nat)
  : option Service.CalibrationResult :=
  match detect_one u e i with
  | inl (r, _) => Some r
  | inr _ => None
  end.

(** All three detection calls were made and reported success and detected. *)
Definition all_detected (u : Service.UrlEnv) (e : Env) : Prop :=
  forall i, i ∈ selectedCameras ->
    exists r, reported u e i = Some r /\ detected_ok r = true.

(** The join of the three detections: every call settled, and every result
    reported success and detected. *)
Definition all_ok (u : Service.UrlEnv) (e : Env) : bool :=
  match promise_all (detections u e) with
  | inl results => forallb (fun r => detected_ok r.1) results
  | inr _ => false
  end.

(** The run asked the backend to start a calibration job. *)
Definition job_requested (sv : Service.State) (r : Run) : bool :=
  existsb Service.is_start (requests sv r).

(** The component once the timer of the [finally] block has fired: its
    callback calls [setIsCalibrating(false)] unless the status it closed
    over is [error]. *)
Definition after_timer (r : Run) : State :=
  if (timer r).2 then
    {| isCalibrating := false;
       calibrationProgress := calibrationProgress (state r) |}
  else state r.


End Extrinsic.

(** ** The device registry ([hooks/useCameras.ts]) *)

Module Registry.

Definition MAX_PERMISSION_ATTEMPTS : nat := 5.

Inductive Effect :=
| GetUserMedia            (* the probe request *)
| StopTracks              (* the probe stream is released *)
| Wait (ms : Z)           (* [await new Promise(r => setTimeout(r, ms))] *)
| EnumerateDevices
| Notify (t : Toast).

(** What the platform does during one enumeration: the outcome of the k-th
    probe (counted from 0; [None] grants the stream, [Some err] rejects),
    and the outcome of [enumerateDevices()]. *)
Record Env := mkEnv {
  probe : nat -> option Http.Thrown;
  enumerate : list Media.Device + Http.Thrown
}.

(** The [while (permissionAttempts < MAX_PERMISSION_ATTEMPTS)] loop, started
    with [permissionAttempts = attempts].  It gives the final value of
    [permissionAttempts], what it did, and the error it throws if any.
    [fuel] bounds the number of iterations; [None] means it ran out. *)
Fixpoint permission_loop (fuel : nat) (e : Env) (attempts : nat)
  : option (nat * list Effect * option Http.Thrown) :=
  match fuel with
  | O => None
  | S fuel' =>
      if (attempts <? MAX_PERMISSION_ATTEMPTS)%nat then
        match probe e attempts with
        | None => Some (attempts, [GetUserMedia; StopTracks], None)
        | Some err =>
            let attempts' := S attempts in
            if (attempts' =? MAX_PERMISSION_ATTEMPTS)%nat then
              Some (attempts', [GetUserMedia], Some err)
            else
              match permission_loop fuel' e attempts' with
              | Some (n, effs, r) => Some (n, GetUserMedia :: Wait 3000 :: effs, r)
              | None => None
              end
        end
      else Some (attempts, [], None)
  end.

(** How a call completes. *)
Inductive Completion := Normal | Throws (err : Http.Thrown).

Record Run := mkRun {
  completion : Completion;
  cameraDevices : list Media.Device;
  effects : list Effect
}.

Definition videoinput (d : Media.Device) : bool :=
  bool_decide (Media.kind d = "videoinput").

(** The body of the outer [try]: the effects, and either the device list it
    sets or the error it throws. *)
Definition try_body (fuel : nat) (e : Env)
  : option (list Effect * (list Media.Device + Http.Thrown)) :=
  match permission_loop fuel e 0 with
  | None => None
  | Some (_, effs, Some err) => Some (effs, inr err)
  | Some (_, effs, None) =>
      match enumerate e with
      | inr err => Some (effs ++ [EnumerateDevices], inr err)
      | inl devices =>
          let videoDevices := filter (fun d => videoinput d = true) devices in
          if bool_decide (length videoDevices = 0%nat) then
            Some (effs ++ [EnumerateDevices],
                  inr (Http.Err "No video input devices detected in Camera Setup"))
          else
            Some (effs ++ [EnumerateDevices;
                    Notify {| title := "Cameras Detected";
                              description :=
                                "Found " +:+ pretty (length videoDevices)
                                +:+ " cameras in Camera Setup";
                              variant := Default |}],
                  inl videoDevices)
      end
  end.

Definition camera_error : Toast :=
  {| title := "Camera Error";
     description := "Could not access cameras in Camera Setup. Please ensure camera permissions are granted, no other apps are using them, and hardware is connected. Attempting to refresh permissions...";
     variant := Destructive |}.

(** [getCameras()]: the [try] body, and the [catch] block that shows one
    toast and empties the device list.  [devices] is the list held before
    the call. *)
Definition getCameras (fuel : nat) (e : Env) (devices : list Media.Device)
  : option Run :=
  match try_body fuel e with
  | None => None
  | Some (effs, inl videoDevices) =>
      Some {| completion := Normal; cameraDevices := videoDevices; effects := effs |}
  | Some (effs, inr _) =>
      Some {| completion := Normal; cameraDevices := [];
              effects := effs ++ [Notify camera_error] |}
  end.

(** What makes the hook enumerate: its mount, a [devicechange] event, or a
    call of the [refreshCameras] it returns. *)
Inductive Trigger := Mount | DeviceChange | RefreshCameras.

(** All three call [getCameras]. *)
Definition on_trigger (t : Trigger) (fuel : nat) (e : Env)
    (devices : list Media.Device) : option Run :=
  match t with
  | Mount => getCameras fuel e devices
  | DeviceChange => getCameras fuel e devices
  | RefreshCameras => getCameras fuel e devices
  end.

Definition notifications (effs : list Effect) : list Toast :=
  omap (fun x => match x with Notify t => Some t | _ => None end) effs.

Definition is_probe (x : Effect) : bool :=
  match x with GetUserMedia => true | _ => false end.

Definition probes (effs : list Effect) : nat :=
  length (filter (fun x => is_probe x = true) effs).

Definition waits (effs : list Effect) : list Z :=
  omap (fun x => match x with Wait ms => Some ms | _ => None end) effs.

(** The enumeration fails: the probe is rejected five times in a row, or
    [enumerateDevices] rejects, or it lists no video input. *)
Definition probe_exhausted (e : Env) : Prop :=
  forall k, (k < MAX_PERMISSION_ATTEMPTS)%nat -> is_Some (probe e k).

Definition no_video_input (e : Env) : Prop :=
  match enumerate e with
  | inl devices => filter (fun d => videoinput d = true) devices = []
  | inr _ => True
  end.

(** [err] is the error of the last probe the loop can make. *)
Definition probe_last_error (e : Env) (err : Http.Thrown) : Prop :=
  probe e (pred MAX_PERMISSION_ATTEMPTS) = Some err.

(** An environment in which an enumeration succeeds with the video inputs
    [found]: a probe among the first five is granted and the platform lists
    at least one video input. *)
Definition healthy (e : Env) (found : list Media.Device) : Prop :=
  (exists k, (k < MAX_PERMISSION_ATTEMPTS)%nat /\ probe e k = None) /\
  (exists listed, enumerate e = inl listed /\
                  filter (fun d => videoinput d = true) listed = found) /\
  found <> [].

(** The first probe that is granted is the [k]-th (counted from 0). *)
Definition first_grant (e : Env) (k : nat) : Prop :=
  probe e k = None /\ forall j, (j < k)%nat -> is_Some (probe e j).

(** [n] rejected probes, each followed by the wait. *)
Definition rejected_probes (n : nat) : list Effect :=
  concat (replicate n [GetUserMedia; Wait 3000]).

Definition enumerates (effs : list Effect) : bool :=
  existsb (fun x => match x with EnumerateDevices => true | _ => false end) effs.

(** *** The streams the hook keeps *)

(** The [cameraStreams] state cell; the value of it that the cleanup of the
    hook's current effect run closed over; the streams whose tracks are
    live; and how often the effect has called [getCameras]. *)
Record Streams := mkStreams {
  cameraStreams : gmap string nat;
  closed_over : gmap string nat;
  live : gset nat;
  enumerations : nat
}.

Definition connected_toast (deviceId : string) : Toast :=
  {| title := "Camera Connected";
     description := "Successfully connected to camera with deviceId "
                    +:+ deviceId +:+ " in Camera Setup";
     variant := Default |}.

(** [handleStreamCapture(deviceId, stream)]: the state updater stops the
    stream kept for the device, if any, and keeps the new one; a toast is
    shown. *)
Definition handleStreamCapture (deviceId : string) (stream : nat) (h : Streams)
  : Streams * list Toast :=
  ({| cameraStreams := <[deviceId := stream]> (cameraStreams h);
      closed_over := closed_over h;
      live := match cameraStreams h !! deviceId with
              | Some oldStream => live h ∖ {[oldStream]}
              | None => live h
              end;
      enumerations := enumerations h |},
   [connected_toast deviceId]).

(** The streams a map keeps, [Object.values(cameraStreams)]. *)
Definition kept (m : gmap string nat) : gset nat :=
  list_to_set (map_to_list m).*2.

(** The hook's effect depends on [cameraStreams], and the updater returns a
    new object each time: once React has committed the update it runs the
    cleanup of the previous effect run, which stops every stream of the map
    that run closed over, and then the effect again, which calls
    [getCameras]. *)
Definition commit (h : Streams) : Streams :=
  {| cameraStreams := cameraStreams h;
     closed_over := cameraStreams h;
     live := live h ∖ kept (closed_over h);
     enumerations := S (enumerations h) |}.

(** A stream is reported to the hook and the update is committed. *)
Definition register (deviceId : string) (stream : nat) (h : Streams) : Streams :=
  commit (handleStreamCapture deviceId stream h).1.

End Registry.

(** ** The camera view of one slot ([components/CameraView.tsx]) *)

Module CameraView.

Definition MAX_RETRIES : nat := 7.

(** The variables one run of the effect closes over: the [deviceId] prop of
    that render, [mounted], [retryTimeout], [retryCount].  [attempts] is
    not in the source: it counts how often this run entered the [try]
    block of [initCamera]. *)
Record Instance := mkInstance {
  deviceId : option string;
  mounted : bool;
  retryTimeout : option nat;
  retryCount : nat;
  attempts : nat
}.

(** A pending [setTimeout(initCamera, delay)] of the run [owner]. *)
Record Timer := mkTimer {
  handle : nat;
  owner : nat;
  delay : Z
}.

(** Where a call of [initCamera] is suspended: at [getUserMedia], at the
    metadata promise, or at [play()], the last two with the stream held. *)
Inductive Phase := AwaitStream | AwaitMetadata (s : nat) | AwaitPlay (s : nat).

(** A suspended call of [initCamera], made by the run [caller]. *)
Record Flight := mkFlight {
  caller : nat;
  phase : Phase
}.

Inductive Effect :=
| GetUserMedia (run : nat) (device : string)
| OnStream (s : nat)
| Notify (t : Toast).

(** The component: the effect runs so far (the last one is the current
    one), the three refs, the two state cells, and the platform's side:
    pending timers, suspended calls, the streams whose tracks are live.
    [videoRef] is [None] when no video element is attached to the ref and
    [Some o] when one is, [o] being its [srcObject]. *)
Record State := mkState {
  supported : bool;
  instances : list Instance;
  streamRef : option nat;
  initializingRef : bool;
  videoRef : option (option nat);
  isInitializing : bool;
  hasError : bool;
  timers : list Timer;
  nextHandle : nat;
  flights : list Flight;
  live : list nat;
  nextStream : nat;
  log : list Effect
}.

(** The component before its first effect; [sup] tells whether
    [navigator.mediaDevices.getUserMedia] exists. *)
Definition initial (sup : bool) : State :=
  {| supported := sup; instances := []; streamRef := None;
     initializingRef := false; videoRef := Some None;
     isInitializing := true; hasError := false;
     timers := []; nextHandle := 0; flights := [];
     live := []; nextStream := 0; log := [] |}.

Definition set_instances (v : list Instance) (st : State) : State :=
  {| supported := supported st;
     instances := v;
     streamRef := streamRef st;
     initializingRef := initializingRef st;
     videoRef := videoRef st;
     isInitializing := isInitializing st;
     hasError := hasError st;
     timers := timers st;
     nextHandle := nextHandle st;
     flights := flights st;
     live := live st;
     nextStream := nextStream st;
     log := log st |}.

Definition set_streamRef (v : option nat) (st : State) : State :=
  {| supported := supported st;
     instances := instances st;
     streamRef := v;
     initializingRef := initializingRef st;
     videoRef := videoRef st;
     isInitializing := isInitializing st;
     hasError := hasError st;
     timers := timers st;
     nextHandle := nextHandle st;
     flights := flights st;
     live := live st;
     nextStream := nextStream st;
     log := log st |}.

Definition set_initializingRef (v : bool) (st : State) : State :=
  {| supported := supported st;
     instances := instances st;
     streamRef := streamRef st;
     initializingRef := v;
     videoRef := videoRef st;
     isInitializing := isInitializing st;
     hasError := hasError st;
     timers := timers st;
     nextHandle := nextHandle st;
     flights := flights st;
     live := live st;
     nextStream := nextStream st;
     log := log st |}.

Definition set_videoRef (v : option (option nat)) (st : State) : State :=
  {| supported := supported st;
     instances := instances st;
     streamRef := streamRef st;
     initializingRef := initializingRef st;
     videoRef := v;
     isInitializing := isInitializing st;
     hasError := hasError st;
     timers := timers st;
     nextHandle := nextHandle st;
     flights := flights st;
     live := live st;
     nextStream := nextStream st;
     log := log st |}.

Definition set_isInitializing (v : bool) (st : State) : State :=
  {| supported := supported st;
     instances := instances st;
     streamRef := streamRef st;
     initializingRef := initializingRef st;
     videoRef := videoRef st;
     isInitializing := v;
     hasError := hasError st;
     timers := timers st;
     nextHandle := nextHandle st;
     flights := flights st;
     live := live st;
     nextStream := nextStream st;
     log := log st |}.

Definition set_hasError (v : bool) (st : State) : State :=
  {| supported := supported st;
     instances := instances st;
     streamRef := streamRef st;
     initializingRef := initializingRef st;
     videoRef := videoRef st;
     isInitializing := isInitializing st;
     hasError := v;
     timers := timers st;
     nextHandle := nextHandle st;
     flights := flights st;
     live := live st;
     nextStream := nextStream st;
     log := log st |}.

Definition set_timers (v : list Timer) (st : State) : State :=
  {| supported := supported st;
     instances := instances st;
     streamRef := streamRef st;
     initializingRef := initializingRef st;
     videoRef := videoRef st;
     isInitializing := isInitializing st;
     hasError := hasError st;
     timers := v;
     nextHandle := nextHandle st;
     flights := flights st;
     live := live st;
     nextStream := nextStream st;
     log := log st |}.

Definition set_nextHandle (v : nat) (st : State) : State :=
  {| supported := supported st;
     instances := instances st;
     streamRef := streamRef st;
     initializingRef := initializingRef st;
     videoRef := videoRef st;
     isInitializing := isInitializing st;
     hasError := hasError st;
     timers := timers st;
     nextHandle := v;
     flights := flights st;
     live := live st;
     nextStream := nextStream st;
     log := log st |}.

Definition set_flights (v : list Flight) (st : State) : State :=
  {| supported := supported st;
     instances := instances st;
     streamRef := streamRef st;
     initializingRef := initializingRef st;
     videoRef := videoRef st;
     isInitializing := isInitializing st;
     hasError := hasError st;
     timers := timers st;
     nextHandle := nextHandle st;
     flights := v;
     live := live st;
     nextStream := nextStream st;
     log := log st |}.

Definition set_live (v : list nat) (st : State) : State :=
  {| supported := supported st;
     instances := instances st;
     streamRef := streamRef st;
     initializingRef := initializingRef st;
     videoRef := videoRef st;
     isInitializing := isInitializing st;
     hasError := hasError st;
     timers := timers st;
     nextHandle := nextHandle st;
     flights := flights st;
     live := v;
     nextStream := nextStream st;
     log := log st |}.

Definition set_nextStream (v : nat) (st : State) : State :=
  {| supported := supported st;
     instances := instances st;
     streamRef := streamRef st;
     initializingRef := initializingRef st;
     videoRef := videoRef st;
     isInitializing := isInitializing st;
     hasError := hasError st;
     timers := timers st;
     nextHandle := nextHandle st;
     flights := flights st;
     live := live st;
     nextStream := v;
     log := log st |}.

Definition set_log (v : list Effect) (st : State) : State :=
  {| supported := supported st;
     instances := instances st;
     streamRef := streamRef st;
     initializingRef := initializingRef st;
     videoRef := videoRef st;
     isInitializing := isInitializing st;
     hasError := hasError st;
     timers := timers st;
     nextHandle := nextHandle st;
     flights := flights st;
     live := live st;
     nextStream := nextStream st;
     log := v |}.

Definition update_instance (g : nat) (f : Instance -> Instance) (st : State)
  : State :=
  set_instances (alter f g (instances st)) st.

Definition emit (x : Effect) (st : State) : State :=
  set_log (log st ++ [x]) st.

(** [stream.getTracks().forEach(track => track.stop())] *)
Definition stop_tracks (s : nat) (st : State) : State :=
  set_live (filter (fun x => x <> s) (live st)) st.

(** [clearTimeout(h)] *)
Definition clearTimeout (h : nat) (st : State) : State :=
  set_timers (filter (fun t => handle t <> h) (timers st)) st.

(** [if (streamRef.current) { stop its tracks; streamRef.current = null }] *)
Definition release_stream (st : State) : State :=
  match streamRef st with
  | Some s => set_streamRef None (stop_tracks s st)
  | None => st
  end.

(** [if (videoRef.current) videoRef.current.srcObject = null] *)
Definition detach_sink (st : State) : State :=
  match videoRef st with
  | Some _ => set_videoRef (Some None) st
  | None => st
  end.

Definition is_mounted (st : State) (g : nat) : bool :=
  match instances st !! g with
  | Some i => mounted i
  | None => false
  end.

(** The current run of the effect, if it has not been cleaned up. *)
Definition current (st : State) : option nat :=
  let g := pred (length (instances st)) in
  if is_mounted st g then Some g else None.

(** The cleanup function the effect run [g] returned. *)
Definition cleanup (g : nat) (st : State) : State :=
  let st1 := update_instance g
               (fun i => {| deviceId := deviceId i; mounted := false;
                            retryTimeout := retryTimeout i;
                            retryCount := retryCount i;
                            attempts := attempts i |}) st in
  let st2 := match instances st !! g with
             | Some i => match retryTimeout i with
                         | Some h => clearTimeout h st1
                         | None => st1
                         end
             | None => st1
             end in
  detach_sink (release_stream st2).

Definition cleanup_current (st : State) : State :=
  match current st with
  | Some g => cleanup g st
  | None => st
  end.

(** [error.message || 'Unknown error'] *)
Definition message_of (err : Http.Thrown) : string :=
  match err with
  | Http.Err m => Http.str_or (Some m) "Unknown error"
  | Http.NotAnError => "Unknown error"
  end.

Definition show_device (d : option string) : string := default "undefined" d.

Definition error_toast (d : option string) (err : Http.Thrown) : Toast :=
  {| title := "Camera Error";
     description := "Failed to initialize camera " +:+ show_device d
                    +:+ " after " +:+ pretty MAX_RETRIES +:+ " attempts: "
                    +:+ message_of err;
     variant := Destructive |}.

Definition connected_toast (d : option string) : Toast :=
  {| title := "Camera Connected";
     description := "Successfully connected to camera " +:+ show_device d
                    +:+ " in Camera Setup";
     variant := Default |}.

(** The [catch] block of [initCamera], in the run [g]. *)
Definition catch_block (g : nat) (err : Http.Thrown) (st : State) : State :=
  match instances st !! g with
  | Some i =>
      if mounted i then
        if (retryCount i <? MAX_RETRIES)%nat then
          let h := nextHandle st in
          set_nextHandle (S h)
            (set_timers (timers st ++ [{| handle := h; owner := g; delay := 3000 |}])
               (update_instance g
                  (fun i => {| deviceId := deviceId i; mounted := mounted i;
                               retryTimeout := Some h;
                               retryCount := S (retryCount i);
                               attempts := attempts i |}) st))
        else
          emit (Notify (error_toast (deviceId i) err))
            (set_isInitializing false (set_hasError true st))
      else st
  | None => st
  end.

(** The [finally] block of [initCamera]. *)
Definition finally_block (st : State) : State := set_initializingRef false st.

(** [initCamera()] called in the run [g], up to its first suspension. *)
Definition initCamera (g : nat) (st : State) : State :=
  match instances st !! g with
  | Some i =>
      match deviceId i with
      | None => st
      | Some d =>
          if bool_decide (d = EmptyString) || initializingRef st then st
          else
            let st1 := update_instance g
                         (fun i => {| deviceId := deviceId i; mounted := mounted i;
                                      retryTimeout := retryTimeout i;
                                      retryCount := retryCount i;
                                      attempts := S (attempts i) |})
                         (set_initializingRef true st) in
            if negb (supported st) then
              finally_block
                (catch_block g (Http.Err "getUserMedia is not supported") st1)
            else
              let st2 := detach_sink (release_stream st1) in
              set_flights (flights st2 ++ [{| caller := g; phase := AwaitStream |}])
                (emit (GetUserMedia g d) st2)
      end
  | None => st
  end.

(** The success branch after [play()]: runs only if still mounted. *)
Definition connected (g : nat) (s : nat) (st : State) : State :=
  match instances st !! g with
  | Some i =>
      if mounted i then
        emit (Notify (connected_toast (deviceId i)))
          (emit (OnStream s)
             (update_instance g
                (fun i => {| deviceId := deviceId i; mounted := mounted i;
                             retryTimeout := retryTimeout i;
                             retryCount := 0;
                             attempts := attempts i |})
                (set_hasError false (set_isInitializing false st))))
      else st
  | None => st
  end.

(** The suspended call at position [k] resumes: the promise it awaits
    resolved ([None]) or rejected ([Some err]). *)
Definition settle (k : nat) (r : option Http.Thrown) (st : State) : State :=
  match flights st !! k with
  | None => st
  | Some f =>
      let g := caller f in
      let ended := set_flights (delete k (flights st)) st in
      match r with
      | Some err => finally_block (catch_block g err ended)
      | None =>
          match phase f with
          | AwaitStream =>
              let s := nextStream st in
              let got := set_nextStream (S s) (set_live (live st ++ [s]) st) in
              if negb (is_mounted st g) then
                finally_block
                  (stop_tracks s (set_flights (delete k (flights st)) got))
              else
                let held := set_streamRef (Some s) got in
                match videoRef st with
                | Some _ =>
                    set_flights
                      (<[k := {| caller := g; phase := AwaitMetadata s |}]>
                         (flights st))
                      (set_videoRef (Some (Some s)) held)
                | None =>
                    finally_block (set_flights (delete k (flights st)) held)
                end
          | AwaitMetadata s =>
              match videoRef st with
              | Some _ =>
                  set_flights
                    (<[k := {| caller := g; phase := AwaitPlay s |}]> (flights st))
                    st
              | None =>
                  finally_block
                    (catch_block g
                       (Http.Err "Cannot read properties of null (reading 'play')")
                       ended)
              end
          | AwaitPlay s => finally_block (connected g s ended)
          end
      end
  end.

(** React runs the effect with the [deviceId] of the render: the closure
    variables are created and [setTimeout(initCamera, 2500)] is called; its
    handle is not kept. *)
Definition run_effect (d : option string) (st : State) : State :=
  let g := length (instances st) in
  let h := nextHandle st in
  set_nextHandle (S h)
    (set_timers (timers st ++ [{| handle := h; owner := g; delay := 2500 |}])
       (set_instances
          (instances st ++ [{| deviceId := d; mounted := true;
                               retryTimeout := None; retryCount := 0;
                               attempts := 0 |}])
          st)).

Inductive Event :=
| RunEffect (d : option string)
    (* mount, or a dependency changed: the previous cleanup runs first *)
| Unmount
| TimerFires (h : nat)
| Settles (k : nat) (r : option Http.Thrown)
| VideoElement (present : bool)
    (* React attaches a fresh video element to the ref, or detaches it *)
| TracksEnd (s : nat).
    (* the platform or another holder of the stream ends its tracks *)

Definition step (ev : Event) (st : State) : State :=
  match ev with
  | RunEffect d => run_effect d (cleanup_current st)
  | Unmount => cleanup_current st
  | TimerFires h =>
      match find (fun t => bool_decide (handle t = h)) (timers st) with
      | Some t => initCamera (owner t) (clearTimeout h st)
      | None => st
      end
  | Settles k r => settle k r st
  | VideoElement true =>
      match videoRef st with
      | None => set_videoRef (Some None) st
      | Some _ => st
      end
  | VideoElement false => set_videoRef None st
  | TracksEnd s => stop_tracks s st
  end.

Definition run (evs : list Event) (st : State) : State :=
  foldl (fun s ev => step ev s) st evs.

(** ** Properties of a state *)

(** At most one stream is live, and it is the one the slot holds. *)
Definition one_live_stream (st : State) : Prop :=
  (length (live st) <= 1)%nat /\
  forall s, s ∈ live st -> streamRef st = Some s.

(** Nothing is attached to the sink. *)
Definition sink_empty (st : State) : Prop :=
  videoRef st = None \/ videoRef st = Some None.

(** The call at position [k], made by the run [g], awaits its stream. *)
Definition awaiting_stream (st : State) (k g : nat) : Prop :=
  flights st !! k = Some {| caller := g; phase := AwaitStream |}.

(** The streams the slot holds live: none, or the one in [streamRef]. *)
Definition held (st : State) : Prop :=
  live st = [] \/ exists s, live st = [s] /\ streamRef st = Some s.

(** At most one call of [initCamera] is suspended, [initializingRef] tells
    whether one is, and while it awaits its stream the slot holds no stream
    and the sink is empty. *)
Definition single_flight (st : State) : Prop :=
  match flights st with
  | [] => initializingRef st = false
  | [f] => initializingRef st = true /\
           (phase f = AwaitStream -> streamRef st = None /\ sink_empty st)
  | _ => False
  end.

(** The number of pending timers, and of suspended calls, of the run [g]. *)
Definition pending_timers (st : State) (g : nat) : nat :=
  length (filter (fun t => owner t = g) (timers st)).

Definition pending_calls (st : State) (g : nat) : nat :=
  length (filter (fun f => caller f = g) (flights st)).

(** The books of one run with [p] pending timers and [f] suspended calls:
    it has retried at most [MAX_RETRIES] times, and either it is at rest
    after at most [MAX_RETRIES + 1] attempts, or it has one timer or one
    call outstanding and its attempts are covered by its retries. *)
Definition accounted (i : Instance) (p f : nat) : Prop :=
  (retryCount i <= MAX_RETRIES)%nat /\
  ((p = 0 /\ f = 0 /\ attempts i <= S MAX_RETRIES)%nat \/
   (attempts i + p <= retryCount i + 1 /\ p + f <= 1)%nat).

(** The books when a call of the run [g] resumes, the call itself taken
    off the list: no other call is suspended, the run [g] has no timer
    pending and its attempts exceed its retries by at most one. *)
Definition resumed (st : State) (g : nat) : Prop :=
  flights st = [] /\
  forall g',
    match instances st !! g' with
    | Some i =>
        if decide (g' = g) then
          (retryCount i <= MAX_RETRIES /\ pending_timers st g' = 0 /\
           attempts i <= retryCount i + 1)%nat
        else accounted i (pending_timers st g') 0
    | None => pending_timers st g' = 0%nat
    end.

Definition bounded (st : State) : Prop :=
  forall g,
    match instances st !! g with
    | Some i => accounted i (pending_timers st g) (pending_calls st g)
    | None => pending_timers st g = 0%nat /\ pending_calls st g = 0%nat
    end.

(** What the component lets its user see: the toasts and the streams handed
    to [onStream]; the requests to the platform are not among them. *)
Definition is_output (x : Effect) : bool :=
  match x with
  | GetUserMedia _ _ => false
  | OnStream _ | Notify _ => true
  end.

Definition outputs (st : State) : list Effect :=
  filter (fun x => is_output x = true) (log st).

(** Which runs of the effect are mounted, in order. *)
Definition mounted_runs (st : State) : list bool := mounted <$> instances st.

(** Only the last run of the effect can be mounted. *)
Definition last_only (st : State) : Prop :=
  forall g, is_mounted st g = true -> g = pred (length (instances st)).

(** The slot holds no stream and none is live. *)
Definition at_rest (st : State) : Prop :=
  live st = [] /\ streamRef st = None.

(** No run of the effect is mounted and the slot is at rest. *)
Definition torn_down (st : State) : Prop :=
  (forall g, is_mounted st g = false) /\ at_rest st.

Definition is_run_effect (ev : Event) : bool :=
  match ev with RunEffect _ => true | _ => false end.

(** The run [g] has neither a timer pending nor a call suspended. *)
Definition dormant (st : State) (g : nat) : Prop :=
  pending_timers st g = 0%nat /\ pending_calls st g = 0%nat.

(** How often the run [g] has attempted the acquisition. *)
Definition attempts_of (st : State) (g : nat) : nat :=
  match instances st !! g with
  | Some i => attempts i
  | None => 0
  end.

(** The run [g] is the only one that may be mounted, and nothing is left
    that would call its [initCamera]. *)
Definition starved (st : State) (g : nat) : Prop :=
  dormant st g /\ forall g', g' <> g -> is_mounted st g' = false.

(** What the user of the view sees, and how often the run [g] tried, are
    in [st'] as in [st]. *)
Definition same_view (g : nat) (st st' : State) : Prop :=
  outputs st' = outputs st /\ isInitializing st' = isInitializing st /\
  hasError st' = hasError st /\ attempts_of st' g = attempts_of st g.

End CameraView.

(** ** The training data collection ([components/YoloTraining.tsx]) *)

Module Yolo.

(** The component's [useState] cells. *)
Record State := mkState {
  captures : list (list string);
  activeCamera : nat;
  isCapturing : bool
}.

Definition initial : State :=
  {| captures := [[]; []; []]; activeCamera := 0; isCapturing := false |}.

Definition set_captures (c : list (list string)) (st : State) : State :=
  {| captures := c; activeCamera := activeCamera st;
     isCapturing := isCapturing st |}.

Definition set_isCapturing (b : bool) (st : State) : State :=
  {| captures := captures st; activeCamera := activeCamera st;
     isCapturing := b |}.

Definition set_activeCamera (i : nat) (st : State) : State :=
  {| captures := captures st; activeCamera := i;
     isCapturing := isCapturing st |}.

(** The page during one capture: which video and canvas elements are
    attached to their refs, whether the canvas gives a 2d context, and what
    drawing the frame and [toDataURL] give: the data URL, or the value they
    throw. *)
Record Env := mkEnv {
  video : nat -> bool;
  canvas : nat -> bool;
  context : bool;
  image : Http.Thrown + string
}.

(** [refs[cameraIndex]?.current]: [videoRefs] and [canvasRefs] have three
    entries. *)
Definition element (attached : nat -> bool) (i : nat) : bool :=
  (i <? 3)%nat && attached i.

(** What one call leaves: the state, [None] when the updater passed to
    [setCaptures] throws, and the toasts shown. *)
Record Run := mkRun {
  state : option State;
  toasts : list Toast
}.

(** [prev => { const n = [...prev]; n[i] = [...n[i], imageData]; return n }]:
    spreading a slot that is not there throws. *)
Definition append_image (i : nat) (img : string) (prev : list (list string))
  : option (list (list string)) :=
  match prev !! i with
  | Some l => Some (<[i := l ++ [img]]> prev)
  | None => None
  end.

(** [l.filter((_, index) => keep(index))], the first index being [j]. *)
Fixpoint filter_index (keep : nat -> bool) (j : nat) (l : list string)
  : list string :=
  match l with
  | [] => []
  | x :: l =>
      if keep j then x :: filter_index keep (S j) l
      else filter_index keep (S j) l
  end.

(** [prev => { const n = [...prev];
               n[i] = n[i].filter((_, index) => index !== k); return n }]:
    calling [filter] on a slot that is not there throws. *)
Definition remove_image (i k : nat) (prev : list (list string))
  : option (list (list string)) :=
  match prev !! i with
  | Some l =>
      Some (<[i := filter_index (fun index => negb (index =? k)%nat) 0 l]> prev)
  | None => None
  end.

Definition capture_error : Toast :=
  {| title := "Capture Error";
     description := "Could not access camera or canvas element";
     variant := Destructive |}.

Definition image_captured (i : nat) : Toast :=
  {| title := "Image Captured";
     description := "Successfully captured image from Camera "
                    +:+ pretty (i + 1)%nat;
     variant := Default |}.

Definition capture_failed (err : Http.Thrown) : Toast :=
  {| title := "Capture Failed";
     description := Http.message_or err "Unknown error occurred";
     variant := Destructive |}.

Definition image_deleted (i k : nat) : Toast :=
  {| title := "Image Deleted";
     description := "Deleted image " +:+ pretty (k + 1)%nat
                    +:+ " from Camera " +:+ pretty (i + 1)%nat;
     variant := Default |}.

(** The body of the [try] block up to [toDataURL]. *)
Definition grab (e : Env) : Http.Thrown + string :=
  if context e then image e
  else inl (Http.Err "Failed to get canvas context").

(** [captureImage(cameraIndex)] *)
Definition captureImage (e : Env) (i : nat) (st : State) : Run :=
  if negb (element (video e) i) || negb (element (canvas e) i) then
    {| state := Some (set_isCapturing false st); toasts := [capture_error] |}
  else
    match grab e with
    | inr img =>
        {| state := match append_image i img (captures st) with
                    | Some c => Some (set_isCapturing false (set_captures c st))
                    | None => None
                    end;
           toasts := [image_captured i] |}
    | inl err =>
        {| state := Some (set_isCapturing false st);
           toasts := [capture_failed err] |}
    end.

(** [deleteCapture(cameraIndex, captureIndex)] *)
Definition deleteCapture (i k : nat) (st : State) : Run :=
  {| state := match remove_image i k (captures st) with
              | Some c => Some (set_captures c st)
              | None => None
              end;
     toasts := [image_deleted i k] |}.

(** [captures.flat().length] *)
Definition totalImages (st : State) : nat := length (concat (captures st)).

(** [exportCaptures()]: it shows one toast and sets no state. *)
Definition exportCaptures (st : State) : list Toast :=
  if (totalImages st =? 0)%nat then
    [{| title := "Export Failed"; description := "No images to export";
        variant := Destructive |}]
  else
    [{| title := "Export Successful";
        description := "Exported " +:+ pretty (totalImages st)
                       +:+ " images for YOLOv8 training";
        variant := Default |}].

(** The [disabled] attribute of the export button. *)
Definition export_disabled (st : State) : bool := (totalImages st =? 0)%nat.

(** The frame a capture stores, if it stores one. *)
Definition taken (e : Env) (i : nat) : option string :=
  if element (video e) i && element (canvas e) i then
    match grab e with
    | inr img => Some img
    | inl _ => None
    end
  else None.

(** What the user does: the capture button of a camera, the delete button
    of an image, the export button, a click on a camera's tile. *)
Inductive Action :=
| Capture (e : Env) (i : nat)
| Delete (i k : nat)
| Export
| Select (i : nat).

(** The camera an action names; the buttons are rendered for 0, 1 and 2. *)
Definition camera (a : Action) : nat :=
  match a with
  | Capture _ i | Delete i _ | Select i => i
  | Export => 0
  end.

Definition act (a : Action) (st : State) : Run :=
  match a with
  | Capture e i => captureImage e i st
  | Delete i k => deleteCapture i k st
  | Export => {| state := Some st; toasts := exportCaptures st |}
  | Select i => {| state := Some (set_activeCamera i st); toasts := [] |}
  end.

(** A session: once an updater has thrown the component is gone. *)
Definition acts (l : list Action) (st : State) : Run :=
  foldl (fun r a =>
           match state r with
           | Some s => {| state := state (act a s);
                          toasts := toasts r ++ toasts (act a s) |}
           | None => r
           end)
        {| state := Some st; toasts := [] |} l.

(** The images stored for the camera [i]. *)
Definition slot (st : State) (i : nat) : list string :=
  default [] (captures st !! i).

End Yolo.

(** ** Sample inputs *)

Module Sample.

Definition camA : Media.Device :=
  {| Media.deviceId := "camA"; Media.kind := "videoinput"; Media.label := "A" |}.
Definition camB : Media.Device :=
  {| Media.deviceId := "camB"; Media.kind := "videoinput"; Media.label := "B" |}.
Definition camC : Media.Device :=
  {| Media.deviceId := "camC"; Media.kind := "videoinput"; Media.label := "C" |}.
Definition microphone : Media.Device :=
  {| Media.deviceId := "mic"; Media.kind := "audioinput"; Media.label := "M" |}.

Definition devices : list Media.Device := [camA; camB; camC].

(** The page with slot 0 at [n] captures and the others at 0. *)
Definition page (n : Z) : Index.State :=
  {| Index.currentStep := 1; Index.currentCamera := 0;
     Index.captureCounts := [Js.Num n; Js.Num 0; Js.Num 0];
     Index.isCapturing := false |}.

Definition ready : Intrinsic.Local :=
  {| Intrinsic.isCapturing := false; Intrinsic.streamReady := true |}.

(** A backend answer reporting [n] marker ids. *)
Definition found (n : nat) : Service.DetectBody :=
  {| Service.body_success := true; Service.body_detected := true;
     Service.body_message := None;
     Service.body_markers :=
       Some {| Service.corners := None;
               Service.ids := Some (replicate n 7) |} |}.

Definition not_found : Service.DetectBody :=
  {| Service.body_success := true; Service.body_detected := false;
     Service.body_message := Some "No markers";
     Service.body_markers := None |}.

Definition shot (b : Service.DetectBody) : Intrinsic.Env :=
  {| Intrinsic.video := true; Intrinsic.canvas := true;
     Intrinsic.context := true; Intrinsic.data_url := "data:image/jpeg;base64,AA";
     Intrinsic.outcome := Http.Response 200 b |}.

Definition url : Service.UrlEnv :=
  {| Service.window_env_url := None; Service.process_env_url := None |}.

Definition seen (n : nat) : Service.DetectEnv :=
  {| Service.canvas_context := true;
     Service.data_url := "data:image/jpeg;base64,AA";
     Service.detect_outcome := Http.Response 200 (found n) |}.

Definition ack : Service.AckBody :=
  {| Service.ack_success := true; Service.ack_message := None |}.

Definition unreachable : Http.Outcome Service.AckBody :=
  Http.FetchRejects (Http.Err "Failed to fetch").

(** All three cameras see four markers; [start] is what the start request
    meets. *)
Definition rig_all (start : Http.Outcome Service.AckBody) : Extrinsic.Env :=
  {| Extrinsic.grab := fun _ => Extrinsic.Frame;
     Extrinsic.detection := fun _ => seen 4;
     Extrinsic.start_outcome := start |}.

(** Camera 2 sees only one marker. *)
Definition rig_two_of_three : Extrinsic.Env :=
  {| Extrinsic.grab := fun _ => Extrinsic.Frame;
     Extrinsic.detection := fun i => if (i =? 2)%nat then seen 1 else seen 4;
     Extrinsic.start_outcome := Http.Response 200 ack |}.

Definition denied : Http.Thrown := Http.Err "Permission denied".

(** The view mounts for [camA], its first call of [initCamera] asks for the
    stream, and the view unmounts before the stream arrives. *)
Definition torn_down : list CameraView.Event :=
  [CameraView.RunEffect (Some "camA"); CameraView.TimerFires 0;
   CameraView.Unmount].

(** One failed attempt: the pending timer [h] fires and the stream request
    is rejected. *)
Definition failed_attempt (h : nat) : list CameraView.Event :=
  [CameraView.TimerFires h; CameraView.Settles 0 (Some denied)].

(** The view mounts for [camA]; two attempts fail and the third gets its
    stream, the metadata and the playback. *)
Definition third_time_lucky : list CameraView.Event :=
  CameraView.RunEffect (Some "camA")
  :: failed_attempt 0 ++ failed_attempt 1
  ++ [CameraView.TimerFires 2; CameraView.Settles 0 None;
      CameraView.Settles 0 None; CameraView.Settles 0 None].

(** Fifteen confirmed captures on slot 1 after switching to it. *)
Fixpoint captures (n : nat) (st : Index.State) : Index.State :=
  match n with
  | O => st
  | S n' =>
      captures n'
        (Intrinsic.parent
           (IntrinsicStep.click devices 1 ready (shot (found 4)) st))
  end.

(** The view mounts for [camA] and every attempt fails: the first one and
    seven retries. *)
Definition all_fail : list CameraView.Event :=
  CameraView.RunEffect (Some "camA")
  :: concat (map failed_attempt [0; 1; 2; 3; 4; 5; 6; 7]%nat).

(** The probe is always rejected. *)
Definition locked : Registry.Env :=
  {| Registry.probe := fun _ => Some denied;
     Registry.enumerate := inl devices |}.

(** The probe is granted; one camera is plugged in. *)
Definition plugged : Registry.Env :=
  {| Registry.probe := fun _ => None;
     Registry.enumerate := inl [microphone; camA] |}.

(** A job is started and its interval has ticked once. *)
Definition polling : list Service.Event :=
  [Service.CallStart [0; 1; 2]%nat (Http.Response 200 ack); Service.Tick 0].

Definition progress_at (n : Z) : Http.Outcome Service.ProgressBody :=
  Http.Response 200
    {| Service.is_running := true; Service.body_progress := Js.Num n;
       Service.progress_message := None |}.

(** Cameras 0 and 2 give frames with four markers; camera 1 has no video
    element. *)
Definition rig_without_second : Extrinsic.Env :=
  {| Extrinsic.grab :=
       fun i => if (i =? 1)%nat then Extrinsic.NoVideo else Extrinsic.Frame;
     Extrinsic.detection := fun _ => seen 4;
     Extrinsic.start_outcome := Http.Response 200 ack |}.

(** The probe is rejected twice and granted the third time. *)
Definition granted_third : Registry.Env :=
  {| Registry.probe := fun k => if (k <? 2)%nat then Some denied else None;
     Registry.enumerate := inl [microphone; camA; camB] |}.

(** The hook before any stream was reported; streams 0 and 1 are live. *)
Definition no_streams : Registry.Streams :=
  {| Registry.cameraStreams := ∅; Registry.closed_over := ∅;
     Registry.live := {[0%nat; 1%nat]}; Registry.enumerations := 1 |}.

(** An ok progress answer that carries no [progress] field. *)
Definition progress_missing : Http.Outcome Service.ProgressBody :=
  Http.Response 200
    {| Service.is_running := true; Service.body_progress := Js.Undef;
       Service.progress_message := None |}.

(** All three cameras attached; the frame is grabbed as [img]. *)
Definition studio (img : string) : Yolo.Env :=
  {| Yolo.video := fun _ => true; Yolo.canvas := fun _ => true;
     Yolo.context := true; Yolo.image := inr img |}.

End Sample.

(* ================================================================== *)
(** * Part II: the properties *)
(* ================================================================== *)

(** ** Arrays *)

Lemma get_set_eq (a : list Js.val) (i : nat) (v : Js.val) :
  Js.get (Js.set a i v) i = v.
Proof.
  unfold Js.get, Js.set. case_decide as Hi.
  - by rewrite list_lookup_insert_eq.
  - rewrite lookup_app_r by lia.
    rewrite lookup_app_r by (rewrite length_replicate; lia).
    rewrite length_replicate.
    by replace (i - length a - (i - length a))%nat with 0%nat by lia.
Qed.

Lemma get_set_ne (a : list Js.val) (i j : nat) (v : Js.val) :
  i <> j -> Js.get (Js.set a i v) j = Js.get a j.
Proof.
  intros Hne. unfold Js.get, Js.set. case_decide as Hi.
  - by rewrite list_lookup_insert_ne.
  - destruct (decide (j < length a)%nat) as [Hj|Hj].
    + by rewrite lookup_app_l.
    + rewrite (lookup_ge_None_2 a j) by lia. simpl.
      rewrite lookup_app_r by lia.
      destruct (decide (j - length a < i - length a)%nat) as [Hlt|Hge].
      * rewrite lookup_app_l by (rewrite length_replicate; lia).
        by rewrite lookup_replicate_2.
      * rewrite lookup_app_r by (rewrite length_replicate; lia).
        rewrite length_replicate.
        rewrite lookup_ge_None_2; [done | simpl; lia].
Qed.

Lemma get_num_in_range (a : list Js.val) (i : nat) (z : Z) :
  Js.get a i = Js.Num z -> (i < length a)%nat /\ a !! i = Some (Js.Num z).
Proof.
  unfold Js.get. destruct (a !! i) as [v|] eqn:E; simpl; [|done].
  intros ->. split; [by eapply lookup_lt_Some | done].
Qed.

Lemma set_same (a : list Js.val) (i : nat) (v : Js.val) :
  a !! i = Some v -> Js.set a i v = a.
Proof.
  intros E. unfold Js.set.
  rewrite decide_True by (by eapply lookup_lt_Some).
  by apply list_insert_id.
Qed.

(** ** C3: switching camera *)

(** C3.  For every slot index [i], [handleCameraSwitch i] makes [i] the
    active slot and sets its counter to 0; the counter of every other slot
    [j] is what it was. *)
Theorem handleCameraSwitch_resets_only_index
    (st : Index.State) (i j : nat) (Hne : j <> i) :
  Index.currentCamera (Index.handleCameraSwitch i st) = i /\
  Index.count (Index.handleCameraSwitch i st) i = Js.Num 0 /\
  Index.count (Index.handleCameraSwitch i st) j = Index.count st j.
Proof.
  unfold Index.count, Index.handleCameraSwitch; simpl.
  split; [done|]. split; [apply get_set_eq | by apply get_set_ne].
Qed.

Lemma handleCameraSwitch_resets_only_index_witness :
  (2 <> 0)%nat /\
  Index.currentCamera (Index.handleCameraSwitch 0 (Sample.page 9)) = 0%nat /\
  Index.count (Index.handleCameraSwitch 0 (Sample.page 9)) 0 = Js.Num 0 /\
  Index.count (Index.handleCameraSwitch 0 (Sample.page 9)) 2
  = Index.count (Sample.page 9) 2.
Proof.
  split; [lia|].
  apply (handleCameraSwitch_resets_only_index (Sample.page 9) 0 2). lia.
Defined.

(** ** C1: the cap of 15 captures *)

(** C1, as stated, fails.  A capture attempt that reaches [captureAndDetect]
    with the counter at 15 is not rejected: the frame is sent to the
    backend, the increment callback runs and a success toast is shown; the
    counter stays at 15 because [handleCapture] clamps it.  The clamp is
    visible on a counter above the cap, which [handleCapture] lowers to 15
    where a gate would leave it alone. *)
Lemma capture_at_cap_is_clamped_not_rejected :
  Index.count (Sample.page 15) 0 = Js.Num 15 /\
  Intrinsic.effects
    (IntrinsicStep.capture Sample.devices 0 Sample.ready
       (Sample.shot (Sample.found 4)) (Sample.page 15))
  = [Intrinsic.Fetch
       (Service.PostDetectMarkers "http://127.0.0.1:8000/detect_markers"
          "data:image/jpeg;base64,AA" 0 None);
     Intrinsic.Captured;
     Intrinsic.Notify
       {| title := "Success";
          description := "Captured image 15 of 15 for Camera 1";
          variant := Default |}] /\
  Index.captureCounts (Index.handleCapture 0 (Sample.page 16))
  = [Js.Num 15; Js.Num 0; Js.Num 0].
Proof. vm_compute. repeat split. Qed.

(** C1, amended.  [handleCapture i] sets the counter of slot [i] to
    [min (count + 1) 15]: a counter that is at most 15 stays at most 15,
    and at 15 all counters are left as they are.  This is a clamp at the
    increment site; a capture attempt is refused up front only by the
    capture button, which does nothing once the counter has reached 15. *)
Theorem handleCapture_caps_by_clamping
    (st : Index.State) (i : nat) (z : Z)
    (Hz : Index.count st i = Js.Num z) (Hle : z <= 15) :
  Index.count (Index.handleCapture i st) i = Js.Num (Z.min (z + 1) 15) /\
  Js.le (Index.count (Index.handleCapture i st) i) 15 /\
  (z = 15 ->
     Index.captureCounts (Index.handleCapture i st) = Index.captureCounts st) /\
  (z = 15 ->
     forall devices l e,
       IntrinsicStep.click devices i l e st
       = {| Intrinsic.local := l; Intrinsic.parent := st;
            Intrinsic.effects := [] |}).
Proof.
  unfold Index.count in *.
  assert (Hget : Index.count (Index.handleCapture i st) i
                 = Js.Num (Z.min (z + 1) 15)).
  { unfold Index.count, Index.handleCapture; simpl.
    by rewrite get_set_eq, Hz. }
  unfold Index.count in Hget.
  split; [done|]. split; [rewrite Hget; simpl; lia|]. split.
  - intros ->. unfold Index.handleCapture; simpl. rewrite Hz; simpl.
    apply set_same. by apply get_num_in_range in Hz as [_ ?].
  - intros -> devices l e.
    unfold IntrinsicStep.click, Intrinsic.click, Intrinsic.button_disabled.
    unfold IntrinsicStep.props at 2; simpl. unfold Index.count. rewrite Hz.
    simpl. by rewrite !orb_true_r.
Qed.

Lemma handleCapture_caps_by_clamping_witness :
  Index.count (Index.handleCapture 0 (Sample.page 15)) 0
  = Js.Num (Z.min (15 + 1) 15) /\
  Js.le (Index.count (Index.handleCapture 0 (Sample.page 15)) 0) 15 /\
  (15 = 15 ->
     Index.captureCounts (Index.handleCapture 0 (Sample.page 15))
     = Index.captureCounts (Sample.page 15)) /\
  (15 = 15 ->
     forall devices l e,
       IntrinsicStep.click devices 0 l e (Sample.page 15)
       = {| Intrinsic.local := l; Intrinsic.parent := Sample.page 15;
            Intrinsic.effects := [] |}).
Proof.
  apply (handleCapture_caps_by_clamping (Sample.page 15) 0 15);
    [reflexivity | lia].
Defined.

(** ** C8: the counter moves only on a confirmed detection *)

(** C8.  A capture attempt on slot [i] whose backend response does not
    confirm the detection (the fetch or the body fails, the status is not
    ok, or the body does not report [success] and [detected]) leaves the
    page state, and with it every counter, as it was. *)
Theorem capture_counts_only_confirmed_detections
    (devices : list Media.Device) (i : nat) (l : Intrinsic.Local)
    (e : Intrinsic.Env) (st : Index.State)
    (Hno : Intrinsic.confirmed e = false) :
  Intrinsic.parent (IntrinsicStep.capture devices i l e st) = st.
Proof.
  unfold IntrinsicStep.capture, Intrinsic.captureAndDetect, Intrinsic.confirmed in *.
  destruct (_ || _ || _); [done|].
  destruct (_ || _); [done|].
  destruct (negb (Intrinsic.context e)); [done|].
  destruct (Intrinsic.outcome e) as [err|s err|s b]; simpl; [done| |].
  - by destruct (negb (Http.ok s)).
  - destruct (Http.ok s); simpl in *; [|done].
    by rewrite Hno.
Qed.

Lemma capture_counts_only_confirmed_detections_witness :
  Intrinsic.confirmed (Sample.shot Sample.not_found) = false /\
  Intrinsic.parent
    (IntrinsicStep.capture Sample.devices 1 Sample.ready
       (Sample.shot Sample.not_found) (Sample.page 3))
  = Sample.page 3.
Proof.
  split; [reflexivity|].
  apply (capture_counts_only_confirmed_detections
           Sample.devices 1 Sample.ready (Sample.shot Sample.not_found)
           (Sample.page 3)).
  reflexivity.
Defined.

(** ** The requests of the service and of the extrinsic capture *)

Lemma sent_record_sent (rs : list Service.Request) (sv : Service.State) :
  Service.sent (Extrinsic.record_sent rs sv) = Service.sent sv ++ rs.
Proof.
  unfold Extrinsic.record_sent. revert sv.
  induction rs as [|r rs IH]; intros sv; simpl.
  - by rewrite app_nil_r.
  - rewrite IH. simpl. by rewrite <- app_assoc.
Qed.

Lemma sent_startCalibration (u : Service.UrlEnv) (ci : list nat)
    (o : Http.Outcome Service.AckBody) (sv : Service.State) :
  Service.sent (Service.startCalibration u ci o sv).2
  = Service.sent sv
    ++ [Service.PostStartCalibration
          (Service.getCalibrationApiUrl u +:+ "/start_calibration") ci
          (Some Service.config)].
Proof.
  unfold Service.startCalibration.
  destruct o as [err|s err|s b]; simpl; try done.
  by destruct (Http.ok s).
Qed.

Lemma detectMarkers_requests (u : Service.UrlEnv) (e : Service.DetectEnv)
    (i : nat) (r : Service.Request) :
  r ∈ (Service.detectMarkers u e i).2 ->
  r = Service.PostDetectMarkers
        (Service.getCalibrationApiUrl u +:+ "/detect_markers")
        (Service.data_url e) i (Some Service.config).
Proof.
  unfold Service.detectMarkers.
  destruct (negb (Service.canvas_context e)); simpl; [by intros ?%elem_of_nil|].
  destruct (Service.detect_outcome e) as [err|s err|s b]; simpl.
  3: destruct (negb (Http.ok s)); simpl.
  all: by intros ->%list_elem_of_singleton.
Qed.

Lemma detect_requests_are_detections (u : Service.UrlEnv) (e : Extrinsic.Env)
    (r : Service.Request) :
  r ∈ Extrinsic.detect_requests u e ->
  Service.is_detect r = true /\ Service.is_start r = false /\
  Service.request_config r = Some Service.config.
Proof.
  assert (Hone : forall i,
             r ∈ match Extrinsic.detect_one u e i with
                 | inl (_, rs) => rs
                 | inr _ => []
                 end ->
             Service.is_detect r = true /\ Service.is_start r = false /\
             Service.request_config r = Some Service.config).
  { intros i Hr. unfold Extrinsic.detect_one in Hr.
    destruct (Extrinsic.grab e i); try by apply elem_of_nil in Hr.
    destruct (Service.detectMarkers u (Extrinsic.detection e i) i)
      as [res rs'] eqn:E.
    assert (Hin : r ∈ (Service.detectMarkers u (Extrinsic.detection e i) i).2)
      by (by rewrite E).
    by apply detectMarkers_requests in Hin as ->. }
  unfold Extrinsic.detect_requests, Extrinsic.detections,
    Extrinsic.selectedCameras.
  simpl. rewrite app_nil_r, !elem_of_app.
  intros [Hr|[Hr|Hr]]; eauto.
Qed.

Lemma requests_captureImage (u : Service.UrlEnv) (e : Extrinsic.Env)
    (st : Extrinsic.State) (sv : Service.State) :
  Extrinsic.requests sv (Extrinsic.captureImage u e st sv)
  = Extrinsic.detect_requests u e
    ++ (if Extrinsic.all_ok u e
        then [Service.PostStartCalibration
                (Service.getCalibrationApiUrl u +:+ "/start_calibration")
                Extrinsic.selectedCameras (Some Service.config)]
        else []).
Proof.
  unfold Extrinsic.requests, Extrinsic.captureImage, Extrinsic.all_ok.
  destruct (Extrinsic.promise_all _) as [results|err]; simpl.
  - destruct (forallb _ results); simpl.
    + destruct (Service.startCalibration _ _ _ _) as [res sv2] eqn:E; simpl.
      replace sv2 with (Service.startCalibration u Extrinsic.selectedCameras
                          (Extrinsic.start_outcome e)
                          (Extrinsic.record_sent
                             (Extrinsic.detect_requests u e) sv)).2
        by (by rewrite E).
      rewrite sent_startCalibration, sent_record_sent, <- app_assoc.
      by rewrite drop_app_length.
    + by rewrite sent_record_sent, drop_app_length, app_nil_r.
  - by rewrite sent_record_sent, drop_app_length, app_nil_r.
Qed.

Lemma job_requested_all_ok (u : Service.UrlEnv) (e : Extrinsic.Env)
    (st : Extrinsic.State) (sv : Service.State) :
  Extrinsic.job_requested sv (Extrinsic.captureImage u e st sv)
  = Extrinsic.all_ok u e.
Proof.
  unfold Extrinsic.job_requested. rewrite requests_captureImage.
  rewrite existsb_app.
  assert (H : existsb Service.is_start (Extrinsic.detect_requests u e) = false).
  { apply not_true_iff_false. intros (r & Hr & Hs)%existsb_exists.
    apply list_elem_of_In in Hr.
    apply detect_requests_are_detections in Hr as (_ & Hn & _). congruence. }
  rewrite H. simpl. by destruct (Extrinsic.all_ok u e).
Qed.

Lemma all_ok_all_detected (u : Service.UrlEnv) (e : Extrinsic.Env) :
  Extrinsic.all_ok u e = true <-> Extrinsic.all_detected u e.
Proof.
  unfold Extrinsic.all_ok, Extrinsic.all_detected, Extrinsic.detections,
    Extrinsic.selectedCameras, Extrinsic.reported.
  simpl. split.
  - intros H i Hi.
    destruct (Extrinsic.detect_one u e 0) as [[r0 q0]|?] eqn:E0; [|done].
    destruct (Extrinsic.detect_one u e 1) as [[r1 q1]|?] eqn:E1; [|done].
    destruct (Extrinsic.detect_one u e 2) as [[r2 q2]|?] eqn:E2; [|done].
    simpl in H.
    apply andb_true_iff in H as [H0 H]. apply andb_true_iff in H as [H1 H].
    apply andb_true_iff in H as [H2 _].
    simpl in *.
    apply elem_of_cons in Hi as [->|Hi]; [rewrite E0; by exists r0|].
    apply elem_of_cons in Hi as [->|Hi]; [rewrite E1; by exists r1|].
    apply elem_of_cons in Hi as [->|Hi]; [rewrite E2; by exists r2|].
    by apply elem_of_nil in Hi.
  - intros H.
    destruct (H 0%nat) as (r0 & E0 & H0); [repeat constructor|].
    destruct (H 1%nat) as (r1 & E1 & H1); [repeat constructor|].
    destruct (H 2%nat) as (r2 & E2 & H2); [repeat constructor|].
    destruct (Extrinsic.detect_one u e 0) as [[? ?]|?]; [|done].
    destruct (Extrinsic.detect_one u e 1) as [[? ?]|?]; [|done].
    destruct (Extrinsic.detect_one u e 2) as [[? ?]|?]; [|done].
    simplify_eq. simpl. by rewrite H0, H1, H2.
Qed.

(** ** C2: a job is started exactly when all three detections succeed *)

(** C2.  A run of [captureImage] sends the start request to the backend if
    and only if all three per-camera detection calls were made and each
    reported [success] and [detected]; otherwise (two of three, say) the
    run ends in the error state and the service's polling state is
    untouched. *)
Theorem captureImage_starts_job_iff_all_detected
    (u : Service.UrlEnv) (e : Extrinsic.Env) (st : Extrinsic.State)
    (sv : Service.State) :
  (Extrinsic.job_requested sv (Extrinsic.captureImage u e st sv) = true
   <-> Extrinsic.all_detected u e) /\
  (Extrinsic.job_requested sv (Extrinsic.captureImage u e st sv) = false ->
   let r := Extrinsic.captureImage u e st sv in
   Extrinsic.status (Extrinsic.calibrationProgress (Extrinsic.state r))
   = Extrinsic.error /\
   Service.isCalibrating (Extrinsic.service r) = Service.isCalibrating sv /\
   Service.progressInterval (Extrinsic.service r) = Service.progressInterval sv /\
   Service.intervals (Extrinsic.service r) = Service.intervals sv).
Proof.
  split.
  - rewrite job_requested_all_ok. apply all_ok_all_detected.
  - rewrite job_requested_all_ok. intros Hno r. subst r.
    unfold Extrinsic.captureImage, Extrinsic.all_ok in *.
    assert (Hsv : forall rs,
               Service.isCalibrating (Extrinsic.record_sent rs sv)
               = Service.isCalibrating sv /\
               Service.progressInterval (Extrinsic.record_sent rs sv)
               = Service.progressInterval sv /\
               Service.intervals (Extrinsic.record_sent rs sv)
               = Service.intervals sv).
    { intros rs. unfold Extrinsic.record_sent. revert sv.
      induction rs as [|q rs IH]; intros sv; simpl; [done|].
      destruct (IH (Service.send q sv)) as (-> & -> & ->). done. }
    destruct (Extrinsic.promise_all _) as [results|err]; simpl.
    + rewrite Hno. simpl. split; [done|]. apply Hsv.
    + split; [done|]. apply Hsv.
Qed.

(** ** C9: which requests carry the configuration *)

(** C9, as stated, fails.  The intrinsic capture sends its own
    [/detect_markers] request, whose body holds the image and the camera
    index and no configuration. *)
Lemma intrinsic_detect_request_omits_config :
  head (Intrinsic.effects
          (IntrinsicStep.capture Sample.devices 1 Sample.ready
             (Sample.shot (Sample.found 4)) (Sample.page 3)))
  = Some (Intrinsic.Fetch
            (Service.PostDetectMarkers "http://127.0.0.1:8000/detect_markers"
               "data:image/jpeg;base64,AA" 1 None)) /\
  Service.request_config
    (Service.PostDetectMarkers "http://127.0.0.1:8000/detect_markers"
       "data:image/jpeg;base64,AA" 1 None)
  <> Some Service.config.
Proof. split; [vm_compute; reflexivity | discriminate]. Qed.

Lemma captureAndDetect_requests (p : Intrinsic.Props) (l : Intrinsic.Local)
    (e : Intrinsic.Env) (st : Index.State) (r : Service.Request) :
  Intrinsic.Fetch r ∈ Intrinsic.effects (Intrinsic.captureAndDetect p l e st) ->
  r = Service.PostDetectMarkers "http://127.0.0.1:8000/detect_markers"
        (Intrinsic.data_url e) (Intrinsic.cameraIndex p) None.
Proof.
  unfold Intrinsic.captureAndDetect.
  assert (Hin : forall t : Toast,
             Intrinsic.Fetch r ∈ [Intrinsic.Notify t] -> False).
  { intros t H. apply list_elem_of_singleton in H. discriminate. }
  assert (Hfail : forall q err,
             Intrinsic.Fetch r ∈ [Intrinsic.Fetch q; Intrinsic.capture_error err] ->
             r = q).
  { intros q err H. apply elem_of_cons in H as [H|H]; [congruence|].
    apply list_elem_of_singleton in H. discriminate. }
  destruct (_ || _ || _); simpl; [by intros ?%elem_of_nil|].
  destruct (_ || _); simpl; [by intros ?%Hin|].
  destruct (negb (Intrinsic.context e)); simpl; [by intros ?%Hin|].
  destruct (Intrinsic.outcome e) as [err|s err|s b]; simpl.
  - apply Hfail.
  - destruct (negb (Http.ok s)); simpl; apply Hfail.
  - destruct (negb (Http.ok s)); simpl; [apply Hfail|].
    destruct (_ && _); simpl; [|apply Hfail].
    destruct (Intrinsic.draw_throws b); simpl; [apply Hfail|].
    intros H. apply elem_of_cons in H as [H|H]; [congruence|].
    apply elem_of_cons in H as [H|H]; [discriminate|].
    apply list_elem_of_singleton in H. discriminate.
Qed.

(** C9, amended.  Every [/detect_markers] request that
    [CalibrationService.detectMarkers] sends and every [/start_calibration]
    request carries the service's fixed configuration (3 cameras, 1280 by
    720, marker size 0.05, at least 4 markers, reprojection error 1.0) in
    its body; the [/detect_markers] request of the intrinsic capture carries
    the image and the camera index only. *)
Theorem service_requests_carry_config
    (u : Service.UrlEnv) (de : Service.DetectEnv) (i : nat)
    (ci : list nat) (o : Http.Outcome Service.AckBody) (sv : Service.State)
    (p : Intrinsic.Props) (l : Intrinsic.Local) (ie : Intrinsic.Env)
    (st : Index.State) :
  (Service.detectMarkers u de i).2
  = (if Service.canvas_context de
     then [Service.PostDetectMarkers
             (Service.getCalibrationApiUrl u +:+ "/detect_markers")
             (Service.data_url de) i (Some Service.config)]
     else []) /\
  drop (length (Service.sent sv))
       (Service.sent (Service.startCalibration u ci o sv).2)
  = [Service.PostStartCalibration
       (Service.getCalibrationApiUrl u +:+ "/start_calibration") ci
       (Some Service.config)] /\
  (forall r,
     Intrinsic.Fetch r
       ∈ Intrinsic.effects (Intrinsic.captureAndDetect p l ie st) ->
     Service.is_detect r = true /\ Service.request_config r = None) /\
  Service.config
  = {| Service.numCameras := 3; Service.resolution := (1280, 720);
       Service.markerSize := (5 # 100)%Q; Service.minMarkersDetected := 4;
       Service.maxReprojError := (1 # 1)%Q |}.
Proof.
  split; [|split; [|split; [|reflexivity]]].
  - unfold Service.detectMarkers.
    destruct (Service.canvas_context de); simpl; [|done].
    destruct (Service.detect_outcome de) as [err|s err|s b]; simpl; try done.
    by destruct (negb (Http.ok s)).
  - by rewrite sent_startCalibration, drop_app_length.
  - by intros r ->%captureAndDetect_requests.
Qed.

(** ** C10: the job state after a full detection *)

Lemma startCalibration_success (u : Service.UrlEnv) (ci : list nat)
    (o : Http.Outcome Service.AckBody) (sv : Service.State) :
  Service.success (Service.startCalibration u ci o sv).1
  = match o with Http.Response s _ => Http.ok s | _ => false end.
Proof.
  unfold Service.startCalibration.
  destruct o as [err|s err|s b]; simpl; try done.
  by destruct (Http.ok s).
Qed.

(** C10.  When all three detections report [success] and [detected], the
    run of [captureImage] ends with the job state at status [complete] and
    progress 100, whatever the start request met: [startCalibration] always
    returns a result, whose [success] is false on every failure, and the
    run does not look at it. *)
Theorem captureImage_completes_whatever_start_returns
    (u : Service.UrlEnv) (e : Extrinsic.Env) (st : Extrinsic.State)
    (sv : Service.State) (Hall : Extrinsic.all_detected u e) :
  Extrinsic.status
    (Extrinsic.calibrationProgress
       (Extrinsic.state (Extrinsic.captureImage u e st sv)))
  = Extrinsic.complete /\
  Extrinsic.progress
    (Extrinsic.calibrationProgress
       (Extrinsic.state (Extrinsic.captureImage u e st sv)))
  = 100 /\
  last (Extrinsic.shown (Extrinsic.captureImage u e st sv))
  = Some Extrinsic.progress_complete /\
  forall sv',
    Service.success
      (Service.startCalibration u Extrinsic.selectedCameras
         (Extrinsic.start_outcome e) sv').1
    = match Extrinsic.start_outcome e with
      | Http.Response s _ => Http.ok s
      | _ => false
      end.
Proof.
  apply all_ok_all_detected in Hall.
  unfold Extrinsic.captureImage. unfold Extrinsic.all_ok in Hall.
  destruct (Extrinsic.promise_all _) as [results|err]; [|done].
  rewrite Hall.
  destruct (Service.startCalibration _ _ _ _) as [res sv2]; simpl.
  repeat split. intros sv'. apply startCalibration_success.
Qed.

Lemma captureImage_completes_whatever_start_returns_witness :
  Extrinsic.all_detected Sample.url (Sample.rig_all Sample.unreachable) /\
  Extrinsic.status
    (Extrinsic.calibrationProgress
       (Extrinsic.state
          (Extrinsic.captureImage Sample.url (Sample.rig_all Sample.unreachable)
             Extrinsic.initial Service.initial)))
  = Extrinsic.complete /\
  Service.success
    (Service.startCalibration Sample.url Extrinsic.selectedCameras
       Sample.unreachable Service.initial).1
  = false.
Proof.
  assert (H : Extrinsic.all_detected Sample.url
                (Sample.rig_all Sample.unreachable)).
  { apply all_ok_all_detected. vm_compute. reflexivity. }
  split; [exact H|].
  pose proof (captureImage_completes_whatever_start_returns
                Sample.url (Sample.rig_all Sample.unreachable)
                Extrinsic.initial Service.initial H) as (Hs & _ & _ & Hr).
  split; [exact Hs | exact (Hr Service.initial)].
Defined.

(** ** The permission probe *)

Lemma notifications_app (a b : list Registry.Effect) :
  Registry.notifications (a ++ b)
  = Registry.notifications a ++ Registry.notifications b.
Proof. unfold Registry.notifications. apply omap_app. Qed.

Lemma probes_cons (x : Registry.Effect) (l : list Registry.Effect) :
  Registry.probes (x :: l)
  = ((if Registry.is_probe x then 1 else 0) + Registry.probes l)%nat.
Proof.
  unfold Registry.probes. rewrite filter_cons.
  destruct (Registry.is_probe x) eqn:E; case_decide; simpl; congruence.
Qed.

(** What the loop does when started at [a] attempts with enough fuel. *)
Lemma permission_loop_spec (e : Registry.Env) (fuel a : nat) :
  (a < 5 -> 5 - a <= fuel)%nat -> (1 <= fuel)%nat -> (a <= 5)%nat ->
  exists n effs r,
    Registry.permission_loop fuel e a = Some (n, effs, r) /\
    (a <= n <= 5)%nat /\
    (Registry.probes effs <= 5 - a)%nat /\
    Forall (fun ms => ms = 3000) (Registry.waits effs) /\
    Registry.notifications effs = [] /\
    (forall err, r = Some err ->
       n = 5%nat /\ Registry.probe_last_error e err /\
       Registry.probes effs = (5 - a)%nat /\
       forall k, (a <= k < 5)%nat -> is_Some (Registry.probe e k)) /\
    (r = None -> (a < 5)%nat -> (n < 5)%nat /\ Registry.probe e n = None).
Proof.
  revert a. induction fuel as [|fuel IH]; intros a Hfuel H1 Ha; [lia|].
  simpl. unfold Registry.MAX_PERMISSION_ATTEMPTS.
  destruct (a <? 5)%nat eqn:Hlt.
  - apply Nat.ltb_lt in Hlt.
    destruct (Registry.probe e a) as [err|] eqn:Hp.
    + destruct (a =? 4)%nat eqn:Hmax.
      * apply Nat.eqb_eq in Hmax. subst a.
        exists 5%nat, [Registry.GetUserMedia], (Some err).
        split; [done|]. split; [lia|]. split; [by vm_compute|].
        split; [constructor|]. split; [done|]. split; [|done].
        intros err' [= <-]. split; [done|]. split; [exact Hp|].
        split; [by vm_compute|].
        intros k Hk. assert (k = 4%nat) as -> by lia. by rewrite Hp.
      * apply Nat.eqb_neq in Hmax.
        destruct (IH (S a)) as (n & effs & r & -> & Hn & Hpr & Hw & Hnot & Herr & Hok);
          [lia | lia | lia |].
        exists n, (Registry.GetUserMedia :: Registry.Wait 3000 :: effs), r.
        split; [done|]. split; [lia|].
        rewrite !probes_cons. simpl.
        split; [lia|]. split; [by constructor|]. split; [done|]. split.
        -- intros err' Hr. destruct (Herr err' Hr) as (-> & Hl & Hp5 & Hall).
           repeat split; try done; try lia.
           intros k Hk. destruct (decide (k = a)) as [->|]; [by rewrite Hp|].
           apply Hall. lia.
        -- intros Hr _. destruct (Hok Hr) as [? ?]; [lia|]. split; [lia|done].
    + exists a, [Registry.GetUserMedia; Registry.StopTracks], None.
      repeat split; try done; try lia.
      change (Registry.probes [Registry.GetUserMedia; Registry.StopTracks])
        with 1%nat.
      lia.
  - apply Nat.ltb_ge in Hlt. assert (a = 5%nat) as -> by lia.
    exists 5%nat, [], None. repeat split; try done; try lia.
Qed.

(** ** C6: a failed enumeration *)

Lemma on_trigger_getCameras (t : Registry.Trigger) (fuel : nat)
    (e : Registry.Env) (devices : list Media.Device) :
  Registry.on_trigger t fuel e devices = Registry.getCameras fuel e devices.
Proof. by destruct t. Qed.

Lemma getCameras_healthy (fuel : nat) (e : Registry.Env)
    (found devices : list Media.Device) :
  (5 <= fuel)%nat -> Registry.healthy e found ->
  exists r, Registry.getCameras fuel e devices = Some r /\
            Registry.completion r = Registry.Normal /\
            Registry.cameraDevices r = found.
Proof.
  intros Hfuel ((k & Hk & Hgrant) & (listed & Henum & Hfilter) & Hne).
  destruct (permission_loop_spec e fuel 0)
    as (n & effs & r & Hloop & _ & _ & _ & _ & Herr & _); [lia..|].
  unfold Registry.getCameras, Registry.try_body. rewrite Hloop.
  destruct r as [err|].
  - destruct (Herr err eq_refl) as (_ & _ & _ & Hall).
    destruct (Hall k) as [x Hx]; [unfold Registry.MAX_PERMISSION_ATTEMPTS in Hk; lia|].
    congruence.
  - rewrite Henum, Hfilter.
    rewrite bool_decide_eq_false_2 by (by destruct found).
    eexists. split; [done|]. done.
Qed.

Lemma getCameras_failed (fuel : nat) (e : Registry.Env)
    (devices : list Media.Device) :
  (5 <= fuel)%nat ->
  Registry.probe_exhausted e \/ Registry.no_video_input e ->
  exists r, Registry.getCameras fuel e devices = Some r /\
            Registry.completion r = Registry.Normal /\
            Registry.cameraDevices r = [] /\
            Registry.notifications (Registry.effects r)
            = [Registry.camera_error].
Proof.
  intros Hfuel Hfail.
  destruct (permission_loop_spec e fuel 0)
    as (n & effs & r & Hloop & _ & _ & _ & Hnot & _ & Hok); [lia..|].
  unfold Registry.getCameras, Registry.try_body. rewrite Hloop.
  destruct r as [err|].
  - eexists. split; [done|]. simpl. rewrite notifications_app, Hnot. done.
  - destruct Hfail as [Hex|Hnone].
    + destruct (Hok eq_refl) as [Hn Hgrant]; [lia|].
      destruct (Hex n) as [x Hx]; [done|]. congruence.
    + unfold Registry.no_video_input in Hnone.
      destruct (Registry.enumerate e) as [ds|err].
      * rewrite Hnone. simpl.
        eexists. split; [done|]. simpl.
        rewrite !notifications_app, Hnot. done.
      * eexists. split; [done|]. simpl.
        rewrite !notifications_app, Hnot. done.
Qed.

(** C6.  When an enumeration fails (the permission probe is rejected five
    times, or no video input is listed), [getCameras] returns normally with
    the device list empty and exactly one notification, the destructive
    "Camera Error" toast; and the hook stays usable: a later enumeration,
    triggered by a device change or a manual refresh, in an environment
    where the probe is granted and video inputs exist, sets the list to
    those inputs. *)
Theorem getCameras_failure_is_contained
    (fuel : nat) (e : Registry.Env) (devices : list Media.Device)
    (Hfuel : (Registry.MAX_PERMISSION_ATTEMPTS <= fuel)%nat)
    (Hfail : Registry.probe_exhausted e \/ Registry.no_video_input e) :
  exists r,
    Registry.getCameras fuel e devices = Some r /\
    Registry.completion r = Registry.Normal /\
    Registry.cameraDevices r = [] /\
    Registry.notifications (Registry.effects r) = [Registry.camera_error] /\
    variant Registry.camera_error = Destructive /\
    forall t e' found,
      Registry.healthy e' found ->
      exists r',
        Registry.on_trigger t fuel e' (Registry.cameraDevices r) = Some r' /\
        Registry.completion r' = Registry.Normal /\
        Registry.cameraDevices r' = found /\ found <> [].
Proof.
  unfold Registry.MAX_PERMISSION_ATTEMPTS in Hfuel.
  destruct (getCameras_failed fuel e devices Hfuel Hfail)
    as (r & Hr & Hc & Hd & Hn).
  exists r. repeat (split; [done|]).
  intros t e' found Hh. rewrite on_trigger_getCameras.
  destruct (getCameras_healthy fuel e' found (Registry.cameraDevices r) Hfuel Hh)
    as (r' & Hr' & Hc' & Hd').
  exists r'. repeat (split; [done|]). by destruct Hh as (_ & _ & ?).
Qed.

Lemma getCameras_failure_is_contained_witness :
  exists r,
    Registry.getCameras 5 Sample.locked Sample.devices = Some r /\
    Registry.cameraDevices r = [] /\
    Registry.notifications (Registry.effects r) = [Registry.camera_error] /\
    exists r',
      Registry.on_trigger Registry.DeviceChange 5 Sample.plugged
        (Registry.cameraDevices r) = Some r' /\
      Registry.cameraDevices r' = [Sample.camA].
Proof.
  assert (Hfuel : (Registry.MAX_PERMISSION_ATTEMPTS <= 5)%nat)
    by (vm_compute; lia).
  assert (Hfail : Registry.probe_exhausted Sample.locked
                  \/ Registry.no_video_input Sample.locked).
  { left. intros k _. simpl. by eexists. }
  destruct (getCameras_failure_is_contained 5 Sample.locked Sample.devices
              Hfuel Hfail) as (r & Hr & _ & Hd & Hn & _ & Hnext).
  exists r. split; [exact Hr|]. split; [exact Hd|]. split; [exact Hn|].
  destruct (Hnext Registry.DeviceChange Sample.plugged [Sample.camA])
    as (r' & Hr' & _ & Hd' & _).
  { split; [exists 0%nat; split; [vm_compute; lia | reflexivity]|].
    split; [|discriminate].
    exists [Sample.microphone; Sample.camA]. split; reflexivity. }
  exists r'. split; [exact Hr' | exact Hd'].
Defined.

(** ** C7: progress polling stops *)

Lemma clearInterval_single (h : nat) (p : Z) :
  Service.clearInterval h [(h, p)] = [].
Proof.
  unfold Service.clearInterval. rewrite filter_cons. simpl.
  by rewrite decide_False by (intros H; by apply H).
Qed.

Lemma startProgressPolling_consistent (st : Service.State) :
  Service.consistent st -> Service.consistent (Service.startProgressPolling st).
Proof.
  unfold Service.consistent, Service.startProgressPolling; simpl.
  destruct (Service.progressInterval st) as [h|]; intros ->; [|done].
  by rewrite clearInterval_single.
Qed.

Lemma stopProgressPolling_stops (st : Service.State) :
  Service.consistent st ->
  Service.intervals (Service.stopProgressPolling st) = [] /\
  Service.progressInterval (Service.stopProgressPolling st) = None /\
  Service.isCalibrating (Service.stopProgressPolling st) = false /\
  Service.sent (Service.stopProgressPolling st) = Service.sent st.
Proof.
  unfold Service.consistent, Service.stopProgressPolling; simpl.
  destruct (Service.progressInterval st) as [h|]; intros ->; [|done].
  by rewrite clearInterval_single.
Qed.

Lemma stopProgressPolling_consistent (st : Service.State) :
  Service.consistent st -> Service.consistent (Service.stopProgressPolling st).
Proof.
  intros H. destruct (stopProgressPolling_stops st H) as (Hi & Hp & _).
  unfold Service.consistent. by rewrite Hp, Hi.
Qed.

Lemma poll_settled_consistent (o : Http.Outcome Service.ProgressBody)
    (st : Service.State) :
  Service.consistent st -> Service.consistent (Service.poll_settled o st).
Proof.
  intros H. unfold Service.poll_settled.
  destruct (Service.getProgress o) as [p|err].
  - destruct (_ || _); [by apply stopProgressPolling_consistent | done].
  - by apply stopProgressPolling_consistent.
Qed.

Lemma step_consistent (u : Service.UrlEnv) (ev : Service.Event)
    (st : Service.State) :
  Service.consistent st -> Service.consistent (Service.step u ev st).
Proof.
  intros H. destruct ev as [ci o|o|h|o]; simpl.
  - unfold Service.startCalibration.
    destruct o as [err|s err|s b]; simpl; try done.
    destruct (Http.ok s); simpl; [|done].
    by apply (startProgressPolling_consistent
                (Service.mkState true _ _ _ _ _)).
  - unfold Service.stopCalibration.
    destruct o as [err|s err|s b]; simpl; try done.
    destruct (Http.ok s); simpl; [|done].
    by apply (stopProgressPolling_consistent (Service.send _ st)).
  - by case_bool_decide.
  - destruct (Service.polls st); [done|].
    by apply poll_settled_consistent.
Qed.

Lemma run_consistent (u : Service.UrlEnv) (evs : list Service.Event)
    (st : Service.State) :
  Service.consistent st -> Service.consistent (Service.run u evs st).
Proof.
  unfold Service.run. revert st.
  induction evs as [|ev evs IH]; intros st H; simpl; [done|].
  apply IH. by apply step_consistent.
Qed.

Lemma step_intervals_period (u : Service.UrlEnv) (ev : Service.Event)
    (st : Service.State) :
  Service.consistent st ->
  forall iv, iv ∈ Service.intervals (Service.step u ev st) -> iv.2 = 1000.
Proof.
  intros H iv Hiv. apply (step_consistent u ev) in H.
  unfold Service.consistent in H.
  destruct (Service.progressInterval _); rewrite H in Hiv.
  - by apply list_elem_of_singleton in Hiv as ->.
  - by apply elem_of_nil in Hiv.
Qed.

Lemma progress_requests_send (r : Service.Request) (st : Service.State) :
  Service.progress_requests (Service.send r st)
  = (Service.progress_requests st
     + if Service.is_progress r then 1 else 0)%nat.
Proof.
  unfold Service.progress_requests, Service.send; simpl.
  rewrite filter_app, length_app. f_equal.
  rewrite filter_cons, filter_nil.
  by destruct (Service.is_progress r).
Qed.

(** With no interval running, and no new job started, nothing ticks and no
    progress request is sent. *)
Lemma idle_sends_no_progress_request (u : Service.UrlEnv)
    (evs : list Service.Event) (st : Service.State) :
  Service.intervals st = [] -> Service.progressInterval st = None ->
  Forall (fun ev => Service.starts_job ev = false) evs ->
  Service.intervals (Service.run u evs st) = [] /\
  Service.progressInterval (Service.run u evs st) = None /\
  Service.progress_requests (Service.run u evs st)
  = Service.progress_requests st.
Proof.
  unfold Service.run. revert st.
  induction evs as [|ev evs IH]; intros st Hi Hp Hno; simpl; [done|].
  apply Forall_cons in Hno as [Hev Hno].
  assert (Hc : Service.consistent st)
    by (unfold Service.consistent; by rewrite Hp).
  assert (Hstep : Service.intervals (Service.step u ev st) = [] /\
                  Service.progressInterval (Service.step u ev st) = None /\
                  Service.progress_requests (Service.step u ev st)
                  = Service.progress_requests st).
  { destruct ev as [ci o|o|h|o]; simpl in *.
    - unfold Service.startCalibration.
      destruct o as [err|s err|s b]; simpl in *;
        try (rewrite Hev); simpl;
        repeat split; try done;
        by rewrite progress_requests_send; simpl; lia.
    - unfold Service.stopCalibration.
      destruct o as [err|s err|s b]; simpl.
      1,2: by (repeat split; try done;
               rewrite progress_requests_send; simpl; lia).
      destruct (Http.ok s); simpl.
      + destruct (stopProgressPolling_stops (Service.send
                    (Service.PostStop (Service.getCalibrationApiUrl u +:+ "/stop"))
                    st)) as (H1 & H2 & _ & H4); [done|].
        repeat split; try done.
        unfold Service.progress_requests. rewrite H4. simpl.
        rewrite filter_app, length_app. simpl. lia.
      + repeat split; try done. rewrite progress_requests_send; simpl; lia.
    - rewrite Hi. simpl. done.
    - destruct (Service.polls st) as [|n]; [done|].
      set (st0 := Service.mkState _ _ _ _ _ _).
      assert (Hc0 : Service.consistent st0)
        by (unfold Service.consistent; simpl; by rewrite Hp).
      unfold Service.poll_settled.
      destruct (stopProgressPolling_stops st0 Hc0) as (H1 & H2 & _ & H4).
      assert (Hstop : Service.progress_requests (Service.stopProgressPolling st0)
                      = Service.progress_requests st)
        by (unfold Service.progress_requests; by rewrite H4).
      destruct (Service.getProgress o) as [p|err]; [|done].
      by destruct (_ || _). }
  destruct Hstep as (Hi' & Hp' & Hr').
  destruct (IH _ Hi' Hp' Hno) as (? & ? & ?).
  repeat split; try done. congruence.
Qed.

(** C7.  Polling runs on an interval of 1000 ms.  When a poll settles with
    a progress of 100 or more, or with an error, the interval is cleared in
    that same turn of the event loop: no interval is left running, and
    until a new job is started no further progress request is sent,
    whatever else happens. *)
Theorem polling_stops_at_terminal_progress
    (u : Service.UrlEnv) (evs : list Service.Event)
    (o : Http.Outcome Service.ProgressBody)
    (Hpoll : (0 < Service.polls (Service.run u evs Service.initial))%nat)
    (Hterm : Service.poll_terminal o) :
  let st := Service.run u evs Service.initial in
  let st' := Service.step u (Service.PollSettles o) st in
  (forall iv, iv ∈ Service.intervals st -> iv.2 = 1000) /\
  Service.intervals st' = [] /\
  Service.progressInterval st' = None /\
  Service.isCalibrating st' = false /\
  forall evs',
    Forall (fun ev => Service.starts_job ev = false) evs' ->
    Service.intervals (Service.run u evs' st') = [] /\
    Service.progress_requests (Service.run u evs' st')
    = Service.progress_requests st'.
Proof.
  intros st st'.
  assert (Hc : Service.consistent st)
    by (apply run_consistent; reflexivity).
  assert (Hstop : Service.intervals st' = [] /\
                  Service.progressInterval st' = None /\
                  Service.isCalibrating st' = false).
  { subst st'. simpl. fold st in Hpoll |- *.
    destruct (Service.polls st) as [|n] eqn:E; [lia|].
    set (st0 := Service.mkState _ _ _ _ _ _).
    assert (Hc0 : Service.consistent st0) by exact Hc.
    destruct (stopProgressPolling_stops st0 Hc0) as (H1 & H2 & H3 & _).
    unfold Service.poll_settled, Service.poll_terminal in *.
    destruct (Service.getProgress o) as [p|err]; [|done].
    rewrite Hterm, orb_true_r. done. }
  destruct Hstop as (Hi & Hp & Hcal).
  split.
  - intros iv Hiv. unfold Service.consistent in Hc.
    destruct (Service.progressInterval st); rewrite Hc in Hiv.
    + by apply list_elem_of_singleton in Hiv as ->.
    + by apply elem_of_nil in Hiv.
  - repeat (split; [done|]). intros evs' Hno.
    destruct (idle_sends_no_progress_request u evs' st' Hi Hp Hno)
      as (? & _ & ?).
    done.
Qed.

Lemma polling_stops_at_terminal_progress_witness :
  (0 < Service.polls (Service.run Sample.url Sample.polling Service.initial))%nat /\
  Service.poll_terminal (Sample.progress_at 100) /\
  Service.intervals (Service.run Sample.url Sample.polling Service.initial)
  = [(0%nat, 1000)] /\
  Service.intervals
    (Service.step Sample.url (Service.PollSettles (Sample.progress_at 100))
       (Service.run Sample.url Sample.polling Service.initial)) = [] /\
  Service.progress_requests
    (Service.run Sample.url [Service.Tick 0; Service.Tick 0]
       (Service.step Sample.url (Service.PollSettles (Sample.progress_at 100))
          (Service.run Sample.url Sample.polling Service.initial)))
  = 1%nat.
Proof.
  assert (Hpoll : (0 < Service.polls
                         (Service.run Sample.url Sample.polling Service.initial))%nat)
    by (vm_compute; lia).
  assert (Hterm : Service.poll_terminal (Sample.progress_at 100))
    by reflexivity.
  split; [exact Hpoll|]. split; [exact Hterm|]. split; [reflexivity|].
  pose proof (polling_stops_at_terminal_progress Sample.url Sample.polling
                (Sample.progress_at 100) Hpoll Hterm) as H.
  cbv zeta in H. destruct H as (_ & Hi & _ & _ & Hrest).
  split; [exact Hi|].
  destruct (Hrest [Service.Tick 0; Service.Tick 0]) as [_ Hr].
  { repeat constructor. }
  rewrite Hr. reflexivity.
Defined.

(** ** The camera view: streams *)

(** The part of the state the stream invariants read. *)
Lemma catch_block_streams (g : nat) (err : Http.Thrown) (st : CameraView.State) :
  CameraView.live (CameraView.catch_block g err st) = CameraView.live st /\
  CameraView.streamRef (CameraView.catch_block g err st) = CameraView.streamRef st /\
  CameraView.videoRef (CameraView.catch_block g err st) = CameraView.videoRef st /\
  CameraView.flights (CameraView.catch_block g err st) = CameraView.flights st /\
  CameraView.initializingRef (CameraView.catch_block g err st)
  = CameraView.initializingRef st.
Proof.
  unfold CameraView.catch_block.
  destruct (CameraView.instances st !! g) as [i|]; [|done].
  destruct (CameraView.mounted i); [|done].
  by destruct (_ <? _)%nat.
Qed.

Lemma connected_streams (g s : nat) (st : CameraView.State) :
  CameraView.live (CameraView.connected g s st) = CameraView.live st /\
  CameraView.streamRef (CameraView.connected g s st) = CameraView.streamRef st /\
  CameraView.videoRef (CameraView.connected g s st) = CameraView.videoRef st /\
  CameraView.flights (CameraView.connected g s st) = CameraView.flights st /\
  CameraView.initializingRef (CameraView.connected g s st)
  = CameraView.initializingRef st.
Proof.
  unfold CameraView.connected.
  destruct (CameraView.instances st !! g) as [i|]; [|done].
  by destruct (CameraView.mounted i).
Qed.

Lemma held_no_stream (st : CameraView.State) :
  CameraView.held st -> CameraView.streamRef st = None -> CameraView.live st = [].
Proof. intros [H|(s & _ & H)] Hn; [done | congruence]. Qed.

Lemma filter_ne_single (s : nat) : filter (fun x => x <> s) [s] = [].
Proof. rewrite filter_cons. by rewrite decide_False by (intros H; by apply H). Qed.

Lemma stop_tracks_held (s : nat) (st : CameraView.State) :
  CameraView.held st -> CameraView.held (CameraView.stop_tracks s st).
Proof.
  unfold CameraView.held, CameraView.stop_tracks; simpl.
  intros [->|(s' & -> & Hs)]; [by left|].
  rewrite filter_cons, filter_nil. case_decide; [right; eauto | by left].
Qed.

Lemma detach_sink_spec (st : CameraView.State) :
  CameraView.sink_empty (CameraView.detach_sink st) /\
  CameraView.live (CameraView.detach_sink st) = CameraView.live st /\
  CameraView.streamRef (CameraView.detach_sink st) = CameraView.streamRef st /\
  CameraView.flights (CameraView.detach_sink st) = CameraView.flights st /\
  CameraView.initializingRef (CameraView.detach_sink st)
  = CameraView.initializingRef st.
Proof.
  unfold CameraView.detach_sink, CameraView.sink_empty.
  destruct (CameraView.videoRef st) as [o|] eqn:Hv; simpl; rewrite ?Hv;
    repeat split; eauto.
Qed.

Lemma release_stream_spec (st : CameraView.State) :
  CameraView.held st ->
  CameraView.live (CameraView.release_stream st) = [] /\
  CameraView.streamRef (CameraView.release_stream st) = None /\
  CameraView.flights (CameraView.release_stream st) = CameraView.flights st /\
  CameraView.initializingRef (CameraView.release_stream st)
  = CameraView.initializingRef st.
Proof.
  intros Hheld. unfold CameraView.release_stream, CameraView.stop_tracks.
  destruct (CameraView.streamRef st) as [s|] eqn:Hs; simpl.
  - destruct Hheld as [->|(s' & -> & ?)]; [done|].
    assert (s' = s) as -> by congruence. by rewrite filter_ne_single.
  - rewrite Hs. by rewrite (held_no_stream st Hheld Hs).
Qed.

(** After [release_stream] and [detach_sink] the slot holds nothing. *)
Lemma released (st : CameraView.State) :
  CameraView.held st ->
  let st' := CameraView.detach_sink (CameraView.release_stream st) in
  CameraView.live st' = [] /\ CameraView.streamRef st' = None /\
  CameraView.sink_empty st' /\
  CameraView.flights st' = CameraView.flights st /\
  CameraView.initializingRef st' = CameraView.initializingRef st.
Proof.
  intros Hheld st'. subst st'.
  destruct (release_stream_spec st Hheld) as (Hl & Hs & Hf & Hi).
  destruct (detach_sink_spec (CameraView.release_stream st))
    as (Hv & Hl' & Hs' & Hf' & Hi').
  repeat split; try done; congruence.
Qed.

Lemma cleanup_streams (g : nat) (st : CameraView.State) :
  CameraView.held st ->
  CameraView.live (CameraView.cleanup g st) = [] /\
  CameraView.streamRef (CameraView.cleanup g st) = None /\
  CameraView.sink_empty (CameraView.cleanup g st) /\
  CameraView.flights (CameraView.cleanup g st) = CameraView.flights st /\
  CameraView.initializingRef (CameraView.cleanup g st)
  = CameraView.initializingRef st.
Proof.
  intros Hheld. unfold CameraView.cleanup.
  set (st2 := match CameraView.instances st !! g with
              | Some i => _ | None => _ end).
  assert (H2 : CameraView.live st2 = CameraView.live st /\
               CameraView.streamRef st2 = CameraView.streamRef st /\
               CameraView.flights st2 = CameraView.flights st /\
               CameraView.initializingRef st2 = CameraView.initializingRef st).
  { subst st2. destruct (CameraView.instances st !! g) as [i|]; [|done].
    by destruct (CameraView.retryTimeout i). }
  destruct H2 as (Hl & Hs & Hf & Hi).
  assert (Hheld2 : CameraView.held st2).
  { unfold CameraView.held in *. by rewrite Hl, Hs. }
  destruct (released st2 Hheld2) as (? & ? & ? & Hf' & Hi').
  repeat split; try done; congruence.
Qed.

Lemma single_flight_idle (st st' : CameraView.State) :
  CameraView.single_flight st ->
  CameraView.flights st' = CameraView.flights st ->
  CameraView.initializingRef st' = CameraView.initializingRef st ->
  CameraView.streamRef st' = None -> CameraView.sink_empty st' ->
  CameraView.single_flight st'.
Proof.
  unfold CameraView.single_flight. intros H -> -> Hs Hv.
  destruct (CameraView.flights st) as [|f [|? ?]]; try done.
  by destruct H.
Qed.

Lemma cleanup_current_inv (st : CameraView.State) :
  CameraView.held st -> CameraView.single_flight st ->
  CameraView.held (CameraView.cleanup_current st) /\
  CameraView.single_flight (CameraView.cleanup_current st).
Proof.
  intros Hh Hf. unfold CameraView.cleanup_current.
  destruct (CameraView.current st) as [g|]; [|done].
  destruct (cleanup_streams g st Hh) as (Hl & Hs & Hv & Hfl & Hi).
  split; [by left|]. by eapply single_flight_idle.
Qed.

Lemma initCamera_inv (g : nat) (st : CameraView.State) :
  CameraView.held st -> CameraView.single_flight st ->
  CameraView.held (CameraView.initCamera g st) /\
  CameraView.single_flight (CameraView.initCamera g st).
Proof.
  intros Hh Hf. unfold CameraView.initCamera.
  destruct (CameraView.instances st !! g) as [i|]; [|done].
  destruct (CameraView.deviceId i) as [d|]; [|done].
  destruct (bool_decide (d = EmptyString)); simpl; [done|].
  destruct (CameraView.initializingRef st) eqn:Hinit; [done|].
  assert (Hnone : CameraView.flights st = []).
  { unfold CameraView.single_flight in Hf.
    destruct (CameraView.flights st) as [|f [|? ?]]; try done.
    destruct Hf; congruence. }
  set (st1 := CameraView.update_instance g _ _).
  assert (Hh1 : CameraView.held st1) by exact Hh.
  destruct (negb (CameraView.supported st)).
  - destruct (catch_block_streams g (Http.Err "getUserMedia is not supported") st1)
      as (Hl & Hs & Hv & Hfl & Hi).
    unfold CameraView.held, CameraView.single_flight, CameraView.finally_block.
    simpl. rewrite Hl, Hs, Hfl. split; [exact Hh|]. subst st1; simpl.
    by rewrite Hnone.
  - destruct (released st1 Hh1) as (Hl & Hs & Hv & Hfl & Hi).
    unfold CameraView.held, CameraView.single_flight, CameraView.emit. simpl.
    rewrite Hl, Hfl. subst st1; simpl. rewrite Hnone. simpl.
    split; [by left|]. split; [|done].
    rewrite Hi. done.
Qed.

Lemma single_flight_lookup (st : CameraView.State) (k : nat)
    (f : CameraView.Flight) :
  CameraView.single_flight st -> CameraView.flights st !! k = Some f ->
  k = 0%nat /\ CameraView.flights st = [f] /\
  CameraView.initializingRef st = true /\
  (CameraView.phase f = CameraView.AwaitStream ->
   CameraView.streamRef st = None /\ CameraView.sink_empty st).
Proof.
  unfold CameraView.single_flight. intros H Hk.
  destruct (CameraView.flights st) as [|f0 [|? ?]]; try done.
  destruct k as [|k]; simpl in Hk; [|done].
  injection Hk as ->. by destruct H.
Qed.

(** The call ends through [catch] and [finally]. *)
Lemma settle_failed_inv (g : nat) (err : Http.Thrown) (st : CameraView.State) :
  CameraView.held st ->
  let st' := CameraView.finally_block
               (CameraView.catch_block g err
                  (CameraView.set_flights [] st)) in
  CameraView.held st' /\ CameraView.single_flight st'.
Proof.
  intros Hh st'. subst st'.
  destruct (catch_block_streams g err (CameraView.set_flights [] st))
    as (Hl & Hs & Hv & Hfl & Hi).
  unfold CameraView.held, CameraView.single_flight, CameraView.finally_block.
  simpl. by rewrite Hl, Hs, Hfl.
Qed.

Lemma settle_inv (k : nat) (r : option Http.Thrown) (st : CameraView.State) :
  CameraView.held st -> CameraView.single_flight st ->
  CameraView.held (CameraView.settle k r st) /\
  CameraView.single_flight (CameraView.settle k r st).
Proof.
  intros Hh Hf. unfold CameraView.settle.
  destruct (CameraView.flights st !! k) as [f|] eqn:Hk; [|done].
  destruct (single_flight_lookup st k f Hf Hk) as (-> & Hfl & Hinit & Hwait).
  rewrite Hfl. simpl.
  destruct r as [err|]; [by apply settle_failed_inv|].
  destruct (CameraView.phase f) as [|s|s] eqn:Hph.
  - destruct Hwait as [Hnone Hsink]; [done|].
    pose proof (held_no_stream st Hh Hnone) as Hlive.
    destruct (negb (CameraView.is_mounted st (CameraView.caller f))).
    + unfold CameraView.held, CameraView.single_flight,
        CameraView.finally_block, CameraView.stop_tracks.
      simpl. rewrite Hlive. simpl. rewrite filter_ne_single.
      split; [by left | done].
    + destruct (CameraView.videoRef st) as [o|];
        unfold CameraView.held, CameraView.single_flight,
          CameraView.finally_block; simpl; rewrite Hlive; simpl.
      * split; [right; eauto|]. split; [done|]. done.
      * split; [right; eauto | done].
  - destruct (CameraView.videoRef st) as [o|].
    + unfold CameraView.held, CameraView.single_flight. simpl.
      split; [exact Hh|]. split; [done|]. done.
    + by apply settle_failed_inv.
  - destruct (connected_streams (CameraView.caller f) s
                (CameraView.set_flights [] st)) as (Hl & Hs & Hv & Hfl' & Hi).
    unfold CameraView.held, CameraView.single_flight, CameraView.finally_block.
    simpl. by rewrite Hl, Hs, Hfl'.
Qed.

Lemma step_inv (ev : CameraView.Event) (st : CameraView.State) :
  CameraView.held st -> CameraView.single_flight st ->
  CameraView.held (CameraView.step ev st) /\
  CameraView.single_flight (CameraView.step ev st).
Proof.
  intros Hh Hf. destruct ev as [d| |h|k r|[|]|s]; simpl.
  - destruct (cleanup_current_inv st Hh Hf) as [Hh' Hf']. done.
  - by apply cleanup_current_inv.
  - destruct (find _ _) as [t|]; [|done]. by apply initCamera_inv.
  - by apply settle_inv.
  - destruct (CameraView.videoRef st) as [o|] eqn:Hv; [done|].
    split; [exact Hh|]. unfold CameraView.single_flight in *. simpl.
    destruct (CameraView.flights st) as [|f [|? ?]]; try done.
    destruct Hf as [Hi Hw]. split; [done|]. intros Hp.
    destruct (Hw Hp) as [? _]. split; [done | by right].
  - split; [exact Hh|]. unfold CameraView.single_flight in *. simpl.
    destruct (CameraView.flights st) as [|f [|? ?]]; try done.
    destruct Hf as [Hi Hw]. split; [done|]. intros Hp.
    destruct (Hw Hp) as [? _]. split; [done | by left].
  - split; [by apply stop_tracks_held | exact Hf].
Qed.

Lemma run_inv (evs : list CameraView.Event) (st : CameraView.State) :
  CameraView.held st -> CameraView.single_flight st ->
  CameraView.held (CameraView.run evs st) /\
  CameraView.single_flight (CameraView.run evs st).
Proof.
  unfold CameraView.run. revert st.
  induction evs as [|ev evs IH]; intros st Hh Hf; simpl; [done|].
  destruct (step_inv ev st Hh Hf). by apply IH.
Qed.

Lemma held_one_live_stream (st : CameraView.State) :
  CameraView.held st -> CameraView.one_live_stream st.
Proof.
  unfold CameraView.held, CameraView.one_live_stream.
  intros [->|(s & -> & Hs)]; simpl.
  - split; [lia|]. by intros s ?%elem_of_nil.
  - split; [lia|]. by intros s' ->%list_elem_of_singleton.
Qed.

(** ** C4: one live stream per slot *)

(** C4.  In every state the view can reach, at most one stream is live and
    it is the one the slot holds.  While a call of [initCamera] awaits its
    stream, that is before a new stream can be attached, the stream held
    before has been stopped and detached: no stream is live, the slot
    holds none and the sink is empty.  When the awaited stream arrives, it
    becomes the slot's only live stream if the run that asked for it is
    still mounted; if that run has been torn down, the stream is stopped at
    once and neither held nor attached. *)
Theorem one_live_stream_per_slot (sup : bool) (evs : list CameraView.Event) :
  let st := CameraView.run evs (CameraView.initial sup) in
  CameraView.one_live_stream st /\
  forall k g,
    CameraView.awaiting_stream st k g ->
    (CameraView.live st = [] /\ CameraView.streamRef st = None /\
     CameraView.sink_empty st) /\
    let st' := CameraView.step (CameraView.Settles k None) st in
    if CameraView.is_mounted st g
    then CameraView.live st' = [CameraView.nextStream st] /\
         CameraView.streamRef st' = Some (CameraView.nextStream st)
    else CameraView.live st' = [] /\ CameraView.streamRef st' = None /\
         CameraView.videoRef st' = CameraView.videoRef st.
Proof.
  intros st.
  destruct (run_inv evs (CameraView.initial sup)) as [Hh Hf];
    [by left | done |].
  fold st in Hh, Hf. split; [by apply held_one_live_stream|].
  intros k g Hk. unfold CameraView.awaiting_stream in Hk.
  destruct (single_flight_lookup st k _ Hf Hk) as (-> & Hfl & Hinit & Hwait).
  destruct Hwait as [Hnone Hsink]; [done|].
  pose proof (held_no_stream st Hh Hnone) as Hlive.
  split; [done|]. simpl. unfold CameraView.settle. rewrite Hk. simpl.
  destruct (CameraView.is_mounted st g); simpl.
  - destruct (CameraView.videoRef st); simpl; by rewrite Hlive.
  - unfold CameraView.stop_tracks; simpl. rewrite Hlive. simpl.
    by rewrite filter_ne_single.
Qed.

Lemma one_live_stream_per_slot_witness :
  CameraView.awaiting_stream
    (CameraView.run Sample.torn_down (CameraView.initial true)) 0 0 /\
  CameraView.is_mounted
    (CameraView.run Sample.torn_down (CameraView.initial true)) 0 = false /\
  CameraView.live
    (CameraView.step (CameraView.Settles 0 None)
       (CameraView.run Sample.torn_down (CameraView.initial true))) = [] /\
  CameraView.streamRef
    (CameraView.step (CameraView.Settles 0 None)
       (CameraView.run Sample.torn_down (CameraView.initial true))) = None.
Proof.
  assert (Hk : CameraView.awaiting_stream
                 (CameraView.run Sample.torn_down (CameraView.initial true)) 0 0)
    by reflexivity.
  split; [exact Hk|]. split; [reflexivity|].
  pose proof (one_live_stream_per_slot true Sample.torn_down) as H.
  cbv zeta in H. destruct H as [_ H].
  destruct (H 0%nat 0%nat Hk) as [_ H'].
  change (CameraView.is_mounted
            (CameraView.run Sample.torn_down (CameraView.initial true)) 0)
    with false in H'.
  cbv iota in H'. destruct H' as (Hl & Hs & _). split; [exact Hl | exact Hs].
Defined.

(** ** The camera view: retries *)

Lemma accounted_mono (i : CameraView.Instance) (p f p' f' : nat) :
  CameraView.accounted i p f -> (p' <= p)%nat -> (f' <= f)%nat ->
  CameraView.accounted i p' f'.
Proof. unfold CameraView.accounted. intros [? [?|?]] ? ?; split; lia. Qed.

Lemma accounted_bounds (i : CameraView.Instance) (p f : nat) :
  CameraView.accounted i p f ->
  (CameraView.retryCount i <= CameraView.MAX_RETRIES)%nat /\
  (CameraView.attempts i <= S CameraView.MAX_RETRIES)%nat.
Proof. unfold CameraView.accounted. intros [? [?|?]]; split; lia. Qed.

Lemma owned_snoc (l : list CameraView.Timer) (t : CameraView.Timer) (g : nat) :
  length (filter (fun t => CameraView.owner t = g) (l ++ [t]))
  = (length (filter (fun t => CameraView.owner t = g) l)
     + if decide (CameraView.owner t = g) then 1 else 0)%nat.
Proof.
  rewrite filter_app, length_app, filter_cons, filter_nil.
  by case_decide.
Qed.

Lemma owned_cleared (l : list CameraView.Timer) (h g : nat) :
  (length (filter (fun t => CameraView.owner t = g)
             (filter (fun t => CameraView.handle t <> h) l))
   <= length (filter (fun t => CameraView.owner t = g) l))%nat.
Proof.
  induction l as [|t l IH]; [done|].
  rewrite !filter_cons.
  repeat (case_decide; simpl; rewrite ?filter_cons); simpl; lia.
Qed.

Lemma owned_fired (l : list CameraView.Timer) (h : nat) (t : CameraView.Timer) :
  find (fun t => bool_decide (CameraView.handle t = h)) l = Some t ->
  (S (length (filter (fun x => CameraView.owner x = CameraView.owner t)
                (filter (fun x => CameraView.handle x <> h) l)))
   <= length (filter (fun x => CameraView.owner x = CameraView.owner t) l))%nat.
Proof.
  induction l as [|x l IH]; [done|]. simpl.
  case_bool_decide as Hx.
  - intros [= ->]. rewrite !filter_cons.
    rewrite decide_False by (intros H; by apply H).
    rewrite decide_True by done. simpl.
    pose proof (owned_cleared l h (CameraView.owner t)). lia.
  - intros Hf. specialize (IH Hf). rewrite !filter_cons.
    rewrite decide_True by done. rewrite !filter_cons.
    case_decide; simpl; lia.
Qed.

(** What the bookkeeping reads of a state. *)
Lemma bounded_frame (st st' : CameraView.State) :
  CameraView.instances st' = CameraView.instances st ->
  CameraView.timers st' = CameraView.timers st ->
  CameraView.flights st' = CameraView.flights st ->
  CameraView.bounded st -> CameraView.bounded st'.
Proof.
  unfold CameraView.bounded, CameraView.pending_timers,
    CameraView.pending_calls.
  by intros -> -> ->.
Qed.

Lemma release_detach_frame (st : CameraView.State) :
  let st' := CameraView.detach_sink (CameraView.release_stream st) in
  CameraView.instances st' = CameraView.instances st /\
  CameraView.timers st' = CameraView.timers st /\
  CameraView.flights st' = CameraView.flights st /\
  CameraView.nextHandle st' = CameraView.nextHandle st /\
  CameraView.initializingRef st' = CameraView.initializingRef st /\
  CameraView.supported st' = CameraView.supported st.
Proof.
  unfold CameraView.detach_sink, CameraView.release_stream.
  destruct (CameraView.streamRef st); simpl;
    destruct (CameraView.videoRef st); simpl; done.
Qed.

(** An instance whose books hold keeps them when only [mounted] changes and
    timers are cleared. *)
Lemma cleanup_bounded (g : nat) (st : CameraView.State) :
  CameraView.bounded st -> CameraView.bounded (CameraView.cleanup g st).
Proof.
  intros Hb. unfold CameraView.cleanup.
  set (st2 := match CameraView.instances st !! g with
              | Some i => _ | None => _ end).
  destruct (release_detach_frame st2) as (Hi & Ht & Hf & _).
  assert (H2 : CameraView.instances st2
               = alter (fun i => CameraView.mkInstance
                                   (CameraView.deviceId i) false
                                   (CameraView.retryTimeout i)
                                   (CameraView.retryCount i)
                                   (CameraView.attempts i))
                       g (CameraView.instances st) /\
               CameraView.flights st2 = CameraView.flights st /\
               forall g', (CameraView.pending_timers st2 g'
                           <= CameraView.pending_timers st g')%nat).
  { subst st2. unfold CameraView.pending_timers.
    destruct (CameraView.instances st !! g) as [i|]; [|done].
    destruct (CameraView.retryTimeout i) as [h|]; simpl; [|done].
    repeat split; try done. intros g'. apply owned_cleared. }
  destruct H2 as (Hi2 & Hf2 & Ht2).
  intros g'. unfold CameraView.pending_timers, CameraView.pending_calls.
  rewrite Hi, Ht, Hf, Hi2, Hf2.
  specialize (Hb g'). specialize (Ht2 g').
  unfold CameraView.pending_timers, CameraView.pending_calls in *.
  rewrite list_lookup_alter. case_decide as Hg.
  - subst g'. destruct (CameraView.instances st !! g) as [i|]; simpl.
    + eapply accounted_mono in Hb; [|exact Ht2|done].
      unfold CameraView.accounted in *. simpl. exact Hb.
    + lia.
  - destruct (CameraView.instances st !! g') as [i|].
    + by eapply accounted_mono.
    + lia.
Qed.

Lemma cleanup_current_bounded (st : CameraView.State) :
  CameraView.bounded st -> CameraView.bounded (CameraView.cleanup_current st).
Proof.
  intros Hb. unfold CameraView.cleanup_current.
  destruct (CameraView.current st); [by apply cleanup_bounded | done].
Qed.

Lemma run_effect_bounded (d : option string) (st : CameraView.State) :
  CameraView.bounded st -> CameraView.bounded (CameraView.run_effect d st).
Proof.
  intros Hb g. specialize (Hb g).
  unfold CameraView.run_effect, CameraView.pending_timers,
    CameraView.pending_calls in *.
  simpl. rewrite owned_snoc. simpl.
  destruct (decide (g < length (CameraView.instances st))%nat) as [Hlt|Hge].
  - rewrite lookup_app_l by done.
    rewrite decide_False by lia. by rewrite Nat.add_0_r.
  - rewrite (lookup_ge_None_2 (CameraView.instances st) g) in Hb by lia.
    destruct Hb as [Hp Hf]. rewrite Hp, Hf.
    destruct (decide (g = length (CameraView.instances st))) as [->|Hne].
    + rewrite list_lookup_middle by done.
      rewrite decide_True by done.
      unfold CameraView.accounted, CameraView.MAX_RETRIES. simpl.
      split; [lia|]. right. lia.
    + rewrite lookup_ge_None_2 by (rewrite length_app; simpl; lia).
      by rewrite decide_False by lia.
Qed.

Lemma resumed_bounded (st : CameraView.State) (g : nat) :
  CameraView.resumed st g -> CameraView.bounded st.
Proof.
  intros [Hfl Hr] g'. specialize (Hr g').
  unfold CameraView.pending_calls. rewrite Hfl. simpl.
  destruct (CameraView.instances st !! g') as [i|]; [|done].
  destruct (decide (g' = g)); [|done].
  unfold CameraView.accounted, CameraView.MAX_RETRIES in *.
  split; [lia|]. left. lia.
Qed.

(** The books after the [catch] block. *)
Lemma catch_block_bounded (g : nat) (err : Http.Thrown) (st : CameraView.State) :
  CameraView.resumed st g ->
  CameraView.bounded (CameraView.catch_block g err st).
Proof.
  intros Hr. pose proof (resumed_bounded st g Hr) as Hb.
  unfold CameraView.catch_block.
  destruct (CameraView.instances st !! g) as [i|] eqn:Hi; [|done].
  destruct (CameraView.mounted i); [|done].
  destruct (CameraView.retryCount i <? CameraView.MAX_RETRIES)%nat eqn:Hlt.
  - apply Nat.ltb_lt in Hlt. destruct Hr as [Hfl Hr].
    intros g'. specialize (Hr g').
    unfold CameraView.pending_timers, CameraView.pending_calls,
      CameraView.update_instance in *.
    simpl. rewrite owned_snoc, Hfl. simpl.
    destruct (decide (g' = g)) as [->|Hg].
    + rewrite list_lookup_alter, decide_True by done.
      rewrite Hi in *. simpl. rewrite decide_True by done.
      unfold CameraView.accounted. simpl. split; [lia|]. right. lia.
    + rewrite list_lookup_alter_ne by done.
      rewrite decide_False by done. rewrite Nat.add_0_r.
      by destruct (CameraView.instances st !! g').
  - eapply bounded_frame; [..|exact Hb]; done.
Qed.

(** The books after the success branch. *)
Lemma connected_bounded (g s : nat) (st : CameraView.State) :
  CameraView.resumed st g -> CameraView.bounded (CameraView.connected g s st).
Proof.
  intros Hr. pose proof (resumed_bounded st g Hr) as Hb.
  unfold CameraView.connected.
  destruct (CameraView.instances st !! g) as [i|] eqn:Hi; [|done].
  destruct (CameraView.mounted i); [|done].
  destruct Hr as [Hfl Hr]. intros g'. specialize (Hr g').
  unfold CameraView.pending_timers, CameraView.pending_calls,
    CameraView.update_instance, CameraView.emit in *.
  simpl. rewrite Hfl. simpl.
  destruct (decide (g' = g)) as [->|Hg].
  - rewrite list_lookup_alter, decide_True by done.
    rewrite Hi in *. simpl.
    unfold CameraView.accounted, CameraView.MAX_RETRIES in *. simpl.
    split; [lia|]. left. lia.
  - rewrite list_lookup_alter_ne by done.
    by destruct (CameraView.instances st !! g').
Qed.

(** Taking the suspended call off the list gives the books of its resumption. *)
Lemma ended_resumed (st : CameraView.State) (f : CameraView.Flight) :
  CameraView.bounded st -> CameraView.flights st = [f] ->
  CameraView.resumed (CameraView.set_flights [] st) (CameraView.caller f).
Proof.
  intros Hb Hfl. split; [done|]. intros g'. specialize (Hb g').
  unfold CameraView.pending_timers, CameraView.pending_calls in *.
  rewrite Hfl in Hb. simpl. rewrite filter_cons, filter_nil in Hb.
  destruct (decide (g' = CameraView.caller f)) as [->|Hg].
  - rewrite decide_True in Hb by done. simpl in Hb.
    destruct (CameraView.instances st !! CameraView.caller f) as [i|];
      [|by destruct Hb].
    unfold CameraView.accounted in Hb. lia.
  - rewrite decide_False in Hb by done.
    destruct (CameraView.instances st !! g') as [i|]; [done | by destruct Hb].
Qed.

Lemma settle_bounded (k : nat) (r : option Http.Thrown) (st : CameraView.State) :
  CameraView.single_flight st -> CameraView.bounded st ->
  CameraView.bounded (CameraView.settle k r st).
Proof.
  intros Hf Hb. unfold CameraView.settle.
  destruct (CameraView.flights st !! k) as [f|] eqn:Hk; [|done].
  destruct (single_flight_lookup st k f Hf Hk) as (-> & Hfl & _ & _).
  pose proof (ended_resumed st f Hb Hfl) as Hr.
  rewrite Hfl. simpl.
  assert (Hkeep : forall p st',
             CameraView.instances st' = CameraView.instances st ->
             CameraView.timers st' = CameraView.timers st ->
             CameraView.flights st'
             = [CameraView.mkFlight (CameraView.caller f) p] ->
             CameraView.bounded st').
  { intros p st' Hi Ht Hf' g'. specialize (Hb g').
    unfold CameraView.pending_timers, CameraView.pending_calls in *.
    rewrite Hi, Ht, Hf'. rewrite Hfl in Hb.
    rewrite !filter_cons, !filter_nil in *. simpl in *.
    by destruct (decide (CameraView.caller f = g')). }
  assert (Hfail : forall err,
             CameraView.bounded
               (CameraView.finally_block
                  (CameraView.catch_block (CameraView.caller f) err
                     (CameraView.set_flights [] st)))).
  { intros err. eapply bounded_frame; [..|by apply catch_block_bounded]; done. }
  destruct r as [err|]; [apply Hfail|].
  destruct (CameraView.phase f) as [|s|s].
  - destruct (negb _).
    + eapply bounded_frame; [..|exact (resumed_bounded _ _ Hr)]; done.
    + destruct (CameraView.videoRef st).
      * by eapply Hkeep.
      * eapply bounded_frame; [..|exact (resumed_bounded _ _ Hr)]; done.
  - destruct (CameraView.videoRef st); [by eapply Hkeep | apply Hfail].
  - eapply bounded_frame;
      [..|exact (connected_bounded (CameraView.caller f) s _ Hr)]; done.
Qed.

(** The books when a call of the run [g] is suspended anew. *)
Lemma suspended_bounded (st st' : CameraView.State) (g : nat)
    (p : CameraView.Phase) :
  CameraView.resumed st g -> is_Some (CameraView.instances st !! g) ->
  CameraView.instances st' = CameraView.instances st ->
  CameraView.timers st' = CameraView.timers st ->
  CameraView.flights st' = [CameraView.mkFlight g p] ->
  CameraView.bounded st'.
Proof.
  intros [_ Hr] [i Hi] Hi' Ht' Hf' g'. specialize (Hr g').
  unfold CameraView.pending_timers, CameraView.pending_calls in *.
  rewrite Hi', Ht', Hf', filter_cons, filter_nil. simpl.
  destruct (decide (g' = g)) as [->|Hg].
  - rewrite Hi in *. rewrite decide_True by done. simpl.
    unfold CameraView.accounted. split; [lia|]. right. lia.
  - rewrite decide_False by done. simpl.
    by destruct (CameraView.instances st !! g').
Qed.

Lemma timer_fires_bounded (h : nat) (st : CameraView.State) :
  CameraView.single_flight st -> CameraView.bounded st ->
  CameraView.bounded (CameraView.step (CameraView.TimerFires h) st).
Proof.
  intros Hf Hb. simpl.
  destruct (find _ _) as [t|] eqn:Hfind; [|done].
  set (g := CameraView.owner t).
  set (st0 := CameraView.clearTimeout h st).
  assert (Hb0 : CameraView.bounded st0).
  { intros g'. specialize (Hb g').
    unfold CameraView.pending_timers, CameraView.pending_calls in *.
    subst st0. simpl.
    pose proof (owned_cleared (CameraView.timers st) h g') as Hle.
    destruct (CameraView.instances st !! g') as [i|].
    - by eapply accounted_mono.
    - lia. }
  unfold CameraView.initCamera.
  destruct (CameraView.instances st0 !! g) as [i|] eqn:Hi; [|done].
  destruct (CameraView.deviceId i) as [d|]; [|done].
  destruct (bool_decide (d = EmptyString)); simpl; [done|].
  destruct (CameraView.initializingRef st) eqn:Hinit; [done|].
  assert (Hnone : CameraView.flights st = []).
  { unfold CameraView.single_flight in Hf.
    destruct (CameraView.flights st) as [|f [|? ?]]; try done.
    destruct Hf; congruence. }
  set (st1 := CameraView.update_instance g _ _).
  assert (Hr : CameraView.resumed st1 g).
  { split; [exact Hnone|]. intros g'. specialize (Hb g').
    unfold CameraView.pending_timers, CameraView.pending_calls in *.
    subst st1 st0. unfold CameraView.update_instance. simpl in *.
    rewrite Hnone in Hb. simpl in Hb.
    destruct (decide (g' = g)) as [->|Hg].
    - rewrite list_lookup_alter, decide_True by done.
      rewrite Hi in *. simpl.
      pose proof (owned_fired (CameraView.timers st) h t Hfind) as Hlt.
      fold g in Hlt. unfold CameraView.accounted in Hb. lia.
    - rewrite list_lookup_alter_ne by done.
      pose proof (owned_cleared (CameraView.timers st) h g') as Hle.
      destruct (CameraView.instances st !! g') as [i'|]; [|lia].
      by eapply accounted_mono. }
  destruct (negb (CameraView.supported st)).
  - eapply bounded_frame; [..|by apply catch_block_bounded]; done.
  - destruct (release_detach_frame st1) as (Hi' & Ht' & Hf' & _).
    eapply (suspended_bounded st1 _ g CameraView.AwaitStream Hr).
    + subst st1. unfold CameraView.update_instance. simpl.
      rewrite list_lookup_alter, decide_True by done.
      subst st0. simpl in Hi. rewrite Hi. by eexists.
    + simpl. exact Hi'.
    + simpl. exact Ht'.
    + simpl. rewrite Hf'. subst st1. simpl. by rewrite Hnone.
Qed.

Lemma step_bounded (ev : CameraView.Event) (st : CameraView.State) :
  CameraView.single_flight st -> CameraView.bounded st ->
  CameraView.bounded (CameraView.step ev st).
Proof.
  intros Hf Hb. destruct ev as [d| |h|k r|[|]|s].
  - simpl. by apply run_effect_bounded, cleanup_current_bounded.
  - simpl. by apply cleanup_current_bounded.
  - by apply timer_fires_bounded.
  - simpl. by apply settle_bounded.
  - simpl. by destruct (CameraView.videoRef st).
  - done.
  - done.
Qed.

Lemma run_bounded (evs : list CameraView.Event) (st : CameraView.State) :
  CameraView.held st -> CameraView.single_flight st -> CameraView.bounded st ->
  CameraView.bounded (CameraView.run evs st).
Proof.
  unfold CameraView.run. revert st.
  induction evs as [|ev evs IH]; intros st Hh Hf Hb; simpl; [done|].
  destruct (step_inv ev st Hh Hf) as [Hh' Hf'].
  apply IH; try done. by apply step_bounded.
Qed.

Lemma initial_bounded (sup : bool) : CameraView.bounded (CameraView.initial sup).
Proof. intros g. by destruct g. Qed.

(** ** C5: bounded retries *)

Lemma catch_block_timers (g : nat) (err : Http.Thrown) (st : CameraView.State)
    (t : CameraView.Timer) :
  t ∈ CameraView.timers (CameraView.catch_block g err st) ->
  t ∈ CameraView.timers st \/
  (CameraView.owner t = g /\ CameraView.delay t = 3000).
Proof.
  unfold CameraView.catch_block.
  destruct (CameraView.instances st !! g) as [i|]; [|by left].
  destruct (CameraView.mounted i); [|by left].
  destruct (_ <? _)%nat; simpl; [|by left].
  intros [H|H]%elem_of_app; [by left|].
  apply list_elem_of_singleton in H as ->. by right.
Qed.

Lemma settle_exhausted (st : CameraView.State) (k : nat)
    (f : CameraView.Flight) (i : CameraView.Instance) (err : Http.Thrown) :
  CameraView.flights st !! k = Some f ->
  CameraView.instances st !! CameraView.caller f = Some i ->
  CameraView.mounted i = true ->
  CameraView.retryCount i = CameraView.MAX_RETRIES ->
  let st' := CameraView.step (CameraView.Settles k (Some err)) st in
  CameraView.hasError st' = true /\
  CameraView.log st'
  = CameraView.log st
    ++ [CameraView.Notify (CameraView.error_toast (CameraView.deviceId i) err)] /\
  CameraView.timers st' = CameraView.timers st /\
  CameraView.initializingRef st' = false.
Proof.
  intros Hk Hi Hm Hrc. simpl. unfold CameraView.settle. rewrite Hk.
  unfold CameraView.catch_block. simpl. rewrite Hi, Hm, Hrc. done.
Qed.

(** C5.  A run of the effect retries its stream acquisition at most 7
    times, and so enters [initCamera]'s attempt at most 8 times, in every
    execution: the timer-driven loop cannot go on.  Every timer the [catch]
    block sets has a delay of 3000 ms.  A failure that arrives when the 7
    retries are used up is shown in the error toast, with the message of
    that last error, and no timer is set.  The permission probe loop
    returns after at most 5 requests, waiting 3000 ms between them; when all
    five are rejected it throws the error of the last one. *)
Theorem retries_are_bounded :
  (forall sup evs g i,
     CameraView.instances (CameraView.run evs (CameraView.initial sup)) !! g
     = Some i ->
     (CameraView.retryCount i <= CameraView.MAX_RETRIES)%nat /\
     (CameraView.attempts i <= S CameraView.MAX_RETRIES)%nat) /\
  (forall g err st t,
     t ∈ CameraView.timers (CameraView.catch_block g err st) ->
     t ∈ CameraView.timers st \/
     (CameraView.owner t = g /\ CameraView.delay t = 3000)) /\
  (forall st k f i err,
     CameraView.flights st !! k = Some f ->
     CameraView.instances st !! CameraView.caller f = Some i ->
     CameraView.mounted i = true ->
     CameraView.retryCount i = CameraView.MAX_RETRIES ->
     let st' := CameraView.step (CameraView.Settles k (Some err)) st in
     CameraView.hasError st' = true /\
     CameraView.log st'
     = CameraView.log st
       ++ [CameraView.Notify
             (CameraView.error_toast (CameraView.deviceId i) err)] /\
     CameraView.timers st' = CameraView.timers st /\
     CameraView.initializingRef st' = false) /\
  (forall e fuel,
     (Registry.MAX_PERMISSION_ATTEMPTS <= fuel)%nat ->
     exists n effs r,
       Registry.permission_loop fuel e 0 = Some (n, effs, r) /\
       (n <= Registry.MAX_PERMISSION_ATTEMPTS)%nat /\
       (Registry.probes effs <= Registry.MAX_PERMISSION_ATTEMPTS)%nat /\
       Forall (fun ms => ms = 3000) (Registry.waits effs) /\
       (Registry.probe_exhausted e ->
        exists err, Registry.probe_last_error e err /\ r = Some err /\
                    Registry.probes effs = Registry.MAX_PERMISSION_ATTEMPTS)).
Proof.
  split; [|split; [|split]].
  - intros sup evs g i Hi.
    pose proof (run_bounded evs (CameraView.initial sup)) as Hb.
    specialize (Hb (or_introl eq_refl) eq_refl (initial_bounded sup) g).
    rewrite Hi in Hb. by eapply accounted_bounds.
  - apply catch_block_timers.
  - apply settle_exhausted.
  - intros e fuel Hfuel. unfold Registry.MAX_PERMISSION_ATTEMPTS in *.
    destruct (permission_loop_spec e fuel 0)
      as (n & effs & r & Hloop & Hn & Hp & Hw & _ & Herr & Hok); [lia..|].
    exists n, effs, r. split; [done|]. split; [lia|]. split; [lia|].
    split; [done|]. intros Hex.
    destruct r as [err|].
    + destruct (Herr err eq_refl) as (_ & Hl & Hp5 & _). by exists err.
    + destruct (Hok eq_refl) as [Hlt Hgrant]; [lia|].
      destruct (Hex n) as [x Hx]; [done | congruence].
Qed.

Lemma retries_are_bounded_witness :
  (exists i,
     CameraView.instances
       (CameraView.run Sample.all_fail (CameraView.initial true)) !! 0%nat
     = Some i /\
     CameraView.retryCount i = 7%nat /\ CameraView.attempts i = 8%nat /\
     (CameraView.retryCount i <= CameraView.MAX_RETRIES)%nat /\
     (CameraView.attempts i <= S CameraView.MAX_RETRIES)%nat) /\
  CameraView.timers (CameraView.run Sample.all_fail (CameraView.initial true))
  = [] /\
  last (CameraView.log (CameraView.run Sample.all_fail (CameraView.initial true)))
  = Some (CameraView.Notify
            {| title := "Camera Error";
               description :=
                 "Failed to initialize camera camA after 7 attempts: Permission denied";
               variant := Destructive |}) /\
  exists n effs,
    Registry.permission_loop 5 Sample.locked 0
    = Some (n, effs, Some Sample.denied) /\
    Registry.probes effs = 5%nat /\
    Registry.waits effs = [3000; 3000; 3000; 3000].
Proof.
  destruct retries_are_bounded as (Hbound & _ & _ & Hprobe).
  assert (Hi : CameraView.instances
                 (CameraView.run Sample.all_fail (CameraView.initial true)) !! 0%nat
               = Some {| CameraView.deviceId := Some "camA";
                         CameraView.mounted := true;
                         CameraView.retryTimeout := Some 7%nat;
                         CameraView.retryCount := 7;
                         CameraView.attempts := 8 |})
    by (vm_compute; reflexivity).
  split; [|split; [vm_compute; reflexivity|split; [vm_compute; reflexivity|]]].
  - eexists. split; [exact Hi|]. split; [reflexivity|].
    split; [reflexivity|].
    exact (Hbound true Sample.all_fail 0%nat _ Hi).
  - destruct (Hprobe Sample.locked 5%nat) as (n & effs & r & Hloop & _).
    { vm_compute. lia. }
    vm_compute in Hloop. injection Hloop as <- <- <-.
    eexists _, _. split; [vm_compute; reflexivity|].
    split; vm_compute; reflexivity.
Defined.

(** ** Scenarios *)

(** Switch to slot 1 and capture fifteen times: the counter is at 15, and a
    sixteenth click changes nothing and sends nothing. *)
Example fifteen_captures_then_refused :
  let st := Sample.captures 15 (Index.handleCameraSwitch 1 Index.initial) in
  Index.captureCounts st = [Js.Num 0; Js.Num 15; Js.Num 0] /\
  IntrinsicStep.click Sample.devices 1 Sample.ready
    (Sample.shot (Sample.found 4)) st
  = {| Intrinsic.local := Sample.ready; Intrinsic.parent := st;
       Intrinsic.effects := [] |}.
Proof. vm_compute. split; reflexivity. Qed.

(** Two failed attempts, then a stream: the slot holds the third attempt's
    stream, attached and live, and the only toast is the success one. *)
Example third_attempt_connects :
  let st := CameraView.run Sample.third_time_lucky (CameraView.initial true) in
  CameraView.live st = [0%nat] /\
  CameraView.streamRef st = Some 0%nat /\
  CameraView.videoRef st = Some (Some 0%nat) /\
  CameraView.hasError st = false /\
  CameraView.isInitializing st = false /\
  CameraView.timers st = [] /\
  CameraView.log st
  = [CameraView.GetUserMedia 0 "camA"; CameraView.GetUserMedia 0 "camA";
     CameraView.GetUserMedia 0 "camA"; CameraView.OnStream 0;
     CameraView.Notify
       {| title := "Camera Connected";
          description := "Successfully connected to camera camA in Camera Setup";
          variant := Default |}].
Proof. vm_compute. repeat split. Qed.

(** Two detections of three: no start request, and the error is shown. *)
Example two_of_three_starts_nothing :
  let r := Extrinsic.captureImage Sample.url Sample.rig_two_of_three
             Extrinsic.initial Service.initial in
  Extrinsic.job_requested Service.initial r = false /\
  length (Extrinsic.requests Service.initial r) = 3%nat /\
  Extrinsic.calibrationProgress (Extrinsic.state r)
  = {| Extrinsic.status := Extrinsic.error; Extrinsic.progress := 0;
       Extrinsic.message := "Failed to detect markers in all camera views" |} /\
  Service.intervals (Extrinsic.service r) = [].
Proof. vm_compute. repeat split. Qed.

(** Three detections of three: the start request names cameras 0, 1 and 2,
    and the service polls. *)
Example three_of_three_starts_job :
  let r := Extrinsic.captureImage Sample.url
             (Sample.rig_all (Http.Response 200 Sample.ack))
             Extrinsic.initial Service.initial in
  last (Extrinsic.requests Service.initial r)
  = Some (Service.PostStartCalibration
            "http://127.0.0.1:8000/start_calibration" [0; 1; 2]%nat
            (Some Service.config)) /\
  Service.isCalibrating (Extrinsic.service r) = true /\
  Service.intervals (Extrinsic.service r) = [(0%nat, 1000)].
Proof. vm_compute. repeat split. Qed.

(* ================================================================== *)
(** * Part III: further properties of the code *)
(* ================================================================== *)

(** ** The wizard page *)

Lemma set_length_in_range (a : list Js.val) (i : nat) (v : Js.val) :
  (i < length a)%nat -> length (Js.set a i v) = length a.
Proof.
  intros Hi. unfold Js.set. rewrite decide_True by done.
  apply length_insert.
Qed.

Lemma act_counters_ok (a : Index.Action) (st : Index.State) :
  Index.on_rig a -> Index.counters_ok st -> Index.counters_ok (Index.act a st).
Proof.
  intros Hrig [Hlen Hnum].
  destruct a as [| |i|i]; simpl.
  - by destruct (Index.previous_disabled st).
  - by destruct (Index.next_disabled st).
  - unfold Index.on_rig in Hrig. simpl in Hrig.
    split; [simpl; rewrite set_length_in_range; lia|].
    intros j Hj. unfold Index.count. simpl.
    destruct (decide (j = i)) as [->|Hne].
    + rewrite get_set_eq. exists 0. split; [done | lia].
    + rewrite get_set_ne by done. by apply Hnum.
  - unfold Index.on_rig in Hrig. simpl in Hrig.
    split; [simpl; rewrite set_length_in_range; lia|].
    intros j Hj. unfold Index.count. simpl.
    destruct (decide (j = i)) as [->|Hne].
    + rewrite get_set_eq. destruct (Hnum i Hj) as (z & Hz & Hr).
      unfold Index.count in Hz. rewrite Hz. simpl.
      exists (Z.min (z + 1) 15). split; [done | lia].
    + rewrite get_set_ne by done. by apply Hnum.
Qed.

Lemma act_step_in_range (a : Index.Action) (st : Index.State) :
  (Index.currentStep st <= 4)%nat ->
  (Index.currentStep (Index.act a st) <= 4)%nat.
Proof.
  intros Hs. destruct a as [| |i|i]; simpl; try done.
  - destruct (Index.previous_disabled st); simpl; [done|]. lia.
  - destruct (Index.next_disabled st); simpl; [done|]. lia.
Qed.

(** X1.  Whatever the user does on the page (navigating, switching to one
    of the three slots, having captures of them confirmed, in any order and
    number), there are three counters, each a number between 0 and 15, and
    the current step is one of the five. *)
Theorem page_keeps_counters_in_range (l : list Index.Action)
    (Hrig : Forall Index.on_rig l) :
  Index.counters_ok (Index.acts l Index.initial) /\
  (Index.currentStep (Index.acts l Index.initial) < length Index.STEPS)%nat.
Proof.
  assert (H : forall st,
             Index.counters_ok st -> (Index.currentStep st <= 4)%nat ->
             Index.counters_ok (Index.acts l st) /\
             (Index.currentStep (Index.acts l st) <= 4)%nat).
  { unfold Index.acts. induction Hrig as [|a l Ha Hl IH]; intros st Hc Hs;
      simpl; [done|].
    apply IH; [by apply act_counters_ok | by apply act_step_in_range]. }
  destruct (H Index.initial) as [Hc Hs].
  - split; [done|]. intros i Hi. exists 0.
    split; [|lia]. by repeat (destruct i as [|i]; [done|]); lia.
  - simpl. lia.
  - split; [done|]. simpl. lia.
Qed.

Lemma page_keeps_counters_in_range_witness :
  Index.counters_ok
    (Index.acts (Index.ClickNext :: replicate 20 (Index.Confirmed 2))
       Index.initial) /\
  Index.count
    (Index.acts (Index.ClickNext :: replicate 20 (Index.Confirmed 2))
       Index.initial) 2 = Js.Num 15.
Proof.
  split; [|vm_compute; reflexivity].
  apply (page_keeps_counters_in_range
           (Index.ClickNext :: replicate 20 (Index.Confirmed 2))).
  repeat constructor.
Defined.

(** X2.  A confirmed capture on slot [i] whose counter is below 15 raises
    that counter by exactly one, and touches neither the counter of any
    other slot, nor the active slot, nor the current step. *)
Theorem handleCapture_counts_one_and_frames
    (st : Index.State) (i j : nat) (z : Z)
    (Hz : Index.count st i = Js.Num z) (Hlt : z < 15) (Hne : j <> i) :
  Index.count (Index.handleCapture i st) i = Js.Num (z + 1) /\
  Index.count (Index.handleCapture i st) j = Index.count st j /\
  Index.currentCamera (Index.handleCapture i st) = Index.currentCamera st /\
  Index.currentStep (Index.handleCapture i st) = Index.currentStep st /\
  length (Index.captureCounts (Index.handleCapture i st))
  = length (Index.captureCounts st).
Proof.
  unfold Index.count in *. unfold Index.handleCapture; simpl.
  rewrite get_set_eq, Hz. simpl. rewrite Z.min_l by lia.
  split; [done|]. split; [by apply get_set_ne|]. repeat split.
  apply set_length_in_range. by apply get_num_in_range in Hz as [? _].
Qed.

Lemma handleCapture_counts_one_and_frames_witness :
  Index.count (Index.handleCapture 0 (Sample.page 9)) 0 = Js.Num (9 + 1) /\
  Index.count (Index.handleCapture 0 (Sample.page 9)) 1
  = Index.count (Sample.page 9) 1.
Proof.
  pose proof (handleCapture_counts_one_and_frames (Sample.page 9) 0 1 9) as H.
  destruct H as (H1 & H2 & _); [reflexivity | lia | lia |].
  split; [exact H1 | exact H2].
Defined.

(** X3.  On an index past the end of the counter array nothing is
    rejected: [handleCapture] lengthens the array up to that index and
    stores [NaN] there, and [handleCameraSwitch] lengthens it and stores 0;
    the cells in between are holes and the counters that were there are
    kept. *)
Theorem counters_grow_on_foreign_index (st : Index.State) (i : nat)
    (Hout : (length (Index.captureCounts st) <= i)%nat) :
  Index.captureCounts (Index.handleCapture i st)
  = Index.captureCounts st
    ++ replicate (i - length (Index.captureCounts st)) Js.Undef ++ [Js.NaN] /\
  Index.captureCounts (Index.handleCameraSwitch i st)
  = Index.captureCounts st
    ++ replicate (i - length (Index.captureCounts st)) Js.Undef ++ [Js.Num 0] /\
  length (Index.captureCounts (Index.handleCapture i st)) = S i.
Proof.
  unfold Index.handleCapture, Index.handleCameraSwitch, Js.set, Js.get; simpl.
  rewrite !decide_False by lia.
  rewrite lookup_ge_None_2 by done. simpl.
  repeat split. rewrite !length_app, length_replicate. simpl. lia.
Qed.

Lemma counters_grow_on_foreign_index_witness :
  Index.captureCounts (Index.handleCapture 5 Index.initial)
  = [Js.Num 0; Js.Num 0; Js.Num 0; Js.Undef; Js.Undef; Js.NaN].
Proof.
  pose proof (counters_grow_on_foreign_index Index.initial 5) as H.
  destruct H as (H & _); [simpl; lia|].
  exact H.
Defined.

(** X4.  On a page whose step is one of the five, a click on Next moves one
    step forward except on the last step, a click on Previous moves one
    step back except on the first; each undoes the other away from the
    ends; the clamps in the handlers make the buttons' [disabled]
    attributes redundant; and navigating changes no counter and not the
    active slot. *)
Theorem navigation_moves_one_step (st : Index.State)
    (Hs : (Index.currentStep st < length Index.STEPS)%nat) :
  Index.currentStep (Index.act Index.ClickNext st)
  = (if decide (Index.currentStep st = 4%nat) then 4%nat
     else S (Index.currentStep st)) /\
  Index.currentStep (Index.act Index.ClickPrevious st)
  = pred (Index.currentStep st) /\
  Index.act Index.ClickNext st = Index.onNext st /\
  Index.act Index.ClickPrevious st = Index.onPrevious st /\
  ((Index.currentStep st < 4)%nat ->
   Index.act Index.ClickPrevious (Index.act Index.ClickNext st) = st) /\
  ((0 < Index.currentStep st)%nat ->
   Index.act Index.ClickNext (Index.act Index.ClickPrevious st) = st) /\
  Index.captureCounts (Index.act Index.ClickNext st) = Index.captureCounts st /\
  Index.captureCounts (Index.act Index.ClickPrevious st) = Index.captureCounts st.
Proof.
  destruct st as [step cam counts cap]. simpl in *.
  unfold Index.previous_disabled, Index.next_disabled, Index.onNext,
    Index.onPrevious, Index.set_currentStep. simpl.
  assert (Hcases : (step = 0 \/ step = 1 \/ step = 2 \/ step = 3 \/ step = 4)%nat)
    by lia.
  destruct Hcases as [->|[->|[->|[->| ->]]]]; simpl;
    repeat split; try done; intros; lia.
Qed.

Lemma navigation_moves_one_step_witness :
  Index.currentStep (Index.act Index.ClickNext (Sample.page 3)) = 2%nat /\
  Index.act Index.ClickPrevious (Index.act Index.ClickNext (Sample.page 3))
  = Sample.page 3.
Proof.
  pose proof (navigation_moves_one_step (Sample.page 3)) as H.
  destruct H as (H1 & _ & _ & _ & H2 & _); [simpl; lia|].
  split; [exact H1 | apply H2; simpl; lia].
Defined.

(** ** The calibration service *)

Lemma step_calibrating (u : Service.UrlEnv) (ev : Service.Event)
    (st : Service.State) :
  (Service.isCalibrating st = true <-> is_Some (Service.progressInterval st)) ->
  (Service.isCalibrating (Service.step u ev st) = true
   <-> is_Some (Service.progressInterval (Service.step u ev st))).
Proof.
  intros H.
  assert (Hstop : false = true <-> is_Some (@None nat))
    by (split; [done | by intros [? ?]]).
  destruct ev as [ci o|o|h|o]; simpl.
  - unfold Service.startCalibration.
    destruct o as [err|s err|s b]; simpl; try done.
    destruct (Http.ok s); simpl; [|done]. split; [by eexists | done].
  - unfold Service.stopCalibration.
    destruct o as [err|s err|s b]; simpl; try done.
    destruct (Http.ok s); simpl; [exact Hstop | done].
  - by case_bool_decide.
  - destruct (Service.polls st); [done|].
    unfold Service.poll_settled.
    destruct (Service.getProgress o); [|exact Hstop].
    destruct (_ || _); [exact Hstop | done].
Qed.

Lemma run_calibrating (u : Service.UrlEnv) (evs : list Service.Event)
    (st : Service.State) :
  (Service.isCalibrating st = true <-> is_Some (Service.progressInterval st)) ->
  (Service.isCalibrating (Service.run u evs st) = true
   <-> is_Some (Service.progressInterval (Service.run u evs st))).
Proof.
  unfold Service.run. revert st.
  induction evs as [|ev evs IH]; intros st H; simpl; [done|].
  apply IH. by apply step_calibrating.
Qed.

(** X5.  In every state the service can reach, at most one polling interval
    is running; it runs exactly while [isCalibrating] is set; it is the one
    the service holds in [progressInterval]; and its period is 1000 ms.
    Starting again never stacks a second interval on the first. *)
Theorem service_polls_exactly_while_calibrating
    (u : Service.UrlEnv) (evs : list Service.Event) :
  let st := Service.run u evs Service.initial in
  (length (Service.intervals st) <= 1)%nat /\
  (Service.isCalibrating st = true <-> Service.intervals st <> []) /\
  forall iv, iv ∈ Service.intervals st ->
             Service.progressInterval st = Some iv.1 /\ iv.2 = 1000.
Proof.
  intros st.
  assert (Hc : Service.consistent st) by (by apply run_consistent).
  assert (Hi : Service.isCalibrating st = true
               <-> is_Some (Service.progressInterval st)).
  { apply run_calibrating. simpl. split; [done | by intros [? ?]]. }
  unfold Service.consistent in Hc.
  destruct (Service.progressInterval st) as [h|]; rewrite Hc; simpl.
  - split; [lia|]. split.
    + split; [done|]. intros _. apply Hi. by eexists.
    + by intros iv ->%list_elem_of_singleton.
  - split; [lia|]. split.
    + split; [|done]. intros Ht. apply Hi in Ht as [? ?]. done.
    + by intros iv ?%elem_of_nil.
Qed.



Lemma goes_on_step (u : Service.UrlEnv) (h : nat) (ev : Service.Event)
    (st : Service.State) :
  Service.goes_on h ev ->
  Service.isCalibrating st = true ->
  Service.progressInterval st = Some h ->
  Service.intervals st = [(h, 1000)] ->
  Service.isCalibrating (Service.step u ev st) = true /\
  Service.progressInterval (Service.step u ev st) = Some h /\
  Service.intervals (Service.step u ev st) = [(h, 1000)] /\
  Service.progress_requests (Service.step u ev st)
  = (Service.progress_requests st + if Service.is_tick ev then 1 else 0)%nat.
Proof.
  intros Hev Hcal Hp Hi. destruct ev as [ci o|o|h'|o]; simpl in *; try done.
  - subst h'. rewrite Hi. simpl.
    rewrite bool_decide_eq_true_2 by (by apply list_elem_of_singleton).
    simpl. repeat split; try done.
    apply (progress_requests_send (Service.GetCalibrationProgress _) st).
  - destruct Hev as (b & Hb & Hlt).
    destruct (Service.polls st) as [|n]; [repeat split; try done; lia|].
    unfold Service.poll_settled, Service.getProgress.
    unfold Service.answered_ok in Hb.
    destruct o as [err|s err|s b']; try done.
    destruct (Http.ok s); [|done]. injection Hb as ->. simpl.
    rewrite Hcal, Hlt. simpl.
    repeat split; try done; unfold Service.progress_requests; simpl; lia.
Qed.

(** X8.  Polling has no timeout of its own.  While the backend answers
    with a progress below 100, or with none at all, the interval stays and
    [isCalibrating] stays set, and every tick sends one more progress
    request, however many there are. *)
Theorem polling_goes_on_below_100
    (u : Service.UrlEnv) (h : nat) (evs : list Service.Event)
    (st : Service.State)
    (Hev : Forall (Service.goes_on h) evs)
    (Hcal : Service.isCalibrating st = true)
    (Hp : Service.progressInterval st = Some h)
    (Hi : Service.intervals st = [(h, 1000)]) :
  Service.isCalibrating (Service.run u evs st) = true /\
  Service.intervals (Service.run u evs st) = [(h, 1000)] /\
  Service.progress_requests (Service.run u evs st)
  = (Service.progress_requests st
     + length (filter (fun ev => Service.is_tick ev = true) evs))%nat.
Proof.
  unfold Service.run. revert st Hcal Hp Hi.
  induction Hev as [|ev evs H Hevs IH]; intros st Hcal Hp Hi; simpl.
  - repeat split; try done; rewrite ?filter_nil; simpl; lia.
  - destruct (goes_on_step u h ev st H Hcal Hp Hi) as (H1 & H2 & H3 & H4).
    destruct (IH _ H1 H2 H3) as (H5 & H6 & H7).
    split; [done|]. split; [done|]. rewrite H7, H4, filter_cons.
    destruct (Service.is_tick ev); simpl; lia.
Qed.

Lemma polling_goes_on_below_100_witness :
  Service.intervals
    (Service.run Sample.url
       [Service.Tick 0; Service.PollSettles (Sample.progress_at 99);
        Service.PollSettles Sample.progress_missing; Service.Tick 0]
       (Service.run Sample.url Sample.polling Service.initial))
  = [(0%nat, 1000)] /\
  Service.progress_requests
    (Service.run Sample.url
       [Service.Tick 0; Service.PollSettles (Sample.progress_at 99);
        Service.PollSettles Sample.progress_missing; Service.Tick 0]
       (Service.run Sample.url Sample.polling Service.initial))
  = 3%nat.
Proof.
  pose proof (polling_goes_on_below_100 Sample.url 0
                [Service.Tick 0; Service.PollSettles (Sample.progress_at 99);
                 Service.PollSettles Sample.progress_missing; Service.Tick 0]
                (Service.run Sample.url Sample.polling Service.initial)) as H.
  destruct H as (_ & H1 & H2).
  - repeat constructor; simpl; eexists; split; reflexivity.
  - reflexivity.
  - reflexivity.
  - reflexivity.
  - split; [exact H1 | exact H2].
Defined.



(** ** The intrinsic capture *)

Lemma toasts_notify (t : Toast) : Intrinsic.toasts [Intrinsic.Notify t] = [t].
Proof. done. Qed.

(** X11.  A run of [captureAndDetect] passes the capture on to the page
    exactly when it got as far as sending the frame and the answer counts:
    an ok status, [success] and [detected] in the body, and no marker with
    fewer than four corners.  A confirmed detection whose markers cannot be
    drawn is not counted.  In every other case the page is left as it
    was. *)
Theorem captureAndDetect_counts_exactly
    (p : Intrinsic.Props) (l : Intrinsic.Local) (e : Intrinsic.Env)
    (st : Index.State) :
  let r := Intrinsic.captureAndDetect p l e st in
  Intrinsic.parent r
  = (if Intrinsic.sends p l e && Intrinsic.counts e
     then Intrinsic.onCapture p st else st) /\
  (Intrinsic.Captured ∈ Intrinsic.effects r
   <-> Intrinsic.sends p l e && Intrinsic.counts e = true) /\
  length (Intrinsic.fetches (Intrinsic.effects r))
  = (if Intrinsic.sends p l e then 1 else 0)%nat.
Proof.
  unfold Intrinsic.captureAndDetect, Intrinsic.sends, Intrinsic.counts.
  assert (Hno1 : forall x : Intrinsic.Effect,
             x <> Intrinsic.Captured -> Intrinsic.Captured ∈ [x] <-> false = true).
  { intros x Hx. split; [|done]. intros H%list_elem_of_singleton. congruence. }
  assert (Hno2 : forall q err,
             Intrinsic.Captured
               ∈ [Intrinsic.Fetch q; Intrinsic.capture_error err]
             <-> false = true).
  { intros q err. split; [|done].
    intros [?|H]%elem_of_cons; [done|].
    by apply list_elem_of_singleton in H. }
  destruct (Intrinsic.isCapturing l), (Intrinsic.streamReady l); simpl;
    try (split; [done|]; split; [|done]; split; [by intros ?%elem_of_nil | done]).
  destruct (bool_decide _); simpl;
    [|split; [done|]; split; [|done]; split; [by intros ?%elem_of_nil | done]].
  destruct (Intrinsic.video e), (Intrinsic.canvas e); simpl;
    try (split; [done|]; split; [by apply Hno1 | done]).
  destruct (Intrinsic.context e); simpl;
    [|split; [done|]; split; [by apply Hno1 | done]].
  destruct (Intrinsic.outcome e) as [err|s err|s b]; simpl.
  - split; [done|]. split; [apply Hno2 | done].
  - destruct (Http.ok s); simpl; (split; [done|]; split; [apply Hno2 | done]).
  - destruct (Http.ok s); simpl; [|split; [done|]; split; [apply Hno2 | done]].
    destruct (Service.body_success b), (Service.body_detected b); simpl;
      try (split; [done|]; split; [apply Hno2 | done]).
    destruct (Intrinsic.draw_throws b); simpl;
      [split; [done|]; split; [apply Hno2 | done]|].
    split; [done|]. split; [|done].
    split; [done|]. intros _. apply elem_of_cons. right. by left.
Qed.

(** X12.  Every run of [captureAndDetect] that passes its guard ends with
    [isCapturing] cleared and shows exactly one toast: the plain "Success"
    toast when the capture was counted, a destructive one otherwise.  A
    run stopped by the guard (a capture in flight, a stream not ready, no
    device in the slot) does nothing at all. *)
Theorem captureAndDetect_ends_with_one_toast
    (p : Intrinsic.Props) (l : Intrinsic.Local) (e : Intrinsic.Env)
    (st : Index.State) :
  let r := Intrinsic.captureAndDetect p l e st in
  if negb (Intrinsic.isCapturing l) && Intrinsic.streamReady l
     && bool_decide (is_Some (Intrinsic.cameraDevices p !! Intrinsic.cameraIndex p))
  then
    Intrinsic.isCapturing (Intrinsic.local r) = false /\
    Intrinsic.streamReady (Intrinsic.local r) = Intrinsic.streamReady l /\
    exists t,
      Intrinsic.toasts (Intrinsic.effects r) = [t] /\
      variant t = (if Intrinsic.sends p l e && Intrinsic.counts e
                   then Default else Destructive)
  else r = {| Intrinsic.local := l; Intrinsic.parent := st;
              Intrinsic.effects := [] |}.
Proof.
  unfold Intrinsic.captureAndDetect, Intrinsic.sends, Intrinsic.counts,
    Intrinsic.settled.
  destruct l as [[|] [|]]; simpl; try done.
  destruct (bool_decide _); simpl; [|done].
  destruct (Intrinsic.video e), (Intrinsic.canvas e); simpl;
    try (by repeat split; eexists).
  destruct (Intrinsic.context e); simpl; [|by repeat split; eexists].
  destruct (Intrinsic.outcome e) as [err|s err|s b]; simpl.
  - by repeat split; eexists.
  - destruct (Http.ok s); simpl; by repeat split; eexists.
  - destruct (Http.ok s); simpl; [|by repeat split; eexists].
    destruct (Service.body_success b), (Service.body_detected b); simpl;
      try (by repeat split; eexists).
    destruct (Intrinsic.draw_throws b); simpl; by repeat split; eexists.
Qed.

(** X13.  The display and the gate agree on every counter the page can
    hold: for a number [z], the captures shown and the captures remaining
    are numbers that add up to 15, the remaining ones are never negative,
    and the capture button is disabled by the counter exactly when none
    remain.  A counter above 15 would be shown as 15 with none remaining. *)
Theorem display_agrees_with_gate (z : Z) :
  exists shown remaining,
    Intrinsic.shown_captures (Js.Num z) = Js.Num shown /\
    Intrinsic.shown_remaining (Js.Num z) = Js.Num remaining /\
    shown + remaining = 15 /\ 0 <= remaining /\ shown <= 15 /\
    (Js.geb (Js.Num z) Intrinsic.totalRequiredImages = true <-> remaining = 0).
Proof.
  exists (Z.min z 15), (15 - Z.min z 15).
  unfold Intrinsic.shown_remaining, Intrinsic.shown_captures,
    Intrinsic.totalRequiredImages. simpl.
  rewrite Z.leb_le. repeat split; try done; lia.
Qed.

(** ** The extrinsic capture *)


(** X14.  A run of [captureImage] never leaves the job state in between: it
    ends at [complete] with progress 100 when the join of the three
    detections succeeded, and at [error] with progress 0 otherwise; it shows
    exactly one toast, plain on [complete] and destructive on [error]; and on
    [error] the toast carries the same message as the job state. *)
Theorem captureImage_ends_complete_or_error
    (u : Service.UrlEnv) (e : Extrinsic.Env) (st : Extrinsic.State)
    (sv : Service.State) :
  let r := Extrinsic.captureImage u e st sv in
  let p := Extrinsic.calibrationProgress (Extrinsic.state r) in
  exists t,
    Extrinsic.toasts r = [t] /\
    last (Extrinsic.shown r) = Some p /\
    head (Extrinsic.shown r) = Some Extrinsic.progress_detecting /\
    if Extrinsic.all_ok u e
    then p = Extrinsic.progress_complete /\ variant t = Default
    else Extrinsic.status p = Extrinsic.error /\ Extrinsic.progress p = 0 /\
         variant t = Destructive /\ description t = Extrinsic.message p.
Proof.
  unfold Extrinsic.captureImage, Extrinsic.all_ok.
  destruct (Extrinsic.promise_all _) as [results|err]; simpl.
  - destruct (forallb _ results); simpl.
    + destruct (Service.startCalibration _ _ _ _) as [res sv2]. simpl.
      eexists. repeat split.
    + eexists. repeat split.
  - eexists. repeat split.
Qed.

Lemma promise_all_first_rejection (u : Service.UrlEnv) (e : Extrinsic.Env)
    (i : nat) (err : Http.Thrown) :
  i ∈ Extrinsic.selectedCameras ->
  (forall j, (j < i)%nat -> exists x, Extrinsic.detect_one u e j = inl x) ->
  Extrinsic.detect_one u e i = inr err ->
  Extrinsic.promise_all (Extrinsic.detections u e) = inr err.
Proof.
  unfold Extrinsic.detections, Extrinsic.selectedCameras. simpl.
  intros Hi Hbefore Hrej.
  apply elem_of_cons in Hi as [->|Hi]; [by rewrite Hrej|].
  destruct (Hbefore 0%nat) as [x0 H0];
    [apply elem_of_cons in Hi as [->|Hi]; [lia|];
     apply list_elem_of_singleton in Hi as ->; lia|].
  rewrite H0.
  apply elem_of_cons in Hi as [->|Hi]; [by rewrite Hrej|].
  apply list_elem_of_singleton in Hi as ->.
  destruct (Hbefore 1%nat) as [x1 H1]; [lia|].
  by rewrite H1, Hrej.
Qed.

(** X15.  When a camera has no video element, the run fails and names the
    first such camera, counted from 1, both in the job state and in the
    toast, whatever the cameras after it do; no start request is sent. *)
Theorem captureImage_names_first_missing_camera
    (u : Service.UrlEnv) (e : Extrinsic.Env) (st : Extrinsic.State)
    (sv : Service.State) (i : nat)
    (Hi : i ∈ Extrinsic.selectedCameras)
    (Hbefore : forall j, (j < i)%nat -> Extrinsic.grab e j = Extrinsic.Frame)
    (Hmissing : Extrinsic.grab e i = Extrinsic.NoVideo) :
  let r := Extrinsic.captureImage u e st sv in
  Extrinsic.calibrationProgress (Extrinsic.state r)
  = {| Extrinsic.status := Extrinsic.error; Extrinsic.progress := 0;
       Extrinsic.message :=
         "Camera " +:+ pretty (i + 1)%nat +:+ " not available" |} /\
  Extrinsic.toasts r
  = [{| title := "Error";
        description := "Camera " +:+ pretty (i + 1)%nat +:+ " not available";
        variant := Destructive |}] /\
  Extrinsic.job_requested sv r = false.
Proof.
  intros r. subst r.
  assert (Hrej : Extrinsic.promise_all (Extrinsic.detections u e)
                 = inr (Http.Err ("Camera " +:+ pretty (i + 1)%nat
                                  +:+ " not available"))).
  { apply (promise_all_first_rejection u e i); [done| |].
    - intros j Hj. unfold Extrinsic.detect_one. rewrite (Hbefore j Hj).
      by eexists.
    - unfold Extrinsic.detect_one. by rewrite Hmissing. }
  rewrite job_requested_all_ok.
  unfold Extrinsic.captureImage, Extrinsic.all_ok. rewrite Hrej. done.
Qed.

Lemma captureImage_names_first_missing_camera_witness :
  Extrinsic.message
    (Extrinsic.calibrationProgress
       (Extrinsic.state
          (Extrinsic.captureImage Sample.url Sample.rig_without_second
             Extrinsic.initial Service.initial)))
  = "Camera 2 not available".
Proof.
  pose proof (captureImage_names_first_missing_camera Sample.url
                Sample.rig_without_second Extrinsic.initial Service.initial 1)
    as H.
  destruct H as (H & _).
  - repeat constructor.
  - intros j Hj. assert (j = 0%nat) as -> by lia. reflexivity.
  - reflexivity.
  - cbv zeta in H. rewrite H. vm_compute. reflexivity.
Defined.


Lemma captureImage_timer (u : Service.UrlEnv) (e : Extrinsic.Env)
    (st : Extrinsic.State) (sv : Service.State) :
  Extrinsic.timer (Extrinsic.captureImage u e st sv)
  = (2000, negb (bool_decide
                   (Extrinsic.status (Extrinsic.calibrationProgress st)
                    = Extrinsic.error))) /\
  Extrinsic.isCalibrating (Extrinsic.state (Extrinsic.captureImage u e st sv))
  = true.
Proof.
  unfold Extrinsic.captureImage.
  destruct (Extrinsic.promise_all _) as [results|err]; simpl; [|done].
  destruct (forallb _ results); simpl; [|done].
  by destruct (Service.startCalibration _ _ _ _).
Qed.

(** X17.  The buttons come back two seconds after a run only if the job
    state was not [error] when the run began.  A run begun in the [error]
    state, whether it succeeds or fails, leaves [isCalibrating] set for
    when the timer has fired, and with it the capture and refresh buttons
    disabled. *)
Theorem captureImage_after_error_stays_disabled
    (u : Service.UrlEnv) (e : Extrinsic.Env) (st : Extrinsic.State)
    (sv : Service.State) (devices : list Media.Device) :
  let r := Extrinsic.captureImage u e st sv in
  (Extrinsic.timer r).1 = 2000 /\
  Extrinsic.isCalibrating (Extrinsic.state r) = true /\
  Extrinsic.calibrationProgress (Extrinsic.after_timer r)
  = Extrinsic.calibrationProgress (Extrinsic.state r) /\
  if decide (Extrinsic.status (Extrinsic.calibrationProgress st)
             = Extrinsic.error)
  then Extrinsic.isCalibrating (Extrinsic.after_timer r) = true /\
       Extrinsic.button_disabled devices (Extrinsic.after_timer r) = true
  else Extrinsic.isCalibrating (Extrinsic.after_timer r) = false /\
       Extrinsic.button_disabled devices (Extrinsic.after_timer r)
       = bool_decide (length devices < 3)%nat.
Proof.
  intros r. subst r.
  destruct (captureImage_timer u e st sv) as [Ht Hc].
  unfold Extrinsic.after_timer, Extrinsic.button_disabled.
  rewrite Ht. simpl. split; [done|]. split; [done|].
  destruct (decide _) as [Herr|Herr].
  - rewrite bool_decide_eq_true_2 by done. simpl. by rewrite Hc.
  - rewrite bool_decide_eq_false_2 by done. simpl. done.
Qed.

(** ** The device registry *)

Lemma permission_loop_granted (e : Registry.Env) (fuel a k : nat) :
  (a <= k < 5)%nat -> (5 - a <= fuel)%nat ->
  Registry.probe e k = None ->
  (forall j, (a <= j < k)%nat -> is_Some (Registry.probe e j)) ->
  Registry.permission_loop fuel e a
  = Some (k, Registry.rejected_probes (k - a)
             ++ [Registry.GetUserMedia; Registry.StopTracks], None).
Proof.
  revert a. induction fuel as [|fuel IH]; intros a Hk Hfuel Hgrant Hrej; [lia|].
  simpl. unfold Registry.MAX_PERMISSION_ATTEMPTS.
  rewrite (proj2 (Nat.ltb_lt a 5)) by lia.
  destruct (decide (a = k)) as [->|Hne].
  - rewrite Hgrant, Nat.sub_diag. done.
  - destruct (Hrej a) as [err Herr]; [lia|]. rewrite Herr.
    rewrite (proj2 (Nat.eqb_neq a 4)) by lia.
    rewrite (IH (S a)); [|lia|lia|done|intros j Hj; apply Hrej; lia].
    replace (k - a)%nat with (S (k - S a)) by lia. done.
Qed.

Lemma permission_loop_exhausted (e : Registry.Env) (fuel a : nat) :
  (a < 5)%nat -> (5 - a <= fuel)%nat ->
  (forall j, (a <= j < 5)%nat -> is_Some (Registry.probe e j)) ->
  Registry.permission_loop fuel e a
  = Some (5%nat, Registry.rejected_probes (4 - a) ++ [Registry.GetUserMedia],
          Registry.probe e 4).
Proof.
  revert a. induction fuel as [|fuel IH]; intros a Ha Hfuel Hrej; [lia|].
  simpl. unfold Registry.MAX_PERMISSION_ATTEMPTS.
  rewrite (proj2 (Nat.ltb_lt a 5)) by lia.
  destruct (Hrej a) as [err Herr]; [lia|]. rewrite Herr.
  destruct (decide (a = 4%nat)) as [->|Hne].
  - simpl. by rewrite Herr.
  - rewrite (proj2 (Nat.eqb_neq a 4)) by lia.
    rewrite (IH (S a)); [|lia|lia|intros j Hj; apply Hrej; lia].
    replace (4 - a)%nat with (S (4 - S a)) by lia. done.
Qed.

Lemma grant_or_exhausted (e : Registry.Env) :
  (exists k, (k < 5)%nat /\ Registry.first_grant e k)
  \/ Registry.probe_exhausted e.
Proof.
  unfold Registry.first_grant, Registry.probe_exhausted,
    Registry.MAX_PERMISSION_ATTEMPTS.
  assert (H : forall n, (n <= 5)%nat ->
            (exists k, (k < n)%nat /\ Registry.probe e k = None /\
                       forall j, (j < k)%nat -> is_Some (Registry.probe e j))
            \/ forall k, (k < n)%nat -> is_Some (Registry.probe e k)).
  { induction n as [|n IH]; intros Hn; [right; intros; lia|].
    destruct IH as [(k & Hk & Hg & Hr)|Hall]; [lia| |].
    - left. exists k. split; [lia | done].
    - destruct (Registry.probe e n) as [err|] eqn:Hp.
      + right. intros k Hk. destruct (decide (k = n)) as [->|]; [by eexists|].
        apply Hall. lia.
      + left. exists n. split; [lia|]. split; [done|]. done. }
  destruct (H 5%nat) as [(k & ? & ? & ?)|?]; [lia| |]; eauto.
Qed.

(** X18.  The probe loop does exactly this.  If the first probe to be
    granted is the [k]-th of the five, it has asked [k + 1] times, waited
    3000 ms after each rejection, and released the granted stream at once,
    before anything else.  If all five are rejected it has asked five
    times, waited four times (not after the last rejection) and throws the
    fifth error. *)
Theorem permission_loop_trace (e : Registry.Env) (fuel : nat)
    (Hfuel : (Registry.MAX_PERMISSION_ATTEMPTS <= fuel)%nat) :
  (forall k, (k < Registry.MAX_PERMISSION_ATTEMPTS)%nat ->
     Registry.first_grant e k ->
     Registry.permission_loop fuel e 0
     = Some (k, Registry.rejected_probes k
                ++ [Registry.GetUserMedia; Registry.StopTracks], None)) /\
  (Registry.probe_exhausted e ->
   Registry.permission_loop fuel e 0
   = Some (5%nat, Registry.rejected_probes 4 ++ [Registry.GetUserMedia],
           Registry.probe e 4) /\
   is_Some (Registry.probe e 4)).
Proof.
  unfold Registry.MAX_PERMISSION_ATTEMPTS in *. split.
  - intros k Hk [Hg Hr].
    rewrite (permission_loop_granted e fuel 0 k); try done; try lia.
    + by rewrite Nat.sub_0_r.
    + intros j Hj. apply Hr. lia.
  - intros Hex. split; [|apply Hex; unfold Registry.MAX_PERMISSION_ATTEMPTS; lia].
    rewrite (permission_loop_exhausted e fuel 0); try done; try lia.
    intros j Hj. apply Hex. unfold Registry.MAX_PERMISSION_ATTEMPTS. lia.
Qed.

Lemma permission_loop_trace_witness :
  Registry.permission_loop 5 Sample.granted_third 0
  = Some (2%nat,
          [Registry.GetUserMedia; Registry.Wait 3000;
           Registry.GetUserMedia; Registry.Wait 3000;
           Registry.GetUserMedia; Registry.StopTracks], None).
Proof.
  assert (Hfuel : (Registry.MAX_PERMISSION_ATTEMPTS <= 5)%nat)
    by (vm_compute; lia).
  destruct (permission_loop_trace Sample.granted_third 5 Hfuel) as [H _].
  rewrite (H 2%nat).
  - reflexivity.
  - vm_compute. lia.
  - split; [reflexivity|]. intros j Hj. simpl.
    destruct j as [|[|j]]; [by eexists | by eexists | lia].
Defined.

Lemma enumerates_app (a b : list Registry.Effect) :
  Registry.enumerates (a ++ b)
  = Registry.enumerates a || Registry.enumerates b.
Proof. unfold Registry.enumerates. apply existsb_app. Qed.

Lemma rejected_probes_quiet (n : nat) :
  Registry.enumerates (Registry.rejected_probes n) = false /\
  Registry.notifications (Registry.rejected_probes n) = [].
Proof.
  unfold Registry.rejected_probes. induction n as [|n [IH1 IH2]]; [done|].
  simpl. split; [exact IH1 | exact IH2].
Qed.

(** X19.  [getCameras] asks the platform for its devices exactly when one of
    the five probes was granted.  After five rejections it does not
    enumerate at all: it goes straight to the error toast and the empty
    list. *)
Theorem getCameras_enumerates_iff_granted
    (fuel : nat) (e : Registry.Env) (devices : list Media.Device)
    (Hfuel : (Registry.MAX_PERMISSION_ATTEMPTS <= fuel)%nat) :
  exists r,
    Registry.getCameras fuel e devices = Some r /\
    (Registry.enumerates (Registry.effects r) = true
     <-> exists k, (k < Registry.MAX_PERMISSION_ATTEMPTS)%nat
                   /\ Registry.probe e k = None) /\
    (Registry.probe_exhausted e ->
     Registry.cameraDevices r = [] /\
     Registry.effects r
     = Registry.rejected_probes 4
       ++ [Registry.GetUserMedia; Registry.Notify Registry.camera_error]).
Proof.
  destruct (permission_loop_trace e fuel Hfuel) as [Hgrant Hex].
  unfold Registry.MAX_PERMISSION_ATTEMPTS in *.
  destruct (grant_or_exhausted e) as [(k & Hk & Hfirst)|Hall].
  - unfold Registry.getCameras, Registry.try_body.
    rewrite (Hgrant k Hk Hfirst).
    assert (Hyes : exists k, (k < 5)%nat /\ Registry.probe e k = None)
      by (exists k; split; [done | apply Hfirst]).
    assert (Hnot : ~ Registry.probe_exhausted e).
    { intros Hx. destruct (Hx k) as [x Hx']; [done|].
      destruct Hfirst as [Hf _]. congruence. }
    destruct (Registry.enumerate e) as [ds|err].
    + destruct (bool_decide _); eexists; (split; [done|]); simpl;
        rewrite ?enumerates_app; simpl;
        rewrite ?orb_true_r; (split; [done|]); done.
    + eexists. split; [done|]. simpl. rewrite !enumerates_app. simpl.
      rewrite ?orb_true_r. split; [done|]. done.
  - destruct (Hex Hall) as [Hloop [err Herr]].
    unfold Registry.getCameras, Registry.try_body. rewrite Hloop, Herr.
    eexists. split; [done|]. simpl. split.
    + split; [done|].
      intros (k & Hk & Hg). destruct (Hall k) as [x Hx]; [done|]. congruence.
    + done.
Qed.

Lemma getCameras_enumerates_iff_granted_witness :
  exists r,
    Registry.getCameras 5 Sample.locked Sample.devices = Some r /\
    Registry.enumerates (Registry.effects r) = false.
Proof.
  assert (Hfuel : (Registry.MAX_PERMISSION_ATTEMPTS <= 5)%nat)
    by (vm_compute; lia).
  destruct (getCameras_enumerates_iff_granted 5 Sample.locked Sample.devices
              Hfuel) as (r & Hr & Hiff & _).
  exists r. split; [exact Hr|].
  destruct (Registry.enumerates (Registry.effects r)); [|reflexivity].
  destruct (proj1 Hiff eq_refl) as (k & _ & Hk). discriminate Hk.
Defined.

(** X20.  Whatever list the hook held before, a call of [getCameras] puts
    in its place either the video inputs among the devices the platform
    lists, in the platform's order, or the empty list: no device of another
    kind is ever exposed, and nothing of the previous list is kept.  Every
    call shows exactly one toast: "Cameras Detected" with the number of
    cameras when the new list is not empty, "Camera Error" when it is. *)
Theorem getCameras_exposes_video_inputs_only
    (fuel : nat) (e : Registry.Env) (devices devices' : list Media.Device)
    (Hfuel : (Registry.MAX_PERMISSION_ATTEMPTS <= fuel)%nat) :
  exists r,
    Registry.getCameras fuel e devices = Some r /\
    Registry.getCameras fuel e devices' = Some r /\
    (forall d, d ∈ Registry.cameraDevices r -> Media.kind d = "videoinput") /\
    (Registry.cameraDevices r = [] \/
     exists listed,
       Registry.enumerate e = inl listed /\
       Registry.cameraDevices r
       = filter (fun d => Registry.videoinput d = true) listed) /\
    Registry.notifications (Registry.effects r)
    = [match Registry.cameraDevices r with
       | [] => Registry.camera_error
       | _ => {| title := "Cameras Detected";
                 description :=
                   "Found " +:+ pretty (length (Registry.cameraDevices r))
                   +:+ " cameras in Camera Setup";
                 variant := Default |}
       end].
Proof.
  destruct (permission_loop_trace e fuel Hfuel) as [Hgrant Hex].
  unfold Registry.MAX_PERMISSION_ATTEMPTS in *.
  destruct (grant_or_exhausted e) as [(k & Hk & Hfirst)|Hall].
  - unfold Registry.getCameras, Registry.try_body.
    rewrite (Hgrant k Hk Hfirst).
    destruct (Registry.enumerate e) as [ds|err].
    + destruct (filter _ ds) as [|d ds'] eqn:Hfil; simpl.
      * eexists. split; [done|]. split; [done|]. simpl.
        split; [by intros ? ?%elem_of_nil|]. split; [by left|].
        rewrite !notifications_app, (proj2 (rejected_probes_quiet k)). done.
      * eexists. split; [done|]. split; [done|]. simpl. split.
        -- intros x Hx. rewrite <- Hfil in Hx.
           apply list_elem_of_filter in Hx as [Hv _].
           unfold Registry.videoinput in Hv. by apply bool_decide_eq_true in Hv.
        -- split; [right; by exists ds|]. rewrite !notifications_app, (proj2 (rejected_probes_quiet k)). done.
    + eexists. split; [done|]. split; [done|]. simpl.
      split; [by intros ? ?%elem_of_nil|]. split; [by left|].
      rewrite !notifications_app, (proj2 (rejected_probes_quiet k)). done.
  - destruct (Hex Hall) as [Hloop [err Herr]].
    unfold Registry.getCameras, Registry.try_body. rewrite Hloop, Herr.
    eexists. split; [done|]. split; [done|]. simpl.
    split; [by intros ? ?%elem_of_nil|]. split; [by left|]. done.
Qed.

Lemma getCameras_exposes_video_inputs_only_witness :
  exists r,
    Registry.getCameras 5 Sample.granted_third [] = Some r /\
    Registry.cameraDevices r = [Sample.camA; Sample.camB].
Proof.
  assert (Hfuel : (Registry.MAX_PERMISSION_ATTEMPTS <= 5)%nat)
    by (vm_compute; lia).
  destruct (getCameras_exposes_video_inputs_only 5 Sample.granted_third
              [] Sample.devices Hfuel) as (r & Hr & _).
  exists r. split; [exact Hr|].
  vm_compute in Hr. injection Hr as <-. reflexivity.
Defined.

(** *** The streams the hook keeps *)

Lemma kept_elem (m : gmap string nat) (x : nat) :
  x ∈ Registry.kept m <-> exists d, m !! d = Some x.
Proof.
  unfold Registry.kept. rewrite elem_of_list_to_set, list_elem_of_fmap.
  split.
  - intros ([d y] & -> & H). exists d. by apply elem_of_map_to_list in H.
  - intros (d & H). exists (d, x). split; [done|].
    by apply elem_of_map_to_list.
Qed.

(** X21.  Reporting a stream to the hook keeps it under its device and
    touches no other entry, but makes the hook's effect run again, and the
    cleanup of the previous run stops every stream the hook kept until
    then: after the update is committed, no stream that was kept before is
    live (the streams of the other cameras included, and the reported one
    too if it was already kept); streams the hook did not keep are left
    alone; and [getCameras] has been called once more. *)
Theorem registering_a_stream_stops_the_kept_ones
    (h : Registry.Streams) (deviceId : string) (stream : nat)
    (Hsync : Registry.closed_over h = Registry.cameraStreams h) :
  let h' := Registry.register deviceId stream h in
  Registry.cameraStreams h' !! deviceId = Some stream /\
  (forall d, d <> deviceId ->
             Registry.cameraStreams h' !! d = Registry.cameraStreams h !! d) /\
  (forall d x, Registry.cameraStreams h !! d = Some x ->
               x ∉ Registry.live h') /\
  (forall x, x ∈ Registry.live h -> x ∉ Registry.kept (Registry.cameraStreams h) ->
             x ∈ Registry.live h') /\
  Registry.closed_over h' = Registry.cameraStreams h' /\
  Registry.enumerations h' = S (Registry.enumerations h).
Proof.
  intros h'. subst h'.
  unfold Registry.register, Registry.commit, Registry.handleStreamCapture.
  simpl. rewrite Hsync.
  split; [by rewrite lookup_insert_eq|].
  split; [by intros d Hd; rewrite lookup_insert_ne|].
  split; [|split; [|done]].
  - intros d x Hx Hin. apply elem_of_difference in Hin as [_ Hnot].
    apply Hnot. apply kept_elem. by exists d.
  - intros x Hx Hnot. apply elem_of_difference. split; [|done].
    destruct (Registry.cameraStreams h !! deviceId) as [o|] eqn:Ho; [|done].
    apply elem_of_difference. split; [done|].
    intros ->%elem_of_singleton. apply Hnot. apply kept_elem. by exists deviceId.
Qed.

Lemma registering_a_stream_stops_the_kept_ones_witness :
  Registry.cameraStreams
    (Registry.register "camB" 1 (Registry.register "camA" 0 Sample.no_streams))
  !! "camA" = Some 0%nat /\
  0%nat ∉ Registry.live
            (Registry.register "camB" 1
               (Registry.register "camA" 0 Sample.no_streams)).
Proof.
  pose proof (registering_a_stream_stops_the_kept_ones
                (Registry.register "camA" 0 Sample.no_streams) "camB" 1
                eq_refl) as H.
  cbv zeta in H. destruct H as (_ & Hframe & Hstop & _).
  split.
  - rewrite (Hframe "camA"); [|discriminate].
    unfold Registry.register, Registry.commit, Registry.handleStreamCapture.
    simpl. apply lookup_insert_eq.
  - apply (Hstop "camA").
    unfold Registry.register, Registry.commit, Registry.handleStreamCapture.
    simpl. apply lookup_insert_eq.
Defined.

(** ** The camera view *)

(** X22.  [initCamera] is single-flight.  In every state the view can
    reach at most one call of it is suspended, and [initializingRef] is set
    exactly while one is; a timer that fires meanwhile is used up without
    effect: no stream is requested, stopped or detached, and nothing is
    retried later on its account. *)
Theorem initCamera_is_single_flight
    (sup : bool) (evs : list CameraView.Event) (h : nat) :
  let st := CameraView.run evs (CameraView.initial sup) in
  (length (CameraView.flights st) <= 1)%nat /\
  (CameraView.initializingRef st = true <-> CameraView.flights st <> []) /\
  (CameraView.initializingRef st = true ->
   CameraView.step (CameraView.TimerFires h) st
   = CameraView.clearTimeout h st).
Proof.
  intros st.
  destruct (run_inv evs (CameraView.initial sup)) as [_ Hf];
    [by left | done |].
  fold st in Hf. unfold CameraView.single_flight in Hf.
  split; [|split].
  - destruct (CameraView.flights st) as [|f [|? ?]]; simpl; try done; lia.
  - destruct (CameraView.flights st) as [|f [|? ?]]; try done.
    + rewrite Hf. split; done.
    + destruct Hf as [-> _]. split; done.
  - intros Hinit. simpl.
    destruct (find _ _) as [t|] eqn:Hfind.
    + unfold CameraView.initCamera. simpl.
      destruct (CameraView.instances st !! CameraView.owner t) as [i|]; [|done].
      destruct (CameraView.deviceId i) as [d|]; [|done].
      by rewrite Hinit, orb_true_r.
    + unfold CameraView.clearTimeout.
      assert (Hsame : filter (fun t => CameraView.handle t <> h)
                        (CameraView.timers st) = CameraView.timers st).
      { clear -Hfind. induction (CameraView.timers st) as [|t l IH]; [done|].
        simpl in Hfind. case_bool_decide as Hx; [done|].
        rewrite filter_cons, decide_True by done. by rewrite IH. }
      rewrite Hsame. by destruct st.
Qed.

Lemma catch_block_stale (g : nat) (err : Http.Thrown) (st : CameraView.State) :
  CameraView.is_mounted st g = false -> CameraView.catch_block g err st = st.
Proof.
  unfold CameraView.is_mounted, CameraView.catch_block.
  destruct (CameraView.instances st !! g) as [i|]; [|done]. by intros ->.
Qed.

Lemma connected_stale (g s : nat) (st : CameraView.State) :
  CameraView.is_mounted st g = false -> CameraView.connected g s st = st.
Proof.
  unfold CameraView.is_mounted, CameraView.connected.
  destruct (CameraView.instances st !! g) as [i|]; [|done]. by intros ->.
Qed.

(** X23.  A call of [initCamera] that resumes after its run of the effect
    was cleaned up is silent: whatever it awaited, and whether that
    resolved or rejected, it shows no toast and calls no [onStream], sets
    no timer, leaves the error and initializing flags, the stream held and
    the sink as they are, and makes no stream live: a stream it was granted
    is stopped in the same turn. *)
Theorem stale_call_is_silent
    (st : CameraView.State) (k : nat) (r : option Http.Thrown)
    (f : CameraView.Flight)
    (Hk : CameraView.flights st !! k = Some f)
    (Hstale : CameraView.is_mounted st (CameraView.caller f) = false) :
  let st' := CameraView.step (CameraView.Settles k r) st in
  CameraView.log st' = CameraView.log st /\
  CameraView.timers st' = CameraView.timers st /\
  CameraView.hasError st' = CameraView.hasError st /\
  CameraView.isInitializing st' = CameraView.isInitializing st /\
  CameraView.streamRef st' = CameraView.streamRef st /\
  CameraView.videoRef st' = CameraView.videoRef st /\
  CameraView.instances st' = CameraView.instances st /\
  forall x, x ∈ CameraView.live st' -> x ∈ CameraView.live st.
Proof.
  intros st'. subst st'. simpl. unfold CameraView.settle. rewrite Hk.
  set (ended := CameraView.set_flights _ st).
  assert (Hended : CameraView.is_mounted ended (CameraView.caller f) = false)
    by exact Hstale.
  destruct r as [err|].
  - rewrite (catch_block_stale _ err ended Hended). by repeat split.
  - destruct (CameraView.phase f) as [|s|s].
    + rewrite Hstale. simpl. repeat split; try done.
      intros x [Hne Hx]%list_elem_of_filter.
      apply elem_of_app in Hx as [Hx|Hx]; [done|].
      by apply list_elem_of_singleton in Hx.
    + destruct (CameraView.videoRef st) as [o|] eqn:Hv.
      * simpl. by repeat split.
      * rewrite (catch_block_stale _ _ ended Hended). by repeat split.
    + rewrite (connected_stale _ s ended Hended). by repeat split.
Qed.

Lemma stale_call_is_silent_witness :
  CameraView.log
    (CameraView.step (CameraView.Settles 0 None)
       (CameraView.run Sample.torn_down (CameraView.initial true)))
  = CameraView.log (CameraView.run Sample.torn_down (CameraView.initial true)) /\
  CameraView.live
    (CameraView.step (CameraView.Settles 0 None)
       (CameraView.run Sample.torn_down (CameraView.initial true))) = [].
Proof.
  pose proof (stale_call_is_silent
                (CameraView.run Sample.torn_down (CameraView.initial true))
                0 None (CameraView.mkFlight 0 CameraView.AwaitStream)
                eq_refl eq_refl) as H.
  cbv zeta in H. destruct H as (Hlog & _).
  split; [exact Hlog | vm_compute; reflexivity].
Defined.

Lemma is_mounted_runs (st : CameraView.State) (g : nat) :
  CameraView.is_mounted st g = default false (CameraView.mounted_runs st !! g).
Proof.
  unfold CameraView.is_mounted, CameraView.mounted_runs.
  rewrite list_lookup_fmap. by destruct (CameraView.instances st !! g).
Qed.

Lemma mounted_alter (f : CameraView.Instance -> CameraView.Instance)
    (g : nat) (l : list CameraView.Instance) :
  (forall i, CameraView.mounted (f i) = CameraView.mounted i) ->
  CameraView.mounted <$> alter f g l = CameraView.mounted <$> l.
Proof.
  intros Hf. revert g. induction l as [|i l IH]; intros g; [done|].
  destruct g as [|g]; simpl; [by rewrite Hf|]. f_equal. apply IH.
Qed.

Lemma catch_block_runs (g : nat) (err : Http.Thrown) (st : CameraView.State) :
  CameraView.mounted_runs (CameraView.catch_block g err st)
  = CameraView.mounted_runs st.
Proof.
  unfold CameraView.catch_block, CameraView.mounted_runs.
  destruct (CameraView.instances st !! g) as [i|]; [|done].
  destruct (CameraView.mounted i); [|done].
  destruct (_ <? _)%nat; simpl; [|done]. by apply mounted_alter.
Qed.

Lemma connected_runs (g s : nat) (st : CameraView.State) :
  CameraView.mounted_runs (CameraView.connected g s st)
  = CameraView.mounted_runs st.
Proof.
  unfold CameraView.connected, CameraView.mounted_runs.
  destruct (CameraView.instances st !! g) as [i|]; [|done].
  destruct (CameraView.mounted i); simpl; [|done]. by apply mounted_alter.
Qed.

Lemma initCamera_runs (g : nat) (st : CameraView.State) :
  CameraView.mounted_runs (CameraView.initCamera g st)
  = CameraView.mounted_runs st.
Proof.
  unfold CameraView.initCamera.
  destruct (CameraView.instances st !! g) as [i|]; [|done].
  destruct (CameraView.deviceId i) as [d|]; [|done].
  destruct (_ || _); [done|].
  set (st1 := CameraView.update_instance g _ _).
  assert (H1 : CameraView.mounted_runs st1 = CameraView.mounted_runs st)
    by (by apply mounted_alter).
  destruct (negb _).
  - unfold CameraView.finally_block.
    change (CameraView.mounted_runs (CameraView.catch_block g
              (Http.Err "getUserMedia is not supported") st1)
            = CameraView.mounted_runs st).
    by rewrite catch_block_runs.
  - destruct (release_detach_frame st1) as (Hi & _).
    unfold CameraView.mounted_runs in *. simpl. by rewrite Hi.
Qed.

Lemma settle_runs (k : nat) (r : option Http.Thrown) (st : CameraView.State) :
  CameraView.mounted_runs (CameraView.settle k r st)
  = CameraView.mounted_runs st.
Proof.
  unfold CameraView.settle.
  destruct (CameraView.flights st !! k) as [f|]; [|done].
  assert (Hfail : forall err,
             CameraView.mounted_runs
               (CameraView.finally_block
                  (CameraView.catch_block (CameraView.caller f) err
                     (CameraView.set_flights
                        (delete k (CameraView.flights st)) st)))
             = CameraView.mounted_runs st).
  { intros err.
    change (CameraView.mounted_runs
              (CameraView.catch_block (CameraView.caller f) err
                 (CameraView.set_flights (delete k (CameraView.flights st)) st))
            = CameraView.mounted_runs st).
    by rewrite catch_block_runs. }
  destruct r as [err|]; [apply Hfail|].
  destruct (CameraView.phase f) as [|s|s].
  - destruct (negb _); [done|]. by destruct (CameraView.videoRef st).
  - destruct (CameraView.videoRef st); [done | apply Hfail].
  - change (CameraView.mounted_runs
              (CameraView.connected (CameraView.caller f) s
                 (CameraView.set_flights (delete k (CameraView.flights st)) st))
            = CameraView.mounted_runs st).
    by rewrite connected_runs.
Qed.

(** Only mounting and unmounting change which runs are mounted. *)
Lemma step_runs (ev : CameraView.Event) (st : CameraView.State) :
  CameraView.is_run_effect ev = false -> ev <> CameraView.Unmount ->
  CameraView.mounted_runs (CameraView.step ev st) = CameraView.mounted_runs st.
Proof.
  intros Hev Hun. destruct ev as [d| |h|k r|[|]|s]; simpl; try done.
  - destruct (find _ _) as [t|]; [|done]. by rewrite initCamera_runs.
  - apply settle_runs.
  - by destruct (CameraView.videoRef st).
Qed.

Lemma cleanup_runs (g : nat) (st : CameraView.State) :
  CameraView.mounted_runs (CameraView.cleanup g st)
  = alter (fun _ => false) g (CameraView.mounted_runs st).
Proof.
  unfold CameraView.cleanup.
  set (st2 := match CameraView.instances st !! g with
              | Some i => _ | None => _ end).
  destruct (release_detach_frame st2) as (Hi & _).
  unfold CameraView.mounted_runs. rewrite Hi.
  assert (H2 : CameraView.instances st2
               = alter (fun i => CameraView.mkInstance
                                   (CameraView.deviceId i) false
                                   (CameraView.retryTimeout i)
                                   (CameraView.retryCount i)
                                   (CameraView.attempts i))
                       g (CameraView.instances st)).
  { subst st2. destruct (CameraView.instances st !! g) as [i|]; [|done].
    by destruct (CameraView.retryTimeout i). }
  rewrite H2. generalize (CameraView.instances st). clear.
  intros l. revert g. induction l as [|i l IH]; intros g; [done|].
  destruct g as [|g]; simpl; [done|]. f_equal. apply IH.
Qed.

Lemma cleanup_current_unmounts (st : CameraView.State) :
  CameraView.last_only st ->
  forall g, CameraView.is_mounted (CameraView.cleanup_current st) g = false.
Proof.
  intros Hlast g. unfold CameraView.cleanup_current, CameraView.current.
  destruct (CameraView.is_mounted st (pred (length (CameraView.instances st))))
    eqn:Hcur.
  - rewrite is_mounted_runs, cleanup_runs, list_lookup_alter.
    case_decide as Hg.
    + subst g. by destruct (CameraView.mounted_runs st !! _).
    + rewrite <- is_mounted_runs.
      destruct (CameraView.is_mounted st g) eqn:Hm; [|done].
      by apply Hlast in Hm.
  - destruct (CameraView.is_mounted st g) eqn:Hm; [|done].
    pose proof (Hlast g Hm) as ->. congruence.
Qed.

Lemma torn_down_frame (st st' : CameraView.State) :
  CameraView.mounted_runs st' = CameraView.mounted_runs st ->
  CameraView.live st' = CameraView.live st ->
  CameraView.streamRef st' = CameraView.streamRef st ->
  CameraView.torn_down st -> CameraView.torn_down st'.
Proof.
  intros Hm Hl Hs (Hun & Hlive & Href). split.
  - intros g. rewrite is_mounted_runs, Hm, <- is_mounted_runs. apply Hun.
  - split; congruence.
Qed.

(** A call of [initCamera] made after the teardown may still ask for a
    stream, but holds none and shows nothing. *)
Lemma initCamera_torn_down (g : nat) (st : CameraView.State) :
  CameraView.torn_down st ->
  CameraView.torn_down (CameraView.initCamera g st) /\
  CameraView.outputs (CameraView.initCamera g st) = CameraView.outputs st.
Proof.
  intros Ht. pose proof (initCamera_runs g st) as Hruns.
  unfold CameraView.initCamera in *.
  destruct (CameraView.instances st !! g) as [i|]; [|done].
  destruct (CameraView.deviceId i) as [d|]; [|done].
  destruct (_ || _); [done|].
  set (st1 := CameraView.update_instance g _ _) in *.
  assert (Ht1 : CameraView.torn_down st1).
  { apply (torn_down_frame st); try done. by apply mounted_alter. }
  destruct (negb _).
  - rewrite catch_block_stale by apply Ht1. split; [|done].
    by apply (torn_down_frame st1).
  - assert (Hrel : CameraView.release_stream st1 = st1).
    { unfold CameraView.release_stream.
      by rewrite (proj2 (proj2 Ht1)). }
    rewrite Hrel in *.
    assert (Hd : CameraView.live (CameraView.detach_sink st1) = CameraView.live st1 /\
                 CameraView.streamRef (CameraView.detach_sink st1)
                 = CameraView.streamRef st1 /\
                 CameraView.log (CameraView.detach_sink st1) = CameraView.log st1).
    { unfold CameraView.detach_sink. by destruct (CameraView.videoRef st1). }
    destruct Hd as (Hl & Hs & Hlog). split.
    + apply (torn_down_frame st); try done; simpl; congruence.
    + unfold CameraView.outputs. simpl. rewrite Hlog, filter_app. simpl.
      rewrite filter_cons, decide_False by done.
      by rewrite filter_nil, app_nil_r.
Qed.

(** A call that resumes after the teardown holds nothing and shows
    nothing. *)
Lemma settle_torn_down (k : nat) (r : option Http.Thrown) (st : CameraView.State) :
  CameraView.torn_down st ->
  CameraView.torn_down (CameraView.settle k r st) /\
  CameraView.outputs (CameraView.settle k r st) = CameraView.outputs st.
Proof.
  intros Ht. pose proof Ht as (Hun & Hlive & Href).
  unfold CameraView.settle.
  destruct (CameraView.flights st !! k) as [f|]; [|done].
  assert (Hfail : forall err,
             let st' := CameraView.finally_block
                          (CameraView.catch_block (CameraView.caller f) err
                             (CameraView.set_flights
                                (delete k (CameraView.flights st)) st)) in
             CameraView.torn_down st' /\
             CameraView.outputs st' = CameraView.outputs st).
  { intros err. rewrite catch_block_stale by apply Hun. split; [|done].
    by apply (torn_down_frame st). }
  destruct r as [err|]; [apply Hfail|].
  destruct (CameraView.phase f) as [|s|s].
  - rewrite Hun. simpl. split; [|done].
    apply (torn_down_frame st); try done.
    simpl. rewrite Hlive. simpl. by rewrite filter_ne_single.
  - destruct (CameraView.videoRef st); [|apply Hfail]. split; [|done].
    by apply (torn_down_frame st).
  - rewrite connected_stale by apply Hun. split; [|done].
    by apply (torn_down_frame st).
Qed.

Lemma step_torn_down (ev : CameraView.Event) (st : CameraView.State) :
  CameraView.is_run_effect ev = false -> CameraView.torn_down st ->
  CameraView.torn_down (CameraView.step ev st) /\
  CameraView.outputs (CameraView.step ev st) = CameraView.outputs st.
Proof.
  intros Hev Ht. pose proof Ht as (Hun & Hlive & Href).
  destruct ev as [d| |h|k r|[|]|s]; simpl; try done.
  - unfold CameraView.cleanup_current, CameraView.current. by rewrite Hun.
  - destruct (find _ _) as [t|]; [|done].
    destruct (initCamera_torn_down (CameraView.owner t)
                (CameraView.clearTimeout h st)) as [H1 H2]; [|done].
    by apply (torn_down_frame st).
  - by apply settle_torn_down.
  - destruct (CameraView.videoRef st); [done|]. split; [|done].
    by apply (torn_down_frame st).
  - split; [|done]. apply (torn_down_frame st); try done.
    simpl. by rewrite Hlive.
Qed.

Lemma run_torn_down (evs : list CameraView.Event) (st : CameraView.State) :
  (forall ev, ev ∈ evs -> CameraView.is_run_effect ev = false) ->
  CameraView.torn_down st ->
  CameraView.torn_down (CameraView.run evs st) /\
  CameraView.outputs (CameraView.run evs st) = CameraView.outputs st.
Proof.
  unfold CameraView.run. revert st.
  induction evs as [|ev evs IH]; intros st Hevs Ht; simpl; [done|].
  destruct (step_torn_down ev st) as [H1 H2]; [apply Hevs; by left | done |].
  destruct (IH (CameraView.step ev st)) as [H3 H4];
    [intros ev' ?; apply Hevs; by right | done |].
  split; [done | congruence].
Qed.

(** Only the last run of the effect can be mounted, and when none is the
    slot is at rest. *)
Lemma step_last_only (ev : CameraView.Event) (st : CameraView.State) :
  CameraView.held st ->
  CameraView.last_only st /\
  (CameraView.current st = None -> CameraView.at_rest st) ->
  CameraView.last_only (CameraView.step ev st) /\
  (CameraView.current (CameraView.step ev st) = None ->
   CameraView.at_rest (CameraView.step ev st)).
Proof.
  intros Hheld [Hlast Hrest].
  assert (Hclean : CameraView.torn_down (CameraView.cleanup_current st)).
  { split; [by apply cleanup_current_unmounts|].
    unfold CameraView.cleanup_current.
    destruct (CameraView.current st) as [g|] eqn:Hcur; [|by apply Hrest].
    destruct (cleanup_streams g st Hheld) as (Hl & Hs & _). by split. }
  assert (Hall : forall st', CameraView.torn_down st' ->
             CameraView.last_only st' /\
             (CameraView.current st' = None -> CameraView.at_rest st')).
  { intros st' [Hun Hr]. split; [|done]. intros g Hg. by rewrite Hun in Hg. }
  assert (Hother : CameraView.is_run_effect ev = false ->
                   ev <> CameraView.Unmount ->
                   CameraView.last_only (CameraView.step ev st) /\
                   (CameraView.current (CameraView.step ev st) = None ->
                    CameraView.at_rest (CameraView.step ev st))); cycle 1.
  { destruct ev as [d| | | | |]; [|by apply Hall|by apply Hother..]. simpl.
    destruct Hclean as [Hun _].
    set (st0 := CameraView.cleanup_current st) in *. split.
    + intros g. unfold CameraView.is_mounted, CameraView.run_effect. simpl.
      rewrite length_app. simpl.
      destruct (decide (g < length (CameraView.instances st0))%nat) as [Hlt|Hge].
      * rewrite lookup_app_l by done. intros Hg.
        specialize (Hun g). unfold CameraView.is_mounted in Hun. congruence.
      * destruct (decide (g = length (CameraView.instances st0))) as [->|Hg];
          [intros _; lia|].
        rewrite lookup_ge_None_2; [done | rewrite length_app; simpl; lia].
    + unfold CameraView.current, CameraView.is_mounted, CameraView.run_effect.
      simpl. rewrite length_app. simpl.
      replace (pred (length (CameraView.instances st0) + 1))
        with (length (CameraView.instances st0) + 0)%nat by lia.
      rewrite lookup_app_r by lia.
      replace (length (CameraView.instances st0) + 0
               - length (CameraView.instances st0))%nat with 0%nat by lia.
      done. }
  intros Hev Hne.
  - pose proof (step_runs ev st Hev Hne) as Hruns.
    assert (Hlen : length (CameraView.instances (CameraView.step ev st))
                   = length (CameraView.instances st)).
    { apply (f_equal length) in Hruns. unfold CameraView.mounted_runs in Hruns.
      by rewrite !length_fmap in Hruns. }
    assert (Hmnt : forall g, CameraView.is_mounted (CameraView.step ev st) g
                             = CameraView.is_mounted st g).
    { intros g. by rewrite !is_mounted_runs, Hruns. }
    split.
    + intros g. rewrite Hmnt, Hlen. apply Hlast.
    + unfold CameraView.current. rewrite Hlen, Hmnt.
      destruct (CameraView.is_mounted st _) eqn:Hcur; [done|]. intros _.
      assert (Ht : CameraView.torn_down st).
      { split.
        - intros g. destruct (CameraView.is_mounted st g) eqn:Hg; [|done].
          pose proof (Hlast g Hg) as ->. congruence.
        - apply Hrest. unfold CameraView.current. by rewrite Hcur. }
      by destruct (step_torn_down ev st Hev Ht) as [[_ ?] _].
Qed.

Lemma run_last_only (evs : list CameraView.Event) (st : CameraView.State) :
  CameraView.held st -> CameraView.single_flight st ->
  CameraView.last_only st /\
  (CameraView.current st = None -> CameraView.at_rest st) ->
  CameraView.last_only (CameraView.run evs st) /\
  (CameraView.current (CameraView.run evs st) = None ->
   CameraView.at_rest (CameraView.run evs st)).
Proof.
  unfold CameraView.run. revert st.
  induction evs as [|ev evs IH]; intros st Hh Hf Hl; simpl; [done|].
  destruct (step_inv ev st Hh Hf). apply IH; try done.
  by apply step_last_only.
Qed.

Lemma unmount_tears_down (sup : bool) (evs : list CameraView.Event) :
  CameraView.torn_down
    (CameraView.step CameraView.Unmount
       (CameraView.run evs (CameraView.initial sup))).
Proof.
  set (st := CameraView.run evs (CameraView.initial sup)).
  assert (Hh0 : CameraView.held (CameraView.initial sup)) by (by left).
  assert (Hf0 : CameraView.single_flight (CameraView.initial sup)) by done.
  destruct (run_inv evs _ Hh0 Hf0) as [Hh Hf].
  destruct (run_last_only evs _ Hh0 Hf0) as [Hlast Hrest].
  { split; [by intros g | done]. }
  fold st in Hh, Hf, Hlast, Hrest. simpl. split.
  - by apply cleanup_current_unmounts.
  - unfold CameraView.cleanup_current.
    destruct (CameraView.current st) as [g|] eqn:Hcur; [|by apply Hrest].
    destruct (cleanup_streams g st Hh) as (Hl & Hs & _). by split.
Qed.

(** X24.  Unmounting is final for the slot.  After the cleanup of an
    unmount, and as long as the effect does not run again, whatever timers
    fire and whatever pending calls of [initCamera] resume: no stream is
    live, [streamRef] is empty, no run of the effect is mounted, and the
    component shows no further toast and hands no stream to [onStream].
    (A timer that fires after the unmount can still call [getUserMedia]:
    the stream it is granted is stopped at once.) *)
Theorem unmount_is_final
    (sup : bool) (evs later : list CameraView.Event)
    (Hlater : forall ev, ev ∈ later -> CameraView.is_run_effect ev = false) :
  let st := CameraView.step CameraView.Unmount
              (CameraView.run evs (CameraView.initial sup)) in
  let st' := CameraView.run later st in
  CameraView.live st' = [] /\ CameraView.streamRef st' = None /\
  (forall g, CameraView.is_mounted st' g = false) /\
  CameraView.outputs st' = CameraView.outputs st.
Proof.
  intros st st'.
  destruct (run_torn_down later st Hlater (unmount_tears_down sup evs))
    as [(Hun & Hl & Hs) Hout].
  done.
Qed.

Lemma unmount_is_final_witness :
  (forall ev,
      ev ∈ [CameraView.TimerFires 0; CameraView.Settles 0 None] ->
      CameraView.is_run_effect ev = false) /\
  let st' := CameraView.run
               [CameraView.TimerFires 0; CameraView.Settles 0 None]
               (CameraView.step CameraView.Unmount
                  (CameraView.run [CameraView.RunEffect (Some "camA")]
                     (CameraView.initial true))) in
  CameraView.log st' = [CameraView.GetUserMedia 0 "camA"] /\
  CameraView.nextStream st' = 1%nat /\
  CameraView.live st' = [] /\ CameraView.streamRef st' = None.
Proof.
  assert (H : forall ev,
             ev ∈ [CameraView.TimerFires 0; CameraView.Settles 0 None] ->
             CameraView.is_run_effect ev = false).
  { intros ev Hin.
    repeat (apply elem_of_cons in Hin as [->|Hin]; [done|]).
    by apply elem_of_nil in Hin. }
  split; [exact H|].
  pose proof (unmount_is_final true [CameraView.RunEffect (Some "camA")]
                [CameraView.TimerFires 0; CameraView.Settles 0 None] H) as X.
  cbv zeta in X. destruct X as (Hl & Hs & _ & _).
  split; [vm_compute; reflexivity|]. split; [vm_compute; reflexivity|].
  split; [exact Hl | exact Hs].
Defined.

(** ** The camera view: a run that found the guard closed *)

Lemma count_zero {A} (P : A -> Prop) `{!forall x, Decision (P x)} (l : list A) :
  length (filter P l) = 0%nat <-> forall x, x ∈ l -> ~ P x.
Proof.
  split.
  - intros Hz%nil_length_inv x Hx HP.
    assert (Hin : x ∈ filter P l) by (by apply list_elem_of_filter).
    rewrite Hz in Hin. by apply elem_of_nil in Hin.
  - intros Hall. induction l as [|a l IH]; [done|].
    rewrite filter_cons, decide_False by (apply Hall; by left).
    apply IH. intros x Hx. apply Hall. by right.
Qed.

Lemma dormant_elems (st : CameraView.State) (g : nat) :
  CameraView.dormant st g <->
  (forall t, t ∈ CameraView.timers st -> CameraView.owner t <> g) /\
  (forall f, f ∈ CameraView.flights st -> CameraView.caller f <> g).
Proof.
  unfold CameraView.dormant, CameraView.pending_timers, CameraView.pending_calls.
  by rewrite !count_zero.
Qed.

Lemma elem_of_insert_inv {A} (l : list A) (k : nat) (x y : A) :
  x ∈ <[k:=y]> l -> x = y \/ x ∈ l.
Proof.
  intros [j Hj]%list_elem_of_lookup.
  apply list_lookup_insert_Some in Hj as [(-> & -> & _)|[_ Hj]]; [by left|].
  right. by eapply list_elem_of_lookup_2.
Qed.

Lemma find_elem (h : nat) (l : list CameraView.Timer) (t : CameraView.Timer) :
  find (fun t => bool_decide (CameraView.handle t = h)) l = Some t -> t ∈ l.
Proof.
  induction l as [|x l IH]; [done|]. simpl.
  case_bool_decide; [intros [= ->]; by left | intros ?; right; by apply IH].
Qed.

Lemma release_detach_view (st : CameraView.State) :
  let st' := CameraView.detach_sink (CameraView.release_stream st) in
  CameraView.log st' = CameraView.log st /\
  CameraView.isInitializing st' = CameraView.isInitializing st /\
  CameraView.hasError st' = CameraView.hasError st.
Proof.
  unfold CameraView.detach_sink, CameraView.release_stream.
  destruct (CameraView.streamRef st); simpl;
    destruct (CameraView.videoRef st); simpl; done.
Qed.

Lemma attempts_of_alter (f : CameraView.Instance -> CameraView.Instance)
    (g g' : nat) (st st' : CameraView.State) :
  CameraView.instances st' = alter f g (CameraView.instances st) ->
  (g' <> g \/ forall i, CameraView.attempts (f i) = CameraView.attempts i) ->
  CameraView.attempts_of st' g' = CameraView.attempts_of st g'.
Proof.
  intros Hi Hf. unfold CameraView.attempts_of. rewrite Hi, list_lookup_alter.
  case_decide as Hg; [|done]. subst g'.
  destruct Hf as [Hf|Hf]; [done|].
  destruct (CameraView.instances st !! g); simpl; [apply Hf | done].
Qed.

Lemma cleanup_view (g : nat) (st : CameraView.State) :
  let st' := CameraView.cleanup g st in
  CameraView.log st' = CameraView.log st /\
  CameraView.isInitializing st' = CameraView.isInitializing st /\
  CameraView.hasError st' = CameraView.hasError st /\
  CameraView.flights st' = CameraView.flights st /\
  (forall t, t ∈ CameraView.timers st' -> t ∈ CameraView.timers st) /\
  (forall g', CameraView.attempts_of st' g' = CameraView.attempts_of st g').
Proof.
  unfold CameraView.cleanup.
  set (st2 := match CameraView.instances st !! g with
              | Some i => _ | None => _ end).
  assert (H2 : CameraView.log st2 = CameraView.log st /\
               CameraView.isInitializing st2 = CameraView.isInitializing st /\
               CameraView.hasError st2 = CameraView.hasError st /\
               CameraView.flights st2 = CameraView.flights st /\
               (forall t, t ∈ CameraView.timers st2 -> t ∈ CameraView.timers st) /\
               CameraView.instances st2
               = alter (fun i => CameraView.mkInstance
                                   (CameraView.deviceId i) false
                                   (CameraView.retryTimeout i)
                                   (CameraView.retryCount i)
                                   (CameraView.attempts i))
                       g (CameraView.instances st)).
  { subst st2. destruct (CameraView.instances st !! g) as [i|]; [|done].
    destruct (CameraView.retryTimeout i); [|done]. simpl.
    repeat split; try done. by intros t [? ?]%list_elem_of_filter. }
  destruct H2 as (Hlog & Hin & Her & Hfl & Htm & Hinst).
  destruct (release_detach_frame st2) as (Hi' & Ht' & Hf' & _).
  destruct (release_detach_view st2) as (Hlog' & Hin' & Her').
  cbv zeta. repeat split; try congruence.
  - intros t. rewrite Ht'. apply Htm.
  - intros g'.
    apply (attempts_of_alter _ g g' st _ (eq_trans Hi' Hinst)). by right.
Qed.

(** A call of [initCamera] by a run that is not mounted changes nothing
    the user sees, sets no timer, and leaves the other runs' books. *)
Lemma initCamera_view (g' : nat) (st : CameraView.State) :
  CameraView.is_mounted st g' = false ->
  let st' := CameraView.initCamera g' st in
  CameraView.outputs st' = CameraView.outputs st /\
  CameraView.isInitializing st' = CameraView.isInitializing st /\
  CameraView.hasError st' = CameraView.hasError st /\
  CameraView.timers st' = CameraView.timers st /\
  (forall f, f ∈ CameraView.flights st' ->
             f ∈ CameraView.flights st \/ CameraView.caller f = g') /\
  (forall g, g <> g' ->
             CameraView.attempts_of st' g = CameraView.attempts_of st g).
Proof.
  intros Hun. cbv zeta. unfold CameraView.initCamera.
  destruct (CameraView.instances st !! g') as [i|] eqn:Hi;
    [|repeat split; try done; by left].
  destruct (CameraView.deviceId i) as [d|];
    [|repeat split; try done; by left].
  destruct (_ || _); [repeat split; try done; by left|].
  set (st1 := CameraView.update_instance g' _ _).
  assert (Hun1 : CameraView.is_mounted st1 g' = false).
  { rewrite is_mounted_runs. unfold CameraView.mounted_runs. subst st1. simpl.
    rewrite mounted_alter by done.
    fold (CameraView.mounted_runs st). by rewrite <- is_mounted_runs. }
  assert (Hatt : forall g, g <> g' ->
             CameraView.attempts_of st1 g = CameraView.attempts_of st g).
  { intros g Hg. eapply attempts_of_alter; [reflexivity | by left]. }
  destruct (negb _).
  - rewrite catch_block_stale by done. repeat split; try done. by left.
  - destruct (release_detach_frame st1) as (Hi' & Ht' & Hf' & _).
    destruct (release_detach_view st1) as (Hlog' & Hin' & Her').
    repeat split; simpl.
    + unfold CameraView.outputs. simpl. rewrite Hlog', filter_app.
      rewrite filter_cons, decide_False by done.
      by rewrite filter_nil, app_nil_r.
    + by rewrite Hin'.
    + by rewrite Her'.
    + by rewrite Ht'.
    + intros f [Hf|Hf]%elem_of_app.
      * left. by rewrite Hf' in Hf.
      * apply list_elem_of_singleton in Hf as ->. by right.
    + intros g Hg. rewrite <- (Hatt g Hg). unfold CameraView.attempts_of.
      simpl. by rewrite Hi'.
Qed.

(** A call that resumes for a run that is not mounted changes nothing the
    user sees, sets no timer and touches no run's books. *)
Lemma settle_view (k : nat) (r : option Http.Thrown) (st : CameraView.State)
    (f : CameraView.Flight) :
  CameraView.flights st !! k = Some f ->
  CameraView.is_mounted st (CameraView.caller f) = false ->
  let st' := CameraView.settle k r st in
  CameraView.log st' = CameraView.log st /\
  CameraView.isInitializing st' = CameraView.isInitializing st /\
  CameraView.hasError st' = CameraView.hasError st /\
  CameraView.timers st' = CameraView.timers st /\
  CameraView.instances st' = CameraView.instances st /\
  (forall f', f' ∈ CameraView.flights st' ->
              f' ∈ CameraView.flights st \/
              CameraView.caller f' = CameraView.caller f).
Proof.
  intros Hk Hun. cbv zeta. unfold CameraView.settle. rewrite Hk.
  assert (Hdel : forall f', f' ∈ delete k (CameraView.flights st) ->
                            f' ∈ CameraView.flights st \/
                            CameraView.caller f' = CameraView.caller f).
  { intros f' Hf'. left. by eapply list_elem_of_delete_inv. }
  destruct r as [err|].
  { rewrite catch_block_stale by done. by repeat split. }
  destruct (CameraView.phase f) as [|s|s].
  - rewrite Hun. simpl. by repeat split.
  - destruct (CameraView.videoRef st).
    + simpl. repeat split; try done.
      intros f' [->|Hf']%elem_of_insert_inv; [by right | by left].
    + rewrite catch_block_stale by done. by repeat split.
  - rewrite connected_stale by done. by repeat split.
Qed.

Lemma same_view_log (g : nat) (st st' : CameraView.State) :
  CameraView.log st' = CameraView.log st ->
  CameraView.isInitializing st' = CameraView.isInitializing st ->
  CameraView.hasError st' = CameraView.hasError st ->
  CameraView.instances st' = CameraView.instances st ->
  CameraView.same_view g st st'.
Proof.
  intros Hl Hi He Hinst.
  unfold CameraView.same_view, CameraView.outputs, CameraView.attempts_of.
  by rewrite Hl, Hi, He, Hinst.
Qed.

(** Once a run is starved it stays so, and the view with it, until the
    effect runs again. *)
Lemma step_starved (g : nat) (ev : CameraView.Event) (st : CameraView.State) :
  CameraView.is_run_effect ev = false -> CameraView.starved st g ->
  CameraView.starved (CameraView.step ev st) g /\
  CameraView.same_view g st (CameraView.step ev st).
Proof.
  intros Hev [Hd Hoth]. pose proof Hd as [Htm Hfl]%dormant_elems.
  unfold CameraView.starved. rewrite dormant_elems.
  destruct ev as [d| |h|k r|[|]|s]; simpl; try done.
  - unfold CameraView.cleanup_current, CameraView.current.
    destruct (CameraView.is_mounted st _) eqn:Hm;
      [|split; [done | by apply same_view_log]].
    assert (Hg : pred (length (CameraView.instances st)) = g).
    { destruct (decide (pred (length (CameraView.instances st)) = g)) as [|Hne];
        [done|]. by rewrite (Hoth _ Hne) in Hm. }
    rewrite Hg.
    destruct (cleanup_view g st) as (Hlog & Hin & Her & Hf & Ht & Hatt).
    repeat split.
    + intros t Ht'. by apply Htm, Ht.
    + rewrite Hf. apply Hfl.
    + intros g' Hg'. rewrite is_mounted_runs, cleanup_runs.
      rewrite list_lookup_alter_ne by done.
      rewrite <- is_mounted_runs. by apply Hoth.
    + unfold CameraView.outputs. by rewrite Hlog.
    + done.
    + done.
    + apply Hatt.
  - destruct (find _ _) as [t|] eqn:Hfind;
      [|split; [done | by apply same_view_log]].
    apply find_elem in Hfind.
    pose proof (Htm t Hfind) as Hne.
    set (st0 := CameraView.clearTimeout h st).
    assert (Hun0 : CameraView.is_mounted st0 (CameraView.owner t) = false)
      by (by apply Hoth).
    destruct (initCamera_view (CameraView.owner t) st0 Hun0)
      as (Hout & Hin & Her & Ht & Hf & Hatt).
    repeat split.
    + intros t'. rewrite Ht. simpl. intros [_ Ht']%list_elem_of_filter.
      by apply Htm.
    + intros f [Hf'|Hf']%Hf; [by apply Hfl | congruence].
    + intros g' Hg'. rewrite is_mounted_runs, initCamera_runs.
      rewrite <- is_mounted_runs. by apply Hoth.
    + done.
    + done.
    + done.
    + by rewrite Hatt by done.
  - destruct (CameraView.flights st !! k) as [f|] eqn:Hk; cycle 1.
    { unfold CameraView.settle. rewrite Hk.
      split; [done | by apply same_view_log]. }
    pose proof (Hfl f (list_elem_of_lookup_2 _ _ _ Hk)) as Hne.
    destruct (settle_view k r st f Hk (Hoth _ Hne))
      as (Hlog & Hin & Her & Ht & Hinst & Hf).
    split; [|by apply same_view_log]. repeat split.
    + intros t. rewrite Ht. apply Htm.
    + intros f' [Hf'|Hf']%Hf; [by apply Hfl | congruence].
    + intros g' Hg'. unfold CameraView.is_mounted. rewrite Hinst.
      by apply Hoth.
  - destruct (CameraView.videoRef st);
      (split; [done | by apply same_view_log]).
Qed.

Lemma run_starved (g : nat) (evs : list CameraView.Event) (st : CameraView.State) :
  (forall ev, ev ∈ evs -> CameraView.is_run_effect ev = false) ->
  CameraView.starved st g ->
  CameraView.starved (CameraView.run evs st) g /\
  CameraView.same_view g st (CameraView.run evs st).
Proof.
  unfold CameraView.run. revert st.
  induction evs as [|ev evs IH]; intros st Hevs Hs; simpl.
  { split; [done | by apply same_view_log]. }
  destruct (step_starved g ev st) as [H1 H2]; [apply Hevs; by left | done |].
  destruct (IH (CameraView.step ev st)) as [H3 H4];
    [intros ev' ?; apply Hevs; by right | done |].
  split; [done|].
  destruct H2 as (? & ? & ? & ?), H4 as (? & ? & ? & ?).
  repeat split; congruence.
Qed.

(** X25.  [initCamera] does not queue behind a call that is under way.
    When the timer of the mounted run of the effect fires while
    [initializingRef] is set (a call of an earlier run is still suspended),
    the call returns at its guard and nothing is left that would call
    [initCamera] for this run: it has no timer pending and no call
    suspended.  From then on, whatever happens (the other call resuming,
    other timers, an unmount), as long as the effect does not run again,
    the run makes no attempt for its device and the view stays as it is:
    no toast, no [onStream], [isInitializing] and [hasError] unchanged. *)
Theorem closed_guard_starves_run
    (sup : bool) (evs later : list CameraView.Event) (h : nat)
    (t : CameraView.Timer)
    (Hfire : find (fun x => bool_decide (CameraView.handle x = h))
               (CameraView.timers (CameraView.run evs (CameraView.initial sup)))
             = Some t)
    (Hcur : CameraView.current (CameraView.run evs (CameraView.initial sup))
            = Some (CameraView.owner t))
    (Hbusy : CameraView.initializingRef
               (CameraView.run evs (CameraView.initial sup)) = true)
    (Hlater : forall ev, ev ∈ later -> CameraView.is_run_effect ev = false) :
  let st := CameraView.run evs (CameraView.initial sup) in
  let st' := CameraView.run later (CameraView.step (CameraView.TimerFires h) st) in
  CameraView.pending_timers st' (CameraView.owner t) = 0%nat /\
  CameraView.pending_calls st' (CameraView.owner t) = 0%nat /\
  CameraView.attempts_of st' (CameraView.owner t)
  = CameraView.attempts_of st (CameraView.owner t) /\
  CameraView.outputs st' = CameraView.outputs st /\
  CameraView.isInitializing st' = CameraView.isInitializing st /\
  CameraView.hasError st' = CameraView.hasError st.
Proof.
  intros st st'. subst st'. fold st in Hfire, Hcur, Hbusy.
  set (g := CameraView.owner t) in *.
  assert (Hh0 : CameraView.held (CameraView.initial sup)) by (by left).
  assert (Hf0 : CameraView.single_flight (CameraView.initial sup)) by done.
  pose proof (run_bounded evs _ Hh0 Hf0 (initial_bounded sup)) as Hb.
  destruct (run_last_only evs _ Hh0 Hf0) as [Hlast _].
  { split; [by intros ? | done]. }
  fold st in Hb, Hlast.
  assert (Hm : CameraView.is_mounted st g = true /\
               g = pred (length (CameraView.instances st))).
  { unfold CameraView.current in Hcur.
    destruct (CameraView.is_mounted st _) eqn:Hm; [|done].
    injection Hcur as Hg. by rewrite <- Hg. }
  destruct Hm as [Hm Hg].
  set (st0 := CameraView.clearTimeout h st).
  assert (Hstep : CameraView.step (CameraView.TimerFires h) st = st0).
  { simpl. rewrite Hfire. fold g. unfold CameraView.initCamera.
    change (CameraView.instances (CameraView.clearTimeout h st))
      with (CameraView.instances st).
    destruct (CameraView.instances st !! g) as [i|]; [|done].
    destruct (CameraView.deviceId i) as [d|]; [|done].
    change (CameraView.initializingRef (CameraView.clearTimeout h st))
      with (CameraView.initializingRef st).
    by rewrite Hbusy, orb_true_r. }
  rewrite Hstep.
  assert (Hs0 : CameraView.starved st0 g).
  { split.
    - pose proof (owned_fired _ h t Hfire) as Hp. fold g in Hp.
      specialize (Hb g). unfold CameraView.is_mounted in Hm.
      destruct (CameraView.instances st !! g) as [i|]; [|done].
      unfold CameraView.dormant, CameraView.pending_timers,
        CameraView.pending_calls, CameraView.accounted in *.
      subst st0. simpl. destruct Hb as [_ [Hb|Hb]]; lia.
    - intros g' Hg'. destruct (CameraView.is_mounted st g') eqn:Hm'; [|done].
      apply Hlast in Hm'. congruence. }
  destruct (run_starved g later st0 Hlater Hs0)
    as [[[Hp Hc] _] (Ho & Hi & He & Ha)].
  repeat split; done.
Qed.

Lemma closed_guard_starves_run_witness :
  let evs := [CameraView.RunEffect (Some "camA");
              CameraView.RunEffect (Some "camB");
              CameraView.TimerFires 0] in
  let st := CameraView.run evs (CameraView.initial true) in
  let st' := CameraView.run [CameraView.Settles 0 None]
               (CameraView.step (CameraView.TimerFires 1) st) in
  CameraView.current st = Some 1%nat /\
  CameraView.initializingRef st = true /\
  CameraView.log st' = [CameraView.GetUserMedia 0 "camA"] /\
  CameraView.pending_timers st' 1 = 0%nat /\
  CameraView.pending_calls st' 1 = 0%nat /\
  CameraView.attempts_of st' 1 = 0%nat /\
  CameraView.outputs st' = [] /\
  CameraView.isInitializing st' = true.
Proof.
  intros evs st st'.
  assert (Hfire : find (fun x => bool_decide (CameraView.handle x = 1%nat))
                    (CameraView.timers st)
                  = Some (CameraView.mkTimer 1 1 2500))
    by (vm_compute; reflexivity).
  assert (Hcur : CameraView.current st = Some 1%nat)
    by (vm_compute; reflexivity).
  assert (Hbusy : CameraView.initializingRef st = true)
    by (vm_compute; reflexivity).
  assert (Hlater : forall ev, ev ∈ [CameraView.Settles 0 None] ->
                              CameraView.is_run_effect ev = false).
  { intros ev Hin.
    repeat (apply elem_of_cons in Hin as [->|Hin]; [done|]).
    by apply elem_of_nil in Hin. }
  pose proof (closed_guard_starves_run true evs [CameraView.Settles 0 None] 1
                (CameraView.mkTimer 1 1 2500) Hfire Hcur Hbusy Hlater) as X.
  cbv zeta in X. simpl CameraView.owner in X.
  destruct X as (Hp & Hc & Ha & Ho & Hi & _).
  split; [exact Hcur|]. split; [exact Hbusy|].
  split; [vm_compute; reflexivity|].
  split; [exact Hp|]. split; [exact Hc|].
  split; [exact (eq_trans Ha eq_refl)|].
  split; [exact (eq_trans Ho eq_refl)|].
  exact (eq_trans Hi eq_refl).
Defined.

(** ** The training data collection *)

Lemma filter_index_all (keep : nat -> bool) (o : nat) (l : list string) :
  (forall j, (o <= j)%nat -> keep j = true) -> Yolo.filter_index keep o l = l.
Proof.
  revert o. induction l as [|x l IH]; intros o Hk; [done|]. simpl.
  rewrite Hk by lia. f_equal. apply IH. intros j Hj. apply Hk. lia.
Qed.

(** Filtering on [index !== k] removes the element at [k], if there is
    one. *)
Lemma filter_index_delete (k o : nat) (l : list string) :
  (o <= k)%nat ->
  Yolo.filter_index (fun index => negb (index =? k)%nat) o l = delete (k - o)%nat l.
Proof.
  revert o. induction l as [|x l IH]; intros o Hk; [done|]. simpl.
  destruct (decide (o = k)) as [->|Hne].
  - rewrite Nat.eqb_refl, Nat.sub_diag. simpl.
    apply filter_index_all. intros j Hj.
    apply negb_true_iff, Nat.eqb_neq. lia.
  - rewrite (proj2 (Nat.eqb_neq o k)) by done. simpl.
    replace (k - o)%nat with (S (k - S o)) by lia. simpl.
    f_equal. apply IH. lia.
Qed.

Lemma concat_insert_length (c : list (list string)) (i : nat)
    (l l' : list string) :
  c !! i = Some l ->
  (length (concat (<[i:=l']> c)) + length l
   = length (concat c) + length l')%nat.
Proof.
  intros Hi. pose proof (lookup_lt_Some _ _ _ Hi) as Hlt.
  rewrite insert_take_drop by done.
  rewrite <- (take_drop_middle c i l Hi) at 3.
  rewrite !concat_app, !length_app. simpl. rewrite !length_app. lia.
Qed.

Lemma slot_insert (st st' : Yolo.State) (i : nat) (l : list string) :
  (i < length (Yolo.captures st))%nat ->
  Yolo.captures st' = <[i:=l]> (Yolo.captures st) ->
  Yolo.slot st' i = l /\
  forall j, j <> i -> Yolo.slot st' j = Yolo.slot st j.
Proof.
  intros Hlt Hc. unfold Yolo.slot. rewrite Hc. split.
  - by rewrite list_lookup_insert_eq.
  - intros j Hj. by rewrite list_lookup_insert_ne.
Qed.

(** X26.  With its three slots in place, [captureImage] ends with
    [isCapturing] off and exactly one toast, keeps three slots and never
    touches the slot of another camera.  When the camera has its video and
    canvas elements, the canvas gives a context and the frame is grabbed,
    the frame is appended to the end of that camera's slot (one image
    more in total) and the toast is "Image Captured"; in every other case
    no image is stored and the toast is destructive. *)
Theorem captureImage_stores_one_frame
    (e : Yolo.Env) (i : nat) (st : Yolo.State)
    (H3 : length (Yolo.captures st) = 3%nat) :
  exists st' t,
    Yolo.captureImage e i st
    = {| Yolo.state := Some st'; Yolo.toasts := [t] |} /\
    Yolo.isCapturing st' = false /\
    Yolo.activeCamera st' = Yolo.activeCamera st /\
    length (Yolo.captures st') = 3%nat /\
    (forall j, j <> i -> Yolo.slot st' j = Yolo.slot st j) /\
    match Yolo.taken e i with
    | Some img =>
        Yolo.slot st' i = Yolo.slot st i ++ [img] /\
        Yolo.totalImages st' = S (Yolo.totalImages st) /\
        t = Yolo.image_captured i
    | None =>
        Yolo.captures st' = Yolo.captures st /\ variant t = Destructive
    end.
Proof.
  unfold Yolo.captureImage, Yolo.taken.
  destruct (Yolo.element (Yolo.video e) i) eqn:Hv; simpl;
    [|by eexists _, _; repeat split].
  destruct (Yolo.element (Yolo.canvas e) i) eqn:Hc; simpl;
    [|by eexists _, _; repeat split].
  destruct (Yolo.grab e) as [err|img]; [by eexists _, _; repeat split|].
  assert (Hi : (i < length (Yolo.captures st))%nat).
  { unfold Yolo.element in Hv. apply andb_true_iff in Hv as [Hi _].
    apply Nat.ltb_lt in Hi. lia. }
  destruct (lookup_lt_is_Some_2 _ _ Hi) as [l Hl].
  unfold Yolo.append_image. rewrite Hl.
  eexists _, _. split; [reflexivity|]. simpl.
  destruct (slot_insert st
              (Yolo.set_isCapturing false
                 (Yolo.set_captures (<[i:=l ++ [img]]> (Yolo.captures st)) st))
              i (l ++ [img]) Hi eq_refl) as [Hs Ho].
  repeat split; try done.
  - by rewrite length_insert.
  - rewrite Hs. unfold Yolo.slot. by rewrite Hl.
  - unfold Yolo.totalImages. simpl.
    pose proof (concat_insert_length _ i l (l ++ [img]) Hl) as Hn.
    rewrite length_app in Hn. simpl in Hn. lia.
Qed.

Lemma captureImage_stores_one_frame_witness :
  length (Yolo.captures Yolo.initial) = 3%nat /\
  exists st' t,
    Yolo.captureImage (Sample.studio "frame") 1 Yolo.initial
    = {| Yolo.state := Some st'; Yolo.toasts := [t] |} /\
    Yolo.slot st' 1 = ["frame"] /\ Yolo.slot st' 0 = [] /\
    t = Yolo.image_captured 1.
Proof.
  split; [reflexivity|].
  destruct (captureImage_stores_one_frame (Sample.studio "frame") 1
              Yolo.initial eq_refl)
    as (st' & t & Hrun & _ & _ & _ & Hother & Hm).
  change (Yolo.taken (Sample.studio "frame") 1) with (Some "frame") in Hm.
  destruct Hm as (Hs & _ & Ht).
  exists st', t. split; [exact Hrun|]. split; [exact Hs|].
  split; [exact (Hother 0%nat (Nat.neq_0_succ 0)) | exact Ht].
Defined.

(** X27.  [deleteCapture] always shows the "Image Deleted" toast.  When the
    camera has a slot, the slot loses exactly the image at [captureIndex],
    the images before and after it keeping their order, and the total goes
    down by one; an index past the end of the slot removes nothing and
    leaves the state as it is, the toast being shown all the same.  When
    the camera has no slot the updater throws. *)
Theorem deleteCapture_removes_the_indexed_image
    (i k : nat) (st : Yolo.State) :
  Yolo.toasts (Yolo.deleteCapture i k st) = [Yolo.image_deleted i k] /\
  match Yolo.captures st !! i with
  | Some l =>
      exists st',
        Yolo.state (Yolo.deleteCapture i k st) = Some st' /\
        Yolo.captures st'
        = <[i := take k l ++ drop (S k) l]> (Yolo.captures st) /\
        Yolo.isCapturing st' = Yolo.isCapturing st /\
        Yolo.activeCamera st' = Yolo.activeCamera st /\
        (if decide (k < length l)%nat
         then S (Yolo.totalImages st') = Yolo.totalImages st
         else st' = st)
  | None => Yolo.state (Yolo.deleteCapture i k st) = None
  end.
Proof.
  split; [done|]. unfold Yolo.deleteCapture, Yolo.remove_image.
  destruct (Yolo.captures st !! i) as [l|] eqn:Hl; [|done]. simpl.
  rewrite filter_index_delete by lia. rewrite Nat.sub_0_r, delete_take_drop.
  eexists. split; [reflexivity|]. simpl. repeat split.
  case_decide as Hk.
  - unfold Yolo.totalImages. simpl.
    pose proof (concat_insert_length _ i l (take k l ++ drop (S k) l) Hl) as Hn.
    rewrite length_app, length_take, length_drop in Hn. lia.
  - rewrite take_ge, drop_ge, app_nil_r by lia.
    rewrite list_insert_id by done. by destruct st.
Qed.

(** X28.  Deleting the image a capture has just stored, at the index the
    slot's length had before, gives back the captures as they were. *)
Theorem capture_then_delete_restores
    (e : Yolo.Env) (i : nat) (st : Yolo.State) (img : string)
    (H3 : length (Yolo.captures st) = 3%nat)
    (Htaken : Yolo.taken e i = Some img) :
  exists st1 st2,
    Yolo.state (Yolo.captureImage e i st) = Some st1 /\
    Yolo.slot st1 i = Yolo.slot st i ++ [img] /\
    Yolo.state (Yolo.deleteCapture i (length (Yolo.slot st i)) st1) = Some st2 /\
    Yolo.captures st2 = Yolo.captures st.
Proof.
  unfold Yolo.captureImage, Yolo.taken in *.
  destruct (Yolo.element (Yolo.video e) i) eqn:Hv; simpl in *; [|done].
  destruct (Yolo.element (Yolo.canvas e) i) eqn:Hc; simpl in *; [|done].
  destruct (Yolo.grab e) as [err|img']; [done|]. injection Htaken as ->.
  assert (Hi : (i < length (Yolo.captures st))%nat).
  { unfold Yolo.element in Hv. apply andb_true_iff in Hv as [Hi _].
    apply Nat.ltb_lt in Hi. lia. }
  destruct (lookup_lt_is_Some_2 _ _ Hi) as [l Hl].
  unfold Yolo.append_image, Yolo.deleteCapture, Yolo.remove_image, Yolo.slot.
  eexists _, _. rewrite Hl. simpl. split; [reflexivity|]. simpl.
  rewrite list_lookup_insert_eq by done. split; [done|].
  split; [reflexivity|]. simpl.
  rewrite filter_index_delete by lia. rewrite Nat.sub_0_r, delete_take_drop.
  rewrite take_app_length, drop_ge, app_nil_r by (rewrite length_app; simpl; lia).
  rewrite list_insert_insert_eq. by apply list_insert_id.
Qed.

Lemma capture_then_delete_restores_witness :
  exists st1 st2,
    Yolo.state (Yolo.captureImage (Sample.studio "b") 2
                  (Yolo.set_captures [[]; []; ["a"]] Yolo.initial)) = Some st1 /\
    Yolo.slot st1 2 = ["a"; "b"] /\
    Yolo.state (Yolo.deleteCapture 2 1 st1) = Some st2 /\
    Yolo.captures st2 = [[]; []; ["a"]].
Proof.
  exact (capture_then_delete_restores (Sample.studio "b") 2
           (Yolo.set_captures [[]; []; ["a"]] Yolo.initial) "b"
           eq_refl eq_refl).
Defined.

(** X29.  [exportCaptures] shows exactly one toast.  It is the destructive
    "Export Failed" exactly when every slot is empty, which is exactly when
    the export button is disabled; otherwise it reports the number of
    images in all slots together. *)
Theorem exportCaptures_fails_iff_nothing_stored (st : Yolo.State) :
  exists t,
    Yolo.exportCaptures st = [t] /\
    (variant t = Destructive <-> forall l, l ∈ Yolo.captures st -> l = []) /\
    (Yolo.export_disabled st = true <-> variant t = Destructive) /\
    (variant t = Default ->
     description t
     = "Exported " +:+ pretty (sum_list (length <$> Yolo.captures st))
       +:+ " images for YOLOv8 training").
Proof.
  assert (Hsum : Yolo.totalImages st = sum_list (length <$> Yolo.captures st)).
  { unfold Yolo.totalImages. induction (Yolo.captures st) as [|l c IH];
      [done|]. simpl. rewrite length_app. by rewrite IH. }
  assert (Hzero : Yolo.totalImages st = 0%nat <->
                  forall l, l ∈ Yolo.captures st -> l = []).
  { unfold Yolo.totalImages. clear Hsum.
    induction (Yolo.captures st) as [|l c IH].
    - split; [by intros _ l ?%elem_of_nil | done].
    - simpl. rewrite length_app. split.
      + intros Hz l' [->|Hin]%elem_of_cons.
        * apply nil_length_inv. lia.
        * apply (proj1 IH); [lia | done].
      + intros Hall. rewrite (Hall l) by (by left). simpl.
        apply (proj2 IH). intros l' Hin. apply Hall. by right. }
  unfold Yolo.exportCaptures, Yolo.export_disabled.
  destruct (Yolo.totalImages st =? 0)%nat eqn:Ht.
  - apply Nat.eqb_eq in Ht. eexists. split; [reflexivity|]. simpl.
    repeat split; try done. intros _. by apply Hzero.
  - apply Nat.eqb_neq in Ht. eexists. split; [reflexivity|]. simpl.
    repeat split; try done.
    + intros Hall. by apply Hzero in Hall.
    + by rewrite Hsum.
Qed.

Lemma act_keeps_three_slots (a : Yolo.Action) (st : Yolo.State) :
  (Yolo.camera a < 3)%nat -> length (Yolo.captures st) = 3%nat ->
  exists st',
    Yolo.state (Yolo.act a st) = Some st' /\
    length (Yolo.captures st') = 3%nat /\
    (Yolo.totalImages st'
     <= Yolo.totalImages st
        + length (filter (fun t => title t = "Image Captured")
                    (Yolo.toasts (Yolo.act a st))))%nat.
Proof.
  intros Hcam H3. destruct a as [e i|i k| |i]; simpl in *.
  - unfold Yolo.captureImage.
    destruct (_ || _); [eexists; repeat split; simpl; [done | rewrite ?filter_cons; repeat case_decide;
         unfold Yolo.totalImages; simpl; lia]|].
    destruct (Yolo.grab e) as [err|img];
      [eexists; repeat split; simpl; [done | rewrite ?filter_cons; repeat case_decide;
         unfold Yolo.totalImages; simpl; lia]|].
    assert (Hi : (i < length (Yolo.captures st))%nat) by lia.
    destruct (lookup_lt_is_Some_2 _ _ Hi) as [l Hl].
    unfold Yolo.append_image. rewrite Hl. eexists. split; [reflexivity|].
    simpl. split; [by rewrite length_insert|].
    unfold Yolo.totalImages. simpl.
    pose proof (concat_insert_length _ i l (l ++ [img]) Hl) as Hn.
    rewrite length_app in Hn. simpl in Hn.
    rewrite ?filter_cons; repeat case_decide; simpl; try done; lia.
  - assert (Hi : (i < length (Yolo.captures st))%nat) by lia.
    destruct (lookup_lt_is_Some_2 _ _ Hi) as [l Hl].
    unfold Yolo.deleteCapture, Yolo.remove_image. rewrite Hl.
    eexists. split; [reflexivity|]. simpl.
    split; [by rewrite length_insert|].
    unfold Yolo.totalImages. simpl.
    rewrite filter_index_delete by lia. rewrite Nat.sub_0_r.
    pose proof (concat_insert_length _ i l (delete k l) Hl) as Hn.
    rewrite delete_take_drop, length_app, length_take, length_drop in Hn.
    rewrite delete_take_drop. lia.
  - eexists. repeat split; [done | unfold Yolo.totalImages; simpl; lia].
  - eexists. repeat split; [done | unfold Yolo.totalImages; simpl; lia].
Qed.

(** X30.  Whatever the user does with the buttons of the three cameras,
    in any order, no updater throws and the component keeps exactly three
    slots; and the images stored are never more than the "Image Captured"
    toasts shown. *)
Theorem session_keeps_three_slots
    (l : list Yolo.Action)
    (Hcam : forall a, a ∈ l -> (Yolo.camera a < 3)%nat) :
  exists st,
    Yolo.state (Yolo.acts l Yolo.initial) = Some st /\
    length (Yolo.captures st) = 3%nat /\
    (Yolo.totalImages st
     <= length (filter (fun t => title t = "Image Captured")
                  (Yolo.toasts (Yolo.acts l Yolo.initial))))%nat.
Proof.
  unfold Yolo.acts.
  assert (Hgen : forall r st0,
             Yolo.state r = Some st0 -> length (Yolo.captures st0) = 3%nat ->
             (Yolo.totalImages st0
              <= length (filter (fun t => title t = "Image Captured")
                           (Yolo.toasts r)))%nat ->
             let r' := foldl (fun r a =>
                                match Yolo.state r with
                                | Some s =>
                                    {| Yolo.state := Yolo.state (Yolo.act a s);
                                       Yolo.toasts := Yolo.toasts r
                                                      ++ Yolo.toasts (Yolo.act a s) |}
                                | None => r
                                end) r l in
             exists st, Yolo.state r' = Some st /\
                        length (Yolo.captures st) = 3%nat /\
                        (Yolo.totalImages st
                         <= length (filter (fun t => title t = "Image Captured")
                                      (Yolo.toasts r')))%nat).
  { induction l as [|a l IH]; intros r st0 Hr H3 Htot; simpl; [by eexists|].
    rewrite Hr.
    destruct (act_keeps_three_slots a st0) as (st1 & Hs1 & H31 & Ht1);
      [apply Hcam; by left | done |].
    apply (IH (fun a' Ha' => Hcam a' (list_elem_of_further _ _ _ Ha')) _ st1);
      simpl; try done.
    rewrite filter_app, length_app. lia. }
  apply (Hgen _ Yolo.initial); simpl; try done. 
Qed.

Lemma session_keeps_three_slots_witness :
  exists st,
    Yolo.state
      (Yolo.acts [Yolo.Capture (Sample.studio "a") 0; Yolo.Select 2;
                  Yolo.Capture (Sample.studio "b") 2; Yolo.Delete 0 0;
                  Yolo.Delete 1 5; Yolo.Export]
         Yolo.initial) = Some st /\
    length (Yolo.captures st) = 3%nat /\
    (Yolo.totalImages st
     <= length (filter (fun t => title t = "Image Captured")
                  (Yolo.toasts
                     (Yolo.acts [Yolo.Capture (Sample.studio "a") 0; Yolo.Select 2;
                                 Yolo.Capture (Sample.studio "b") 2;
                                 Yolo.Delete 0 0; Yolo.Delete 1 5; Yolo.Export]
                        Yolo.initial))))%nat.
Proof.
  apply session_keeps_three_slots.
  intros a Hin.
  repeat (apply elem_of_cons in Hin as [->|Hin]; [simpl; lia|]).
  by apply elem_of_nil in Hin.
Defined.
